(** * khmerzoon-app: the video-player routing layer

    A shallow embedding of
      - src/hooks/useNativeMobile.tsx            (module [NativeMobile]),
      - src/components/VideoPlayer.tsx           (module [Router]),
      - the unnamed variant of the same router   (module [RouterV0]),
      - src/components/player/MobileVideoPlayer.tsx (module [MobilePlayer]),
    with a heap for the objects the router receives (module [Store]) and
    the router composed with the mobile player it renders (module [System]),
    followed by the properties the specification states about them.

    React state cells ([useState]) and ref cells ([useRef]) are fields of a
    record that is passed explicitly; an effect reads the [useState] values
    of the render that scheduled it (its closure) and the live value of the
    refs, and its [set...] calls are applied in program order. *)

From Stdlib Require Import ZArith Ascii String.
From stdpp Require Import base option list gmap.

Local Open Scope string_scope.

(** ** JavaScript values used by the components *)

Module JS.

(** [String.prototype.toLowerCase] on the code units 'A'..'Z'. Strings are
    sequences of bytes here; a code unit outside 'A'..'Z' is kept. The only
    non-ASCII code points JavaScript lowers into ASCII yield a letter k or a
    letter i followed by a combining mark, so the comparisons the router
    makes against its keywords are decided the same way. *)
Definition lower_ascii (c : ascii) : ascii :=
  let n := nat_of_ascii c in
  if (65 <=? n)%nat && (n <=? 90)%nat then ascii_of_nat (n + 32) else c.

Fixpoint toLowerCase (s : string) : string :=
  match s with
  | EmptyString => EmptyString
  | String c r => String (lower_ascii c) (toLowerCase r)
  end.

(** Truthiness of a [string | null | undefined] value: the empty string,
    [null] and [undefined] are falsy. *)
Definition truthy (o : option string) : bool :=
  match o with
  | Some s => negb (String.eqb s "")
  | None => false
  end.

(** Truthiness of a [boolean | undefined] value. *)
Definition truthy_bool (o : option bool) : bool := default false o.

(** Truthiness of a [number | undefined] value (integers only). *)
Definition truthy_num (o : option Z) : bool :=
  match o with
  | Some n => negb (n =? 0)%Z
  | None => false
  end.

(** [a || b] on optional strings: [a] when it is truthy, [b] otherwise. *)
Definition or_else (a b : option string) : option string :=
  if truthy a then a else b.

(** [`${v}`] for a [string | undefined] value. *)
Definition template (o : option string) : string :=
  match o with
  | Some s => s
  | None => "undefined"
  end.

(** [a === b] for a [string | null] cell against a string. *)
Definition strict_eq (a : option string) (b : string) : bool :=
  match a with
  | Some s => String.eqb s b
  | None => false
  end.

(** [a !== b] on [string | undefined] values. *)
Definition strict_neq (a b : option string) : bool :=
  match a, b with
  | Some x, Some y => negb (String.eqb x y)
  | None, None => false
  | _, _ => true
  end.

(** [s.substring(0, n)]. *)
Definition substring0 (n : nat) (s : string) : string := String.substring 0 n s.

End JS.

(** ** The platform bridge (Capacitor) *)

Module Capacitor.

(** What the bridge answers: [Capacitor.isNativePlatform()] and
    [Capacitor.getPlatform()]. *)
Record Bridge := {
  isNativePlatform : bool;
  getPlatform : string;
}.

End Capacitor.

(** ** src/hooks/useNativeMobile.tsx *)

Module NativeMobile.
Import Capacitor.

Record Flags := {
  isNative : bool;
  platform : string;
  isAndroid : bool;
  isIOS : bool;
  isWeb : bool;
}.

Definition useNativeMobile (cap : Bridge) : Flags :=
  let isNative := isNativePlatform cap in
  let platform := getPlatform cap in
  {| isNative := isNative;
     platform := platform;
     isAndroid := isNative && String.eqb platform "android";
     isIOS := isNative && String.eqb platform "ios";
     isWeb := negb isNative || String.eqb platform "web" |}.

Definition isAndroidNative (cap : Bridge) : bool :=
  isNativePlatform cap && String.eqb (getPlatform cap) "android".

Definition isIOSNative (cap : Bridge) : bool :=
  isNativePlatform cap && String.eqb (getPlatform cap) "ios".

Definition getNativePlatform (cap : Bridge) : string :=
  if negb (isNativePlatform cap) then "web"
  else
    let platform := getPlatform cap in
    if String.eqb platform "android" then "android"
    else if String.eqb platform "ios" then "ios"
    else "web".

End NativeMobile.

(** ** Records shared by both variants of the router *)

Module Model.

Inductive Access := Free | Rent | Vip.

Inductive MediaType := Movie | Series | Anime.

(** The mode handed to the mobile player: ["mp4" | "hls" | "dash"]. *)
Inductive SourceMode := Mp4 | Hls | Dash.

(** Modelled from the spec: the [VideoSource] type is imported from
    [@/lib/supabase], which is not among the sources. The specification
    describes it as a video source descriptor with a URL or a per-quality
    URL mapping, a source-type tag and a default flag; the router also reads
    its [id]. Every field but [id] may be absent. [quality_urls] is a
    JavaScript object: it is kept as the list of its entries in the order
    [Object.values] enumerates them. *)
Record VideoSource := {
  vs_id : string;
  url : option string;
  quality_urls : option (list (string * string));
  source_type : option string;
  is_default : option bool;
}.

(** [interface Episode] of the router. *)
Record Episode := {
  ep_id : string;
  episode_number : option Z;
  ep_title : option string;
  ep_name : option string;
  still_path : option string;
  thumbnail_url : option string;
  access : option Access;
}.

(** The episode shape handed to the players. *)
Record PlayerEpisode := {
  pe_id : string;
  pe_episode_number : Z;
  pe_title : option string;
  pe_thumbnail_url : option string;
}.

(** [VideoPlayerProps]. A callback is represented by whether it was
    supplied; what the caller does inside it is outside this layer. *)
Record Props := {
  videoSources : list VideoSource;
  onEpisodeSelect : bool;
  episodes : option (list Episode);
  currentEpisodeId : option string;
  contentBackdrop : option string;
  accessType : option Access;
  excludeFromPlan : option bool;
  rentalPrice : option Z;
  rentalPeriodDays : option Z;
  mediaId : option string;
  mediaType : option MediaType;
  title : option string;
  movieId : option string;
  onMinimize : bool;
  trailerUrl : option string;
  contentId : option string;
  onEnded : bool;
  poster : option string;
}.

(** Properties forwarded to [MobileVideoPlayer]. *)
Record MobileProps := {
  m_key : string;
  m_videoUrl : string;
  m_poster : option string;
  m_autoplay : bool;
  m_onBack : bool;
  m_title : option string;
  m_sourceType : SourceMode;
  m_episodes : list PlayerEpisode;
  m_currentEpisodeId : option string;
  m_seriesBackdrop : option string;
}.

(** Properties forwarded to [ShakaPlayer]. The unnamed variant of the router
    forwards a few more of them; a property that a variant does not pass is
    [None] (or [false] for a callback). *)
Record ShakaProps := {
  s_key : option string;
  s_videoSources : list VideoSource;
  s_contentBackdrop : option string;
  s_autoplay : option bool;
  s_episodeId : option string;
  s_currentEpisodeId : option string;
  s_movieId : option string;
  s_accessType : Access;
  s_excludeFromPlan : option bool;
  s_rentalPrice : option Z;
  s_rentalPeriodDays : option Z;
  s_mediaId : option string;
  s_mediaType : option MediaType;
  s_title : option string;
  s_onMinimize : bool;
  s_trailerUrl : option string;
  s_episodes : list PlayerEpisode;
  s_seriesThumbnail : option string;
  s_contentId : option string;
  s_onEnded : bool;
}.

(** What a render returns. *)
Inductive Rendered :=
| LoadingSpinner
| MobileVideoPlayer (p : MobileProps)
| ShakaPlayer (p : ShakaProps).

(** The rendering outcome, without the forwarded properties. *)
Inductive Outcome := OSpinner | OMobile | OShaka.

Definition outcome (r : Rendered) : Outcome :=
  match r with
  | LoadingSpinner => OSpinner
  | MobileVideoPlayer _ => OMobile
  | ShakaPlayer _ => OShaka
  end.

(** [episodes?.find(ep => ep.id === currentEpisodeId)] *)
Definition currentEpisode (p : Props) : option Episode :=
  eps ← episodes p;
  List.find (fun ep => JS.strict_eq (currentEpisodeId p) (ep_id ep)) eps.

(** [currentEpisode?.access || accessType], with the default ['free'] of the
    destructured [accessType]. *)
Definition effectiveAccessType (p : Props) : Access :=
  match currentEpisode p ≫= access with
  | Some a => a
  | None => default Free (accessType p)
  end.

(** The body of the [episodes?.map(...)] callback. *)
Definition toPlayerEpisode (ep : Episode) : PlayerEpisode :=
  {| pe_id := ep_id ep;
     pe_episode_number :=
       if JS.truthy_num (episode_number ep) then default 0%Z (episode_number ep) else 0%Z;
     pe_title := JS.or_else (ep_title ep) (ep_name ep);
     pe_thumbnail_url := JS.or_else (thumbnail_url ep) (still_path ep) |}.

(** [episodes?.map(...) || []] *)
Definition playerEpisodes (p : Props) : list PlayerEpisode :=
  match episodes p with
  | Some eps => map toPlayerEpisode eps
  | None => []
  end.

(** [videoSources.find(s => s.is_default) || videoSources[0]] *)
Definition defaultSource (vs : list VideoSource) : option VideoSource :=
  match List.find (fun s => JS.truthy_bool (is_default s)) vs with
  | Some s => Some s
  | None => head vs
  end.

(** [`${currentEpisodeId || movieId}-${defaultSource.id}`] *)
Definition fetchKey (p : Props) (src : VideoSource) : string :=
  JS.template (JS.or_else (currentEpisodeId p) (movieId p)) ++ "-" ++ vs_id src.

(** [(defaultSource.source_type || "").toLowerCase()] *)
Definition sourceTypeOf (src : VideoSource) : string :=
  JS.toLowerCase (default "" (JS.or_else (source_type src) (Some ""))).

(** [Object.values(defaultSource.quality_urls)[0]] *)
Definition firstQualityUrl (q : list (string * string)) : option string :=
  snd <$> head q.

(** The [MobileVideoPlayer] element both variants build. *)
Definition mobileElement (p : Props) (videoUrl : string) (mode : SourceMode) : Rendered :=
  MobileVideoPlayer
    {| m_key := "mobile-" ++ JS.template (JS.or_else (currentEpisodeId p) (movieId p))
                ++ "-" ++ JS.substring0 50 videoUrl;
       m_videoUrl := videoUrl;
       m_poster :=
         JS.or_else (contentBackdrop p)
           (JS.or_else (poster p)
              (JS.or_else (currentEpisode p ≫= still_path)
                 (currentEpisode p ≫= thumbnail_url)));
       m_autoplay := false;
       m_onBack := onMinimize p;
       m_title := title p;
       m_sourceType := mode;
       m_episodes := playerEpisodes p;
       m_currentEpisodeId := currentEpisodeId p;
       m_seriesBackdrop := contentBackdrop p |}.

End Model.

(** ** src/components/VideoPlayer.tsx *)

Module Router.
Import NativeMobile Model.

(** The component's cells: four [useState] cells and two [useRef] cells. *)
Record Cells := {
  mobileVideoUrl : option string;
  mobileSourceType : SourceMode;
  isLoadingMobileUrl : bool;
  useShakafallback : bool;
  lastFetchedRef : option string;
  prevEpisodeIdRef : option string;
}.

(** The cells at mount: the initial values given to [useState] and [useRef]. *)
Definition mount (p : Props) : Cells :=
  {| mobileVideoUrl := None;
     mobileSourceType := Hls;
     isLoadingMobileUrl := false;
     useShakafallback := false;
     lastFetchedRef := None;
     prevEpisodeIdRef := currentEpisodeId p |}.

(** A piece of an event handler or effect: it updates the cells. *)
Definition Eff := Cells -> Cells.

Definition skip : Eff := fun c => c.

Definition seq (a b : Eff) : Eff := fun c => b (a c).

Declare Scope eff_scope.
Delimit Scope eff_scope with eff.
Bind Scope eff_scope with Eff.
Notation "a ;; b" := (seq a b) (at level 100, b at level 200, right associativity) : eff_scope.

Definition setMobileVideoUrl (v : option string) : Eff := fun c =>
  {| mobileVideoUrl := v;
     mobileSourceType := mobileSourceType c;
     isLoadingMobileUrl := isLoadingMobileUrl c;
     useShakafallback := useShakafallback c;
     lastFetchedRef := lastFetchedRef c;
     prevEpisodeIdRef := prevEpisodeIdRef c |}.

Definition setMobileSourceType (v : SourceMode) : Eff := fun c =>
  {| mobileVideoUrl := mobileVideoUrl c;
     mobileSourceType := v;
     isLoadingMobileUrl := isLoadingMobileUrl c;
     useShakafallback := useShakafallback c;
     lastFetchedRef := lastFetchedRef c;
     prevEpisodeIdRef := prevEpisodeIdRef c |}.

Definition setIsLoadingMobileUrl (v : bool) : Eff := fun c =>
  {| mobileVideoUrl := mobileVideoUrl c;
     mobileSourceType := mobileSourceType c;
     isLoadingMobileUrl := v;
     useShakafallback := useShakafallback c;
     lastFetchedRef := lastFetchedRef c;
     prevEpisodeIdRef := prevEpisodeIdRef c |}.

Definition setUseShakaFallback (v : bool) : Eff := fun c =>
  {| mobileVideoUrl := mobileVideoUrl c;
     mobileSourceType := mobileSourceType c;
     isLoadingMobileUrl := isLoadingMobileUrl c;
     useShakafallback := v;
     lastFetchedRef := lastFetchedRef c;
     prevEpisodeIdRef := prevEpisodeIdRef c |}.

(** [lastFetchedRef.current = v] *)
Definition setLastFetched (v : option string) : Eff := fun c =>
  {| mobileVideoUrl := mobileVideoUrl c;
     mobileSourceType := mobileSourceType c;
     isLoadingMobileUrl := isLoadingMobileUrl c;
     useShakafallback := useShakafallback c;
     lastFetchedRef := v;
     prevEpisodeIdRef := prevEpisodeIdRef c |}.

(** [prevEpisodeIdRef.current = v] *)
Definition setPrevEpisodeId (v : option string) : Eff := fun c =>
  {| mobileVideoUrl := mobileVideoUrl c;
     mobileSourceType := mobileSourceType c;
     isLoadingMobileUrl := isLoadingMobileUrl c;
     useShakafallback := useShakafallback c;
     lastFetchedRef := lastFetchedRef c;
     prevEpisodeIdRef := v |}.

(** Calls the component makes into the callbacks it was given. *)
Inductive ParentCall := CallOnEpisodeSelect (episodeId : string).

(** [handleEpisodeSelect(episode)] *)
Definition handleEpisodeSelect (p : Props) (episodeId : string)
  : Eff * list ParentCall :=
  if onEpisodeSelect p then
    ((setLastFetched None ;;
      setMobileVideoUrl None ;;
      setIsLoadingMobileUrl true ;;
      setUseShakaFallback false)%eff,
     [CallOnEpisodeSelect episodeId])
  else (skip, []).

(** The effect "Reset when episode changes". *)
Definition resetEffect (p : Props) : Eff := fun c =>
  if JS.strict_neq (prevEpisodeIdRef c) (currentEpisodeId p) then
    (setPrevEpisodeId (currentEpisodeId p) ;;
     setLastFetched None ;;
     setMobileVideoUrl None ;;
     setIsLoadingMobileUrl true ;;
     setUseShakaFallback false)%eff c
  else c.

(** The guard "Skip if we already fetched for this exact combination". The
    two [useState] values are those of the render [r] the effect closed
    over; the ref is read live. *)
Definition alreadyFetched (r c : Cells) (key : string) : bool :=
  JS.strict_eq (lastFetchedRef c) key
  && (JS.truthy (mobileVideoUrl r) || useShakafallback r).

(** "Set source type for MobileVideoPlayer" *)
Definition selectMode (sourceType : string) : SourceMode :=
  if String.eqb sourceType "hls" || String.eqb sourceType "m3u8" then Hls
  else if String.eqb sourceType "dash" then Dash
  else if String.eqb sourceType "mp4" then Mp4
  else Hls.

Definition isFrameSource (sourceType : string) : bool :=
  String.eqb sourceType "iframe" || String.eqb sourceType "embed".

(** "For free content, use URL directly", down to the end of the effect. *)
Definition resolveUrl (src : VideoSource) (key : string) : Eff :=
  (if JS.truthy (url src) then
     setMobileVideoUrl (url src) ;;
     setUseShakaFallback false ;;
     setLastFetched (Some key)
   else
     match quality_urls src with
     | Some q =>
         let firstUrl := firstQualityUrl q in
         (if JS.truthy firstUrl then
            setMobileVideoUrl firstUrl ;;
            setUseShakaFallback false
          else
            setMobileVideoUrl None ;;
            setUseShakaFallback true) ;;
         setLastFetched (Some key)
     | None =>
         setMobileVideoUrl None ;;
         setUseShakaFallback true ;;
         setLastFetched (Some key)
     end)%eff.

(** The effect "For native Android, get the video URL for mobile player".
    [r] holds the cells of the render that scheduled the effect. *)
Definition resolveEffect (f : Flags) (p : Props) (r : Cells) : Eff := fun c =>
  if negb (isNative f) || negb (isAndroid f) then c
  else
    match defaultSource (videoSources p) with
    | None =>
        (setMobileVideoUrl None ;;
         setIsLoadingMobileUrl false ;;
         setUseShakaFallback false)%eff c
    | Some src =>
        let key := fetchKey p src in
        if alreadyFetched r c key then setIsLoadingMobileUrl false c
        else
          let sourceType := sourceTypeOf src in
          if isFrameSource sourceType then
            (setIsLoadingMobileUrl true ;;
             setMobileVideoUrl None ;;
             setUseShakaFallback true ;;
             setIsLoadingMobileUrl false ;;
             setLastFetched (Some key))%eff c
          else
            (setIsLoadingMobileUrl true ;;
             setMobileSourceType (selectMode sourceType) ;;
             resolveUrl src key ;;
             setIsLoadingMobileUrl false)%eff c
    end.

(** The [ShakaPlayer] element this variant builds. *)
Definition shakaElement (p : Props) : Rendered :=
  ShakaPlayer
    {| s_key := JS.or_else (currentEpisodeId p) (movieId p);
       s_videoSources := videoSources p;
       s_contentBackdrop :=
         JS.or_else (contentBackdrop p)
           (JS.or_else (poster p) (currentEpisode p ≫= still_path));
       s_autoplay := None;
       s_episodeId := None;
       s_currentEpisodeId := currentEpisodeId p;
       s_movieId := movieId p;
       s_accessType := effectiveAccessType p;
       s_excludeFromPlan := excludeFromPlan p;
       s_rentalPrice := rentalPrice p;
       s_rentalPeriodDays := rentalPeriodDays p;
       s_mediaId := mediaId p;
       s_mediaType := mediaType p;
       s_title := title p;
       s_onMinimize := false;
       s_trailerUrl := None;
       s_episodes := playerEpisodes p;
       s_seriesThumbnail := None;
       s_contentId := contentId p;
       s_onEnded := onEnded p |}.

(** What the component returns for the cells [c]; a truthy
    [mobileVideoUrl] is a string, which [default] extracts. *)
Definition render (f : Flags) (p : Props) (c : Cells) : Rendered :=
  if isNative f && isAndroid f && negb (useShakafallback c) then
    if isLoadingMobileUrl c then LoadingSpinner
    else if JS.truthy (mobileVideoUrl c) then
      mobileElement p (default "" (mobileVideoUrl c)) (mobileSourceType c)
    else shakaElement p
  else shakaElement p.

(** One commit: the effects of the render with cells [r], in the order they
    are declared. *)
Definition commit (f : Flags) (p : Props) (r : Cells) : Cells :=
  (resetEffect p ;; resolveEffect f p r)%eff r.

(** Mount, then the re-render the state changes of the first commit cause. *)
Definition settle (f : Flags) (p : Props) : Cells :=
  commit f p (commit f p (mount p)).

End Router.

(** ** The unnamed variant of the router *)

Module RouterV0.
Import NativeMobile Model.

(** Three [useState] cells and two [useRef] cells: this variant has no
    fallback flag. *)
Record Cells := {
  mobileVideoUrl : option string;
  mobileSourceType : SourceMode;
  isLoadingMobileUrl : bool;
  lastFetchedRef : option string;
  prevEpisodeIdRef : option string;
}.

Definition mount (p : Props) : Cells :=
  {| mobileVideoUrl := None;
     mobileSourceType := Hls;
     isLoadingMobileUrl := false;
     lastFetchedRef := None;
     prevEpisodeIdRef := currentEpisodeId p |}.

Definition Eff := Cells -> Cells.

Definition skip : Eff := fun c => c.

Definition seq (a b : Eff) : Eff := fun c => b (a c).

Declare Scope eff0_scope.
Delimit Scope eff0_scope with eff0.
Bind Scope eff0_scope with Eff.
Notation "a ;; b" := (seq a b) (at level 100, b at level 200, right associativity) : eff0_scope.

Definition setMobileVideoUrl (v : option string) : Eff := fun c =>
  {| mobileVideoUrl := v;
     mobileSourceType := mobileSourceType c;
     isLoadingMobileUrl := isLoadingMobileUrl c;
     lastFetchedRef := lastFetchedRef c;
     prevEpisodeIdRef := prevEpisodeIdRef c |}.

Definition setMobileSourceType (v : SourceMode) : Eff := fun c =>
  {| mobileVideoUrl := mobileVideoUrl c;
     mobileSourceType := v;
     isLoadingMobileUrl := isLoadingMobileUrl c;
     lastFetchedRef := lastFetchedRef c;
     prevEpisodeIdRef := prevEpisodeIdRef c |}.

Definition setIsLoadingMobileUrl (v : bool) : Eff := fun c =>
  {| mobileVideoUrl := mobileVideoUrl c;
     mobileSourceType := mobileSourceType c;
     isLoadingMobileUrl := v;
     lastFetchedRef := lastFetchedRef c;
     prevEpisodeIdRef := prevEpisodeIdRef c |}.

Definition setLastFetched (v : option string) : Eff := fun c =>
  {| mobileVideoUrl := mobileVideoUrl c;
     mobileSourceType := mobileSourceType c;
     isLoadingMobileUrl := isLoadingMobileUrl c;
     lastFetchedRef := v;
     prevEpisodeIdRef := prevEpisodeIdRef c |}.

Definition setPrevEpisodeId (v : option string) : Eff := fun c =>
  {| mobileVideoUrl := mobileVideoUrl c;
     mobileSourceType := mobileSourceType c;
     isLoadingMobileUrl := isLoadingMobileUrl c;
     lastFetchedRef := lastFetchedRef c;
     prevEpisodeIdRef := v |}.

Definition handleEpisodeSelect (p : Props) (episodeId : string)
  : Eff * list Router.ParentCall :=
  if onEpisodeSelect p then
    ((setLastFetched None ;;
      setMobileVideoUrl None ;;
      setIsLoadingMobileUrl true)%eff0,
     [Router.CallOnEpisodeSelect episodeId])
  else (skip, []).

Definition resetEffect (p : Props) : Eff := fun c =>
  if JS.strict_neq (prevEpisodeIdRef c) (currentEpisodeId p) then
    (setPrevEpisodeId (currentEpisodeId p) ;;
     setLastFetched None ;;
     setMobileVideoUrl None ;;
     setIsLoadingMobileUrl true)%eff0 c
  else c.

Definition alreadyFetched (r c : Cells) (key : string) : bool :=
  JS.strict_eq (lastFetchedRef c) key && JS.truthy (mobileVideoUrl r).

(** "For free content, use URL directly", down to the end of the effect;
    [firstUrl || null] is falsy exactly when [firstUrl] is. *)
Definition resolveUrl (src : VideoSource) (key : string) : Eff :=
  (if JS.truthy (url src) then
     setMobileVideoUrl (url src) ;;
     setLastFetched (Some key)
   else
     match quality_urls src with
     | Some q =>
         let firstUrl := firstQualityUrl q in
         setMobileVideoUrl (JS.or_else firstUrl None) ;;
         setLastFetched (Some key)
     | None => setMobileVideoUrl None
     end)%eff0.

(** In this variant the source type is set before the iframe/embed test. *)
Definition resolveEffect (f : Flags) (p : Props) (r : Cells) : Eff := fun c =>
  if negb (isNative f) || negb (isAndroid f) then c
  else
    match defaultSource (videoSources p) with
    | None =>
        (setMobileVideoUrl None ;;
         setIsLoadingMobileUrl false)%eff0 c
    | Some src =>
        let key := fetchKey p src in
        if alreadyFetched r c key then setIsLoadingMobileUrl false c
        else
          let sourceType := sourceTypeOf src in
          if Router.isFrameSource sourceType then
            (setIsLoadingMobileUrl true ;;
             setMobileSourceType (Router.selectMode sourceType) ;;
             setMobileVideoUrl None ;;
             setIsLoadingMobileUrl false)%eff0 c
          else
            (setIsLoadingMobileUrl true ;;
             setMobileSourceType (Router.selectMode sourceType) ;;
             resolveUrl src key ;;
             setIsLoadingMobileUrl false)%eff0 c
    end.

Definition shakaElement (p : Props) : Rendered :=
  ShakaPlayer
    {| s_key := JS.or_else (currentEpisodeId p) (movieId p);
       s_videoSources := videoSources p;
       s_contentBackdrop :=
         JS.or_else (contentBackdrop p)
           (JS.or_else (poster p) (currentEpisode p ≫= still_path));
       s_autoplay := Some false;
       s_episodeId := currentEpisodeId p;
       s_currentEpisodeId := None;
       s_movieId := movieId p;
       s_accessType := effectiveAccessType p;
       s_excludeFromPlan := excludeFromPlan p;
       s_rentalPrice := rentalPrice p;
       s_rentalPeriodDays := rentalPeriodDays p;
       s_mediaId := mediaId p;
       s_mediaType := mediaType p;
       s_title := title p;
       s_onMinimize := onMinimize p;
       s_trailerUrl := trailerUrl p;
       s_episodes := playerEpisodes p;
       s_seriesThumbnail := contentBackdrop p;
       s_contentId := contentId p;
       s_onEnded := onEnded p |}.

(** The mobile player is tried first, the spinner second. *)
Definition render (f : Flags) (p : Props) (c : Cells) : Rendered :=
  if isNative f && isAndroid f && JS.truthy (mobileVideoUrl c) then
    mobileElement p (default "" (mobileVideoUrl c)) (mobileSourceType c)
  else if isNative f && isAndroid f && isLoadingMobileUrl c then LoadingSpinner
  else shakaElement p.

Definition commit (f : Flags) (p : Props) (r : Cells) : Cells :=
  (resetEffect p ;; resolveEffect f p r)%eff0 r.

Definition settle (f : Flags) (p : Props) : Cells :=
  commit f p (commit f p (mount p)).

End RouterV0.

(** ** src/components/player/MobileVideoPlayer.tsx *)

Module MobilePlayer.
Import Model.

Inductive Orientation := Landscape | Portrait.

(** What the component does to its environment: calls into the streaming
    library, the media element, the runtime bridge, the DOM, the console
    and the callback of its parent. *)
Inductive Call :=
| PlayerDestroy
| PolyfillInstallAll
| NewPlayer
| PlayerAttach
| PlayerConfigure
| PlayerLoad (videoUrl : string)
| VideoSetSrc (videoUrl : string)
| VideoLoad
| VideoPlay
| OrientationLock (o : Orientation)
| OrientationUnlock
| RequestFullscreen
| WebkitRequestFullscreen
| ExitFullscreen
| WebkitExitFullscreen
| SetTimeout (ms : nat)
| ConsoleLog (msg : string)
| ConsoleWarn (msg : string)
| ConsoleError (msg : string)
| ParentOnEpisodeSelect (episodeId : string).

(** The environment of one run of a handler: which references and DOM
    methods exist, what [shaka.Player.isBrowserSupported()] answers, and
    which of the calls that can throw or reject do so. *)
Record Env := {
  videoPresent : bool;
  containerPresent : bool;
  isNativePlatform : bool;
  isBrowserSupported : bool;
  hasRequestFullscreen : bool;
  hasWebkitRequestFullscreen : bool;
  fullscreenElement : bool;
  hasWebkitExitFullscreen : bool;
  destroyRejects : bool;
  installAllThrows : bool;
  newPlayerThrows : bool;
  attachRejects : bool;
  configureThrows : bool;
  loadRejects : bool;
  playRejects : bool;
  lockLandscapeRejects : bool;
  lockPortraitRejects : bool;
  unlockRejects : bool;
  requestFullscreenRejects : bool;
  exitFullscreenRejects : bool;
}.

(** Whether the call [k] throws or rejects in [env]. Assigning [video.src],
    [video.load()], [setTimeout], the console and the parent's callback are
    taken not to throw. *)
Definition rejects (env : Env) (k : Call) : bool :=
  match k with
  | PlayerDestroy => destroyRejects env
  | PolyfillInstallAll => installAllThrows env
  | NewPlayer => newPlayerThrows env
  | PlayerAttach => attachRejects env
  | PlayerConfigure => configureThrows env
  | PlayerLoad _ => loadRejects env
  | VideoPlay => playRejects env
  | OrientationLock Landscape => lockLandscapeRejects env
  | OrientationLock Portrait => lockPortraitRejects env
  | OrientationUnlock => unlockRejects env
  | RequestFullscreen | WebkitRequestFullscreen => requestFullscreenRejects env
  | ExitFullscreen | WebkitExitFullscreen => exitFullscreenRejects env
  | _ => false
  end.

(** A task handed to [setTimeout]. *)
Inductive Task := UnlockLater.

(** The cells of the component that the modelled handlers touch, the
    observable state of its media element and class lists, the pending
    timers and the calls made so far (latest last). *)
Record Cells := {
  isPlaying : bool;
  isFullscreen : bool;
  isLoading : bool;
  showEpisodesPanel : bool;
  shakaPlayerRef : bool;
  videoSrc : option string;
  containerFullscreenClass : bool;
  bodyFullscreenClass : bool;
  timers : list (nat * Task);
  calls : list Call;
}.

(** The cells at mount. *)
Definition mount : Cells :=
  {| isPlaying := false;
     isFullscreen := false;
     isLoading := true;
     showEpisodesPanel := false;
     shakaPlayerRef := false;
     videoSrc := None;
     containerFullscreenClass := false;
     bodyFullscreenClass := false;
     timers := [];
     calls := [] |}.

(** How a piece of code ends: normally, or by throwing (rejecting). *)
Inductive Completion (A : Type) :=
| Normal (a : A)
| Thrown (by_call : Call).
Arguments Normal {A} a.
Arguments Thrown {A} by_call.

(** The monad of the handlers: state passing with exceptions. *)
Definition M (A : Type) : Type := Cells -> Completion A * Cells.

Definition ret {A} (a : A) : M A := fun c => (Normal a, c).

Definition bind {A B} (m : M A) (k : A -> M B) : M B := fun c =>
  match m c with
  | (Normal a, c') => k a c'
  | (Thrown e, c') => (Thrown e, c')
  end.

(** [try { body } catch (e) { handler }] *)
Definition tryCatch {A} (body : M A) (handler : Call -> M A) : M A := fun c =>
  match body c with
  | (Normal a, c') => (Normal a, c')
  | (Thrown e, c') => handler e c'
  end.

Declare Scope player_scope.
Delimit Scope player_scope with player.
Notation "x <- m ;;; k" := (bind m (fun x => k))
  (at level 100, m at next level, k at level 200, right associativity) : player_scope.
Notation "m ;;; k" := (bind m (fun _ => k))
  (at level 100, k at level 200, right associativity) : player_scope.

Definition update (f : Cells -> Cells) : M unit := fun c => (Normal tt, f c).

Definition record (k : Call) (c : Cells) : Cells :=
  {| isPlaying := isPlaying c;
     isFullscreen := isFullscreen c;
     isLoading := isLoading c;
     showEpisodesPanel := showEpisodesPanel c;
     shakaPlayerRef := shakaPlayerRef c;
     videoSrc := videoSrc c;
     containerFullscreenClass := containerFullscreenClass c;
     bodyFullscreenClass := bodyFullscreenClass c;
     timers := timers c;
     calls := calls c ++ [k] |}.

(** A call that may throw or reject: it is recorded, then completes as
    the environment says. *)
Definition call (env : Env) (k : Call) : M unit := fun c =>
  (if rejects env k then Thrown k else Normal tt, record k c).

(** A call that does not throw. *)
Definition act (k : Call) : M unit := update (record k).

Definition setIsPlaying (v : bool) : M unit := update (fun c =>
  {| isPlaying := v;
     isFullscreen := isFullscreen c;
     isLoading := isLoading c;
     showEpisodesPanel := showEpisodesPanel c;
     shakaPlayerRef := shakaPlayerRef c;
     videoSrc := videoSrc c;
     containerFullscreenClass := containerFullscreenClass c;
     bodyFullscreenClass := bodyFullscreenClass c;
     timers := timers c;
     calls := calls c |}).

Definition setIsFullscreen (v : bool) : M unit := update (fun c =>
  {| isPlaying := isPlaying c;
     isFullscreen := v;
     isLoading := isLoading c;
     showEpisodesPanel := showEpisodesPanel c;
     shakaPlayerRef := shakaPlayerRef c;
     videoSrc := videoSrc c;
     containerFullscreenClass := containerFullscreenClass c;
     bodyFullscreenClass := bodyFullscreenClass c;
     timers := timers c;
     calls := calls c |}).

Definition setIsLoading (v : bool) : M unit := update (fun c =>
  {| isPlaying := isPlaying c;
     isFullscreen := isFullscreen c;
     isLoading := v;
     showEpisodesPanel := showEpisodesPanel c;
     shakaPlayerRef := shakaPlayerRef c;
     videoSrc := videoSrc c;
     containerFullscreenClass := containerFullscreenClass c;
     bodyFullscreenClass := bodyFullscreenClass c;
     timers := timers c;
     calls := calls c |}).

Definition setShowEpisodesPanel (v : bool) : M unit := update (fun c =>
  {| isPlaying := isPlaying c;
     isFullscreen := isFullscreen c;
     isLoading := isLoading c;
     showEpisodesPanel := v;
     shakaPlayerRef := shakaPlayerRef c;
     videoSrc := videoSrc c;
     containerFullscreenClass := containerFullscreenClass c;
     bodyFullscreenClass := bodyFullscreenClass c;
     timers := timers c;
     calls := calls c |}).

(** [shakaPlayerRef.current = player] ([true]) or [= null] ([false]). *)
Definition setShakaPlayerRef (v : bool) : M unit := update (fun c =>
  {| isPlaying := isPlaying c;
     isFullscreen := isFullscreen c;
     isLoading := isLoading c;
     showEpisodesPanel := showEpisodesPanel c;
     shakaPlayerRef := v;
     videoSrc := videoSrc c;
     containerFullscreenClass := containerFullscreenClass c;
     bodyFullscreenClass := bodyFullscreenClass c;
     timers := timers c;
     calls := calls c |}).

(** [video.src = videoUrl] *)
Definition assignVideoSrc (videoUrl : string) : M unit := update (fun c =>
  {| isPlaying := isPlaying c;
     isFullscreen := isFullscreen c;
     isLoading := isLoading c;
     showEpisodesPanel := showEpisodesPanel c;
     shakaPlayerRef := shakaPlayerRef c;
     videoSrc := Some videoUrl;
     containerFullscreenClass := containerFullscreenClass c;
     bodyFullscreenClass := bodyFullscreenClass c;
     timers := timers c;
     calls := calls c ++ [VideoSetSrc videoUrl] |}).

(** [container.classList] and [document.body.classList], both at once as
    the handler always changes them together. *)
Definition setFullscreenClasses (v : bool) : M unit := update (fun c =>
  {| isPlaying := isPlaying c;
     isFullscreen := isFullscreen c;
     isLoading := isLoading c;
     showEpisodesPanel := showEpisodesPanel c;
     shakaPlayerRef := shakaPlayerRef c;
     videoSrc := videoSrc c;
     containerFullscreenClass := v;
     bodyFullscreenClass := v;
     timers := timers c;
     calls := calls c |}).

(** [setTimeout(task, ms)] *)
Definition setTimeout (t : Task) (ms : nat) : M unit := update (fun c =>
  {| isPlaying := isPlaying c;
     isFullscreen := isFullscreen c;
     isLoading := isLoading c;
     showEpisodesPanel := showEpisodesPanel c;
     shakaPlayerRef := shakaPlayerRef c;
     videoSrc := videoSrc c;
     containerFullscreenClass := containerFullscreenClass c;
     bodyFullscreenClass := bodyFullscreenClass c;
     timers := timers c ++ [(ms, t)];
     calls := calls c ++ [SetTimeout ms] |}).

Definition get {A} (f : Cells -> A) : M A := fun c => (Normal (f c), c).

Local Open Scope player_scope.

(** [cleanupPlayer], run to its end: the call of [destroy] and, once that
    has settled, what follows the [await]. This is the run [initPlayer]
    makes, which awaits it. *)
Definition cleanupPlayer (env : Env) : M unit :=
  has <- get shakaPlayerRef ;;;
  if has then
    tryCatch (call env PlayerDestroy)
      (fun _ => act (ConsoleWarn "[MobilePlayer] Cleanup error:")) ;;;
    setShakaPlayerRef false
  else ret tt.

(** The fallback to the plain media element. *)
Definition nativeFallback (videoUrl : string) : M unit :=
  assignVideoSrc videoUrl ;;;
  act VideoLoad.

(** [initPlayer] *)
Definition initPlayer (env : Env) (videoUrl : string) (sourceType : SourceMode)
    (autoplay : bool) : M unit :=
  setIsLoading true ;;;
  match sourceType with
  | Mp4 => nativeFallback videoUrl
  | _ =>
      tryCatch
        (cleanupPlayer env ;;;
         call env PolyfillInstallAll ;;;
         if negb (isBrowserSupported env) then nativeFallback videoUrl
         else
           call env NewPlayer ;;;
           call env PlayerAttach ;;;
           setShakaPlayerRef true ;;;
           call env PlayerConfigure ;;;
           call env (PlayerLoad videoUrl) ;;;
           setIsLoading false ;;;
           if autoplay then
             tryCatch
               (call env VideoPlay ;;;
                setIsPlaying true)
               (fun _ => act (ConsoleLog "[MobilePlayer] Autoplay blocked"))
           else ret tt)
        (fun _ =>
           act (ConsoleError "[MobilePlayer] Shaka error:") ;;;
           nativeFallback videoUrl)
  end.

(** The effect "Initialize video", up to its cleanup function. *)
Definition initEffect (env : Env) (videoUrl : string) (sourceType : SourceMode)
    (autoplay : bool) : M unit :=
  if negb (videoPresent env) || String.eqb videoUrl "" then ret tt
  else initPlayer env videoUrl sourceType autoplay.

(** The callback given to [setTimeout] when leaving fullscreen. *)
Definition runTask (env : Env) (t : Task) : M unit :=
  match t with
  | UnlockLater => tryCatch (call env OrientationUnlock) (fun _ => ret tt)
  end.

(** [toggleFullscreen]; [isFullscreen] is the value of the render that
    created the callback, which is the named one. *)
Definition toggleFullscreen (env : Env) : M unit :=
  if negb (containerPresent env) then ret tt
  else
    tryCatch
      (full <- get isFullscreen ;;;
       if negb full then
         act (ConsoleLog "[MobilePlayer] Entering fullscreen") ;;;
         (if isNativePlatform env then
            tryCatch (call env (OrientationLock Landscape))
              (fun _ => act (ConsoleWarn "[MobilePlayer] Orientation lock failed:"))
          else ret tt) ;;;
         setFullscreenClasses true ;;;
         tryCatch
           (if hasRequestFullscreen env then call env RequestFullscreen
            else if hasWebkitRequestFullscreen env then call env WebkitRequestFullscreen
            else ret tt)
           (fun _ => act (ConsoleLog "[MobilePlayer] Web fullscreen not available")) ;;;
         setIsFullscreen true
       else
         act (ConsoleLog "[MobilePlayer] Exiting fullscreen") ;;;
         setFullscreenClasses false ;;;
         tryCatch
           (if fullscreenElement env then call env ExitFullscreen
            else if hasWebkitExitFullscreen env then call env WebkitExitFullscreen
            else ret tt)
           (fun _ => act (ConsoleLog "[MobilePlayer] Web fullscreen exit error")) ;;;
         (if isNativePlatform env then
            tryCatch
              (call env (OrientationLock Portrait) ;;;
               setTimeout UnlockLater 500)
              (fun _ => act (ConsoleWarn "[MobilePlayer] Orientation unlock failed:"))
          else ret tt) ;;;
         setIsFullscreen false)
      (fun _ => act (ConsoleError "[MobilePlayer] Fullscreen toggle error:")).

(** The handler the episodes panel gives to the drawer. The panel is
    rendered only when the [onEpisodeSelect] property of the mobile player
    is set and there are episodes; the router always sets that property, to
    its [handleEpisodeSelect]. *)
Definition panelEpisodeSelect (episodeId : string) : M unit :=
  act (ParentOnEpisodeSelect episodeId) ;;;
  setShowEpisodesPanel false.

End MobilePlayer.

(** ** The timers the mobile player sets *)

Module Timers.
Import MobilePlayer.
Local Open Scope player_scope.

(** The browser takes the timers set after the first [n] out of its table,
    as it does when their delay has passed. *)
Definition takeTimers (n : nat) : M (list (nat * Task)) := fun c =>
  (Normal (drop n (timers c)),
   {| isPlaying := isPlaying c;
      isFullscreen := isFullscreen c;
      isLoading := isLoading c;
      showEpisodesPanel := showEpisodesPanel c;
      shakaPlayerRef := shakaPlayerRef c;
      videoSrc := videoSrc c;
      containerFullscreenClass := containerFullscreenClass c;
      bodyFullscreenClass := bodyFullscreenClass c;
      timers := take n (timers c);
      calls := calls c |}).

(** The callbacks of the given timers, run one after the other; a callback
    that throws is reported by the browser, which ends the run here. *)
Fixpoint runTasks (env : Env) (ts : list (nat * Task)) : M unit :=
  match ts with
  | [] => ret tt
  | (_, t) :: rest => runTask env t ;;; runTasks env rest
  end.

(** [toggleFullscreen], followed by the callbacks of the timers it set, once
    their delay has passed. *)
Definition toggleThenTimers (env : Env) : M unit :=
  n <- get (fun c => length (timers c)) ;;;
  toggleFullscreen env ;;;
  ts <- takeTimers n ;;;
  runTasks env ts.

End Timers.

(** ** Object identity of the router's inputs

    The two list inputs of the router are JavaScript arrays of objects owned
    by the caller. To speak about mutation and copying, the arrays and their
    elements live in a heap; the component holds addresses. Its operations
    are written once more over that heap, statement by statement: they read
    through addresses, allocate, and set the component's cells. The store
    also has the assignment to an existing object, which is how a mutation
    of an input would be written. *)

Module Store.
Import NativeMobile Model.

Inductive Obj :=
| SourceObj (s : VideoSource)
| EpisodeObj (e : Episode)
| PlayerEpisodeObj (e : PlayerEpisode)
| ArrayObj (elems : list nat).

Abbreviation Heap := (gmap nat Obj).

(** The inputs as the component receives them: the addresses of the two
    arrays, and the remaining (scalar) properties. The two list fields of
    [scalars] are not used. *)
Record Inputs := {
  sourcesRef : nat;
  episodesRef : option nat;
  scalars : Props;
}.

Definition asSource (o : Obj) : option VideoSource :=
  match o with
  | SourceObj s => Some s
  | _ => None
  end.

Definition asEpisode (o : Obj) : option Episode :=
  match o with
  | EpisodeObj e => Some e
  | _ => None
  end.

Definition asPlayerEpisode (o : Obj) : option PlayerEpisode :=
  match o with
  | PlayerEpisodeObj e => Some e
  | _ => None
  end.

Definition asArray (o : Obj) : option (list nat) :=
  match o with
  | ArrayObj ls => Some ls
  | _ => None
  end.

Definition sourceAt (h : Heap) (l : nat) : option VideoSource := h !! l ≫= asSource.

Definition episodeAt (h : Heap) (l : nat) : option Episode := h !! l ≫= asEpisode.

Definition playerEpisodeAt (h : Heap) (l : nat) : option PlayerEpisode :=
  h !! l ≫= asPlayerEpisode.

(** The elements of the array at [a] (none if there is no array). *)
Definition elementsAt (h : Heap) (a : nat) : list nat :=
  default [] (h !! a ≫= asArray).

(** The arrays at [a] as lists of values. *)
Definition sourcesAt (h : Heap) (a : nat) : list VideoSource :=
  omap (sourceAt h) (elementsAt h a).

Definition episodesAt (h : Heap) (a : nat) : list Episode :=
  omap (episodeAt h) (elementsAt h a).

Definition playerEpisodesAt (h : Heap) (a : nat) : list PlayerEpisode :=
  omap (playerEpisodeAt h) (elementsAt h a).

(** The scalar properties [s] with the two lists in place. *)
Definition withLists (s : Props) (vs : list VideoSource) (eps : option (list Episode))
  : Props :=
  {| videoSources := vs;
     onEpisodeSelect := onEpisodeSelect s;
     episodes := eps;
     currentEpisodeId := currentEpisodeId s;
     contentBackdrop := contentBackdrop s;
     accessType := accessType s;
     excludeFromPlan := excludeFromPlan s;
     rentalPrice := rentalPrice s;
     rentalPeriodDays := rentalPeriodDays s;
     mediaId := mediaId s;
     mediaType := mediaType s;
     title := title s;
     movieId := movieId s;
     onMinimize := onMinimize s;
     trailerUrl := trailerUrl s;
     contentId := contentId s;
     onEnded := onEnded s;
     poster := poster s |}.

(** The properties as values: what the inputs hold in the heap [h]. *)
Definition view (h : Heap) (i : Inputs) : Props :=
  withLists (scalars i) (sourcesAt h (sourcesRef i)) (episodesAt h <$> episodesRef i).

(** Both inputs are arrays, and every element is an object of the right
    kind. *)
Definition wellFormed (h : Heap) (i : Inputs) : Prop :=
  (∃ ls, h !! sourcesRef i = Some (ArrayObj ls) ∧
         ∀ l, l ∈ ls → is_Some (sourceAt h l)) ∧
  (∀ a, episodesRef i = Some a →
        ∃ ls, h !! a = Some (ArrayObj ls) ∧
              ∀ l, l ∈ ls → is_Some (episodeAt h l)).

(** The memory the component works on: the heap and its own cells. *)
Record World := {
  heap : Heap;
  cells : Router.Cells;
}.

(** The monad of the component's code: it passes the world along. *)
Definition W (A : Type) : Type := World -> A * World.

Definition ret {A} (a : A) : W A := fun w => (a, w).

Definition bind {A B} (m : W A) (k : A -> W B) : W B := fun w =>
  let '(a, w1) := m w in k a w1.

Declare Scope store_scope.
Delimit Scope store_scope with store.
Notation "x <- m ;;; k" := (bind m (fun x => k))
  (at level 100, m at next level, k at level 200, right associativity) : store_scope.
Notation "m ;;; k" := (bind m (fun _ => k))
  (at level 100, k at level 200, right associativity) : store_scope.
Local Open Scope store_scope.

(** Reading the object at an address. *)
Definition load (l : nat) : W (option Obj) := fun w => (heap w !! l, w).

(** A new object (an object or array literal, or the result of [map]): it
    is put at an address not in use. *)
Definition new (o : Obj) : W nat := fun w =>
  let l := fresh (dom (heap w)) in
  (l, {| heap := <[l := o]> (heap w); cells := cells w |}).

(** An assignment to a property of the object at [l], or to an element of
    the array at [l]; [o] is the object with the assignment made. *)
Definition assign (l : nat) (o : Obj) : W unit := fun w =>
  (tt, {| heap := <[l := o]> (heap w); cells := cells w |}).

(** Reading the cells, and a call of a state setter or an assignment to a
    ref. *)
Definition getCells : W Router.Cells := fun w => (cells w, w).

Definition set (e : Router.Eff) : W unit := fun w =>
  (tt, {| heap := heap w; cells := e (cells w) |}).

(** The elements of the array at [a]. *)
Definition elements (a : nat) : W (list nat) :=
  o <- load a ;;;
  ret (default [] (o ≫= asArray)).

(** The objects at the addresses [ls], each read as [as_] says. *)
Fixpoint readEach {A} (as_ : Obj -> option A) (ls : list nat) : W (list A) :=
  match ls with
  | [] => ret []
  | l :: rest =>
      o <- load l ;;;
      xs <- readEach as_ rest ;;;
      ret (match o ≫= as_ with
           | Some x => x :: xs
           | None => xs
           end)
  end.

(** What the component reads of [videoSources] and of [episodes]. *)
Definition readSources (a : nat) : W (list VideoSource) :=
  ls <- elements a ;;;
  readEach asSource ls.

Definition readEpisodes (a : option nat) : W (option (list Episode)) :=
  match a with
  | Some a' =>
      ls <- elements a' ;;;
      eps <- readEach asEpisode ls ;;;
      ret (Some eps)
  | None => ret None
  end.

(** The callback of [episodes.map] builds one new object per element. *)
Fixpoint mapEpisodes (eps : list Episode) : W (list nat) :=
  match eps with
  | [] => ret []
  | e :: rest =>
      l <- new (PlayerEpisodeObj (toPlayerEpisode e)) ;;;
      ls <- mapEpisodes rest ;;;
      ret (l :: ls)
  end.

(** The [useMemo] that computes [playerEpisodes]: [episodes?.map(...) || []].
    Both [map] and the literal [[]] make a new array; its address is
    returned. *)
Definition memoEpisodes (i : Inputs) : W nat :=
  eps <- readEpisodes (episodesRef i) ;;;
  match eps with
  | Some es =>
      ls <- mapEpisodes es ;;;
      new (ArrayObj ls)
  | None => new (ArrayObj [])
  end.

(** [handleEpisodeSelect(episode)], with the id read from its argument; it
    returns the calls made into the parent. *)
Definition handleEpisodeSelect (i : Inputs) (episodeId : string)
  : W (list Router.ParentCall) :=
  if onEpisodeSelect (scalars i) then
    set (Router.setLastFetched None) ;;;
    set (Router.setMobileVideoUrl None) ;;;
    set (Router.setIsLoadingMobileUrl true) ;;;
    set (Router.setUseShakaFallback false) ;;;
    ret [Router.CallOnEpisodeSelect episodeId]
  else ret [].

(** The effect "Reset when episode changes". *)
Definition resetEffect (i : Inputs) : W unit :=
  c <- getCells ;;;
  if JS.strict_neq (Router.prevEpisodeIdRef c) (currentEpisodeId (scalars i)) then
    set (Router.setPrevEpisodeId (currentEpisodeId (scalars i))) ;;;
    set (Router.setLastFetched None) ;;;
    set (Router.setMobileVideoUrl None) ;;;
    set (Router.setIsLoadingMobileUrl true) ;;;
    set (Router.setUseShakaFallback false)
  else ret tt.

(** The effect "For native Android, get the video URL for mobile player";
    [r] holds the cells of the render that scheduled it. *)
Definition resolveEffect (f : Flags) (i : Inputs) (r : Router.Cells) : W unit :=
  if negb (isNative f) || negb (isAndroid f) then ret tt
  else
    vs <- readSources (sourcesRef i) ;;;
    match defaultSource vs with
    | None =>
        set (Router.setMobileVideoUrl None) ;;;
        set (Router.setIsLoadingMobileUrl false) ;;;
        set (Router.setUseShakaFallback false)
    | Some src =>
        let key := fetchKey (scalars i) src in
        c <- getCells ;;;
        if Router.alreadyFetched r c key then set (Router.setIsLoadingMobileUrl false)
        else
          set (Router.setIsLoadingMobileUrl true) ;;;
          let sourceType := sourceTypeOf src in
          if Router.isFrameSource sourceType then
            set (Router.setMobileVideoUrl None) ;;;
            set (Router.setUseShakaFallback true) ;;;
            set (Router.setIsLoadingMobileUrl false) ;;;
            set (Router.setLastFetched (Some key))
          else
            set (Router.setMobileSourceType (Router.selectMode sourceType)) ;;;
            (if JS.truthy (url src) then
               set (Router.setMobileVideoUrl (url src)) ;;;
               set (Router.setUseShakaFallback false) ;;;
               set (Router.setLastFetched (Some key))
             else
               match quality_urls src with
               | Some q =>
                   let firstUrl := firstQualityUrl q in
                   (if JS.truthy firstUrl then
                      set (Router.setMobileVideoUrl firstUrl) ;;;
                      set (Router.setUseShakaFallback false)
                    else
                      set (Router.setMobileVideoUrl None) ;;;
                      set (Router.setUseShakaFallback true)) ;;;
                   set (Router.setLastFetched (Some key))
               | None =>
                   set (Router.setMobileVideoUrl None) ;;;
                   set (Router.setUseShakaFallback true) ;;;
                   set (Router.setLastFetched (Some key))
               end) ;;;
            set (Router.setIsLoadingMobileUrl false)
    end.

(** A render: the body of the component reads the inputs and the cells and
    returns an element, described by the values of its properties. *)
Definition render (f : Flags) (i : Inputs) : W Rendered :=
  vs <- readSources (sourcesRef i) ;;;
  eps <- readEpisodes (episodesRef i) ;;;
  c <- getCells ;;;
  ret (Router.render f (withLists (scalars i) vs eps) c).

(** The operations of the component, each with its result dropped. *)
Inductive Op :=
| Render
| MemoEpisodes
| HandleEpisodeSelect (episodeId : string)
| ResetEffect
| ResolveEffect (r : Router.Cells).

Definition run (f : Flags) (i : Inputs) (op : Op) : W unit :=
  match op with
  | Render => render f i ;;; ret tt
  | MemoEpisodes => memoEpisodes i ;;; ret tt
  | HandleEpisodeSelect episodeId => handleEpisodeSelect i episodeId ;;; ret tt
  | ResetEffect => resetEffect i
  | ResolveEffect r => resolveEffect f i r
  end.

End Store.


(** ** Notions used to state the properties *)

Module Spec.
Import NativeMobile Model.

(** The cells the unnamed variant can be in: it starts at mount, and its
    handler and effects run with whatever properties the caller passes. *)
Inductive reachableV0 (f : Flags) : RouterV0.Cells -> Prop :=
| reachV0_mount p : reachableV0 f (RouterV0.mount p)
| reachV0_select p episodeId c :
    reachableV0 f c ->
    reachableV0 f (fst (RouterV0.handleEpisodeSelect p episodeId) c)
| reachV0_reset p c :
    reachableV0 f c -> reachableV0 f (RouterV0.resetEffect p c)
| reachV0_resolve p r c :
    reachableV0 f r -> reachableV0 f c ->
    reachableV0 f (RouterV0.resolveEffect f p r c).

(** The same for the named router. *)
Inductive reachable (f : Flags) : Router.Cells -> Prop :=
| reach_mount p : reachable f (Router.mount p)
| reach_select p episodeId c :
    reachable f c ->
    reachable f (fst (Router.handleEpisodeSelect p episodeId) c)
| reach_reset p c :
    reachable f c -> reachable f (Router.resetEffect p c)
| reach_resolve p r c :
    reachable f r -> reachable f c ->
    reachable f (Router.resolveEffect f p r c).

(** "The first source whose default flag is set, or the first element of
    the list when no source is marked default." *)
Definition isChosenSource (vs : list VideoSource) (src : VideoSource) : Prop :=
  (exists i, vs !! i = Some src /\ JS.truthy_bool (is_default src) = true /\
     forall j s, (j < i)%nat -> vs !! j = Some s -> JS.truthy_bool (is_default s) = false)
  \/ ((forall s, In s vs -> JS.truthy_bool (is_default s) = false) /\ head vs = Some src).

(** "If that source has a direct url it is used, otherwise the first value
    of its per-quality URL mapping": the URL a source offers, if any. An
    empty string is no URL. *)
Definition usableUrl (src : VideoSource) : option string :=
  if JS.truthy (url src) then url src
  else if JS.truthy (quality_urls src ≫= firstQualityUrl)
       then quality_urls src ≫= firstQualityUrl
       else None.

(** The URL the router resolves for a source: none for an iframe or embed
    source, else the URL the source offers. *)
Definition resolvedUrl (src : VideoSource) : option string :=
  if Router.isFrameSource (sourceTypeOf src) then None else usableUrl src.

(** "'hls', 'm3u8', and every unrecognized or missing value map the mobile
    player to HLS mode; 'dash' maps to DASH mode; 'mp4' maps to MP4 mode." *)
Definition claimedMode (sourceType : string) : SourceMode :=
  if String.eqb sourceType "dash" then Dash
  else if String.eqb sourceType "mp4" then Mp4
  else Hls.

(** The named router holds its web-player fallback for the fetch key of the
    default source of [p], so that its guard skips the run, while that
    source offers a URL the mobile player can use. This arises when the
    properties change under the same fetch key. *)
Definition staleFallback (f : Flags) (p : Props) (c : Router.Cells) : bool :=
  isNative f && isAndroid f &&
  match defaultSource (videoSources p) with
  | Some src =>
      Router.useShakafallback c
      && Router.alreadyFetched c (Router.resetEffect p c) (fetchKey p src)
      && JS.truthy (resolvedUrl src)
  | None => false
  end.

(** The two variants side by side: both mount with the same properties, and
    then go through the same episode selections and the same commits; no
    commit meets a stale fallback. *)
Inductive together (f : Flags) : RouterV0.Cells -> Router.Cells -> Prop :=
| together_mount p : together f (RouterV0.mount p) (Router.mount p)
| together_select p episodeId c0 c :
    together f c0 c ->
    together f (fst (RouterV0.handleEpisodeSelect p episodeId) c0)
      (fst (Router.handleEpisodeSelect p episodeId) c)
| together_commit p c0 c :
    together f c0 c ->
    staleFallback f p c = false ->
    together f (RouterV0.commit f p c0) (Router.commit f p c).

(** [post m c Q]: running [m] from the cells [c] ends in a completion and
    cells that satisfy [Q]. *)
Definition post {A} (m : MobilePlayer.M A) (c : MobilePlayer.Cells)
    (Q : MobilePlayer.Completion A -> MobilePlayer.Cells -> Prop) : Prop :=
  Q (fst (m c)) (snd (m c)).

(** The calls made between two states of the mobile player. *)
Definition newCalls (before after : MobilePlayer.Cells) : list MobilePlayer.Call :=
  drop (length (MobilePlayer.calls before)) (MobilePlayer.calls after).

(** A call into the parent component. *)
Definition isParentCall (k : MobilePlayer.Call) : bool :=
  match k with
  | MobilePlayer.ParentOnEpisodeSelect _ => true
  | _ => false
  end.

(** Console output. *)
Definition isConsole (k : MobilePlayer.Call) : bool :=
  match k with
  | MobilePlayer.ConsoleLog _ | MobilePlayer.ConsoleWarn _
  | MobilePlayer.ConsoleError _ => true
  | _ => false
  end.

(** The fullscreen calls and the orientation calls of the fullscreen
    toggle: [ScreenOrientation.lock] and [ScreenOrientation.unlock],
    [requestFullscreen] and [exitFullscreen] with their webkit forms. *)
Definition isScreenCall (k : MobilePlayer.Call) : bool :=
  match k with
  | MobilePlayer.OrientationLock _ | MobilePlayer.OrientationUnlock
  | MobilePlayer.RequestFullscreen | MobilePlayer.WebkitRequestFullscreen
  | MobilePlayer.ExitFullscreen | MobilePlayer.WebkitExitFullscreen => true
  | _ => false
  end.

(** The call the toggle defers through [setTimeout]. *)
Definition isUnlock (k : MobilePlayer.Call) : bool :=
  match k with
  | MobilePlayer.OrientationUnlock => true
  | _ => false
  end.

(** The screen calls the toggle makes itself: all but the deferred one. *)
Definition isImmediateScreenCall (k : MobilePlayer.Call) : bool :=
  isScreenCall k && negb (isUnlock k).

(** Every rejected call of the trace that is among [which] is directly
    followed by console output. *)
Fixpoint rejectionsLogged (env : MobilePlayer.Env) (which : MobilePlayer.Call -> bool)
    (tr : list MobilePlayer.Call) : bool :=
  match tr with
  | [] => true
  | k :: rest =>
      (if which k && MobilePlayer.rejects env k
       then match rest with
            | k' :: _ => isConsole k'
            | [] => false
            end
       else true)
      && rejectionsLogged env which rest
  end.

(** A load attempt of the streaming player, and a load of the media element. *)
Definition isPlayerLoad (k : MobilePlayer.Call) : bool :=
  match k with
  | MobilePlayer.PlayerLoad _ => true
  | _ => false
  end.

Definition isVideoLoad (k : MobilePlayer.Call) : bool :=
  match k with
  | MobilePlayer.VideoLoad => true
  | _ => false
  end.

End Spec.

(** ** The router together with the mobile player it renders *)

Module System.
Import Model.

Record State := {
  router : Router.Cells;
  player : MobilePlayer.Cells;
}.

(** The only way from the mobile player back into the router is the
    [onEpisodeSelect] property, which the router binds to its
    [handleEpisodeSelect]. *)
Definition deliver (p : Props) (c : Router.Cells) (k : MobilePlayer.Call) : Router.Cells :=
  match k with
  | MobilePlayer.ParentOnEpisodeSelect episodeId =>
      fst (Router.handleEpisodeSelect p episodeId) c
  | _ => c
  end.

(** A handler of the mobile player runs; the router receives the callbacks
    it made. *)
Definition runPlayer {A} (p : Props) (m : MobilePlayer.M A) (s : State) : State :=
  let after := snd (m (player s)) in
  {| router := foldl (deliver p) (router s) (Spec.newCalls (player s) after);
     player := after |}.

(** The "Initialize video" effect of the mobile player the router rendered;
    nothing runs when the router rendered something else. *)
Definition initMobile (env : MobilePlayer.Env) (f : NativeMobile.Flags) (p : Props)
    (s : State) : State :=
  match Router.render f p (router s) with
  | MobileVideoPlayer mp =>
      runPlayer p
        (MobilePlayer.initEffect env (m_videoUrl mp) (m_sourceType mp) (m_autoplay mp)) s
  | _ => s
  end.

End System.

(** ** Concrete inputs *)

Module Examples.
Import Model.

Definition webBridge : Capacitor.Bridge :=
  {| Capacitor.isNativePlatform := false; Capacitor.getPlatform := "web" |}.

Definition iosBridge : Capacitor.Bridge :=
  {| Capacitor.isNativePlatform := true; Capacitor.getPlatform := "ios" |}.

Definition androidBridge : Capacitor.Bridge :=
  {| Capacitor.isNativePlatform := true; Capacitor.getPlatform := "android" |}.

Definition android : NativeMobile.Flags := NativeMobile.useNativeMobile androidBridge.

(** An HLS stream with a direct URL, marked default. *)
Definition hlsSource : VideoSource :=
  {| vs_id := "s1";
     url := Some "https://cdn.example/ep1/master.m3u8";
     quality_urls := None;
     source_type := Some "HLS";
     is_default := Some true |}.

(** An embedded page that also carries a URL. *)
Definition iframeSource : VideoSource :=
  {| vs_id := "s2";
     url := Some "https://embed.example/v/42";
     quality_urls := None;
     source_type := Some "iframe";
     is_default := Some true |}.

(** A DASH stream reachable only through its per-quality URLs. *)
Definition dashSource : VideoSource :=
  {| vs_id := "s3";
     url := None;
     quality_urls := Some [("720p", "https://cdn.example/ep1/720.mpd");
                           ("1080p", "https://cdn.example/ep1/1080.mpd")];
     source_type := Some "Dash";
     is_default := None |}.

Definition episode1 : Episode :=
  {| ep_id := "e1";
     episode_number := Some 1%Z;
     ep_title := None;
     ep_name := Some "Pilot";
     still_path := Some "/stills/e1.jpg";
     thumbnail_url := None;
     access := Some Free |}.

Definition propsWith (vs : list VideoSource) : Props :=
  {| videoSources := vs;
     onEpisodeSelect := true;
     episodes := Some [episode1];
     currentEpisodeId := Some "e1";
     contentBackdrop := None;
     accessType := None;
     excludeFromPlan := None;
     rentalPrice := None;
     rentalPeriodDays := None;
     mediaId := None;
     mediaType := Some Series;
     title := Some "Show";
     movieId := None;
     onMinimize := false;
     trailerUrl := None;
     contentId := None;
     onEnded := false;
     poster := None |}.

(** Cells in which a URL is held while the loading flag is set. *)
Definition loadingWithUrl : Router.Cells :=
  {| Router.mobileVideoUrl := Some "https://cdn.example/ep1/master.m3u8";
     Router.mobileSourceType := Hls;
     Router.isLoadingMobileUrl := true;
     Router.useShakafallback := false;
     Router.lastFetchedRef := None;
     Router.prevEpisodeIdRef := Some "e1" |}.

(** Cells right after an episode was selected: nothing resolved yet. *)
Definition pending : Router.Cells :=
  {| Router.mobileVideoUrl := None;
     Router.mobileSourceType := Hls;
     Router.isLoadingMobileUrl := true;
     Router.useShakafallback := false;
     Router.lastFetchedRef := None;
     Router.prevEpisodeIdRef := Some "e1" |}.

(** An environment in which every call succeeds. *)
Definition calmEnv : MobilePlayer.Env :=
  {| MobilePlayer.videoPresent := true;
     MobilePlayer.containerPresent := true;
     MobilePlayer.isNativePlatform := true;
     MobilePlayer.isBrowserSupported := true;
     MobilePlayer.hasRequestFullscreen := true;
     MobilePlayer.hasWebkitRequestFullscreen := false;
     MobilePlayer.fullscreenElement := true;
     MobilePlayer.hasWebkitExitFullscreen := false;
     MobilePlayer.destroyRejects := false;
     MobilePlayer.installAllThrows := false;
     MobilePlayer.newPlayerThrows := false;
     MobilePlayer.attachRejects := false;
     MobilePlayer.configureThrows := false;
     MobilePlayer.loadRejects := false;
     MobilePlayer.playRejects := false;
     MobilePlayer.lockLandscapeRejects := false;
     MobilePlayer.lockPortraitRejects := false;
     MobilePlayer.unlockRejects := false;
     MobilePlayer.requestFullscreenRejects := false;
     MobilePlayer.exitFullscreenRejects := false |}.

(** An environment in which the stream fails to load and every screen call
    is rejected. *)
Definition hostileEnv : MobilePlayer.Env :=
  {| MobilePlayer.videoPresent := true;
     MobilePlayer.containerPresent := true;
     MobilePlayer.isNativePlatform := true;
     MobilePlayer.isBrowserSupported := true;
     MobilePlayer.hasRequestFullscreen := true;
     MobilePlayer.hasWebkitRequestFullscreen := false;
     MobilePlayer.fullscreenElement := true;
     MobilePlayer.hasWebkitExitFullscreen := false;
     MobilePlayer.destroyRejects := false;
     MobilePlayer.installAllThrows := false;
     MobilePlayer.newPlayerThrows := false;
     MobilePlayer.attachRejects := false;
     MobilePlayer.configureThrows := false;
     MobilePlayer.loadRejects := true;
     MobilePlayer.playRejects := false;
     MobilePlayer.lockLandscapeRejects := true;
     MobilePlayer.lockPortraitRejects := true;
     MobilePlayer.unlockRejects := true;
     MobilePlayer.requestFullscreenRejects := true;
     MobilePlayer.exitFullscreenRejects := true |}.

(** A heap holding one video source, one episode and the two arrays that
    list them, and the inputs that refer to the arrays. *)
Definition heap0 : gmap nat Store.Obj :=
  <[0%nat := Store.SourceObj hlsSource]>
    (<[1%nat := Store.EpisodeObj episode1]>
       (<[2%nat := Store.ArrayObj [0%nat]]>
          (<[3%nat := Store.ArrayObj [1%nat]]> ∅))).

Definition inputs0 : Store.Inputs :=
  {| Store.sourcesRef := 2%nat;
     Store.episodesRef := Some 3%nat;
     Store.scalars := propsWith [] |}.

Definition world0 : Store.World :=
  {| Store.heap := heap0;
     Store.cells := Router.mount (Store.view heap0 inputs0) |}.

(** The properties of a rendered mobile player (of the empty element
    otherwise). *)
Definition mobileElementOf (r : Rendered) : MobileProps :=
  match r with
  | MobileVideoPlayer mp => mp
  | _ =>
      {| m_key := ""; m_videoUrl := ""; m_poster := None; m_autoplay := false;
         m_onBack := false; m_title := None; m_sourceType := Hls; m_episodes := [];
         m_currentEpisodeId := None; m_seriesBackdrop := None |}
  end.

(** The router settled on the mobile player for an HLS stream, and the
    mobile player just mounted. *)
Definition mobilePath : System.State :=
  {| System.router := Router.settle android (propsWith [hlsSource]);
     System.player := MobilePlayer.mount |}.

End Examples.

(** ** The rest of src/components/player/MobileVideoPlayer.tsx *)

(** *** The control overlay and its auto-hide timer *)

Module Controls.

(** A pending timer of the component: its id, its delay, and the value of
    [isPlaying] its callback closed over. *)
Record Timer := {
  timerId : nat;
  delay : nat;
  playingAtReset : bool;
}.

(** The cell [showControls], the ref [controlsTimeoutRef], and the part of
    the browser's timer table the component created: the pending timers and
    the next id [setTimeout] hands out (ids are positive and never reused). *)
Record Cells := {
  showControls : bool;
  controlsTimeoutRef : option nat;
  pending : list Timer;
  nextTimerId : nat;
}.

(** The cells at mount; [n] is how many timers the page has set before. *)
Definition mount (n : nat) : Cells :=
  {| showControls := true;
     controlsTimeoutRef := None;
     pending := [];
     nextTimerId := S n |}.

(** [clearTimeout(id)]: the timer is removed if it is pending. *)
Definition clearTimeout (id : nat) (c : Cells) : Cells :=
  {| showControls := showControls c;
     controlsTimeoutRef := controlsTimeoutRef c;
     pending := List.filter (fun t => negb (timerId t =? id)%nat) (pending c);
     nextTimerId := nextTimerId c |}.

Definition setShowControls (v : bool) (c : Cells) : Cells :=
  {| showControls := v;
     controlsTimeoutRef := controlsTimeoutRef c;
     pending := pending c;
     nextTimerId := nextTimerId c |}.

(** [controlsTimeoutRef.current = setTimeout(callback, ms)], where the
    callback closed over [isPlaying]. *)
Definition armTimeout (isPlaying : bool) (ms : nat) (c : Cells) : Cells :=
  {| showControls := showControls c;
     controlsTimeoutRef := Some (nextTimerId c);
     pending := pending c ++ [{| timerId := nextTimerId c;
                                 delay := ms;
                                 playingAtReset := isPlaying |}];
     nextTimerId := S (nextTimerId c) |}.

(** [resetControlsTimeout], as created by the render in which [isPlaying]
    had the given value. The test of the ref is a truthiness test: a null
    ref and the number 0 are falsy. *)
Definition resetControlsTimeout (isPlaying : bool) (c : Cells) : Cells :=
  let c1 :=
    match controlsTimeoutRef c with
    | Some id => if negb (id =? 0)%nat then clearTimeout id c else c
    | None => c
    end in
  armTimeout isPlaying 3000 (setShowControls true c1).

(** The browser runs the callback of the pending timer [id]: the timer
    leaves the table and the callback hides the controls if [isPlaying]
    held when it was created. An id that is not pending runs nothing. *)
Definition fire (id : nat) (c : Cells) : Cells :=
  match List.find (fun t => (timerId t =? id)%nat) (pending c) with
  | Some t =>
      let c1 := clearTimeout id c in
      if playingAtReset t then setShowControls false c1 else c1
  | None => c
  end.

(** The cells the component can be in: it mounts, the user interacts (every
    interaction calls [resetControlsTimeout]) and timers run. *)
Inductive reachable : Cells -> Prop :=
| reach_mount n : reachable (mount n)
| reach_reset isPlaying c : reachable c -> reachable (resetControlsTimeout isPlaying c)
| reach_fire id c : reachable c -> reachable (fire id c).

End Controls.

(** *** The listeners on the media element and the body class *)

Module Playback.
Section Numbers.

(** The type of the numbers the media element reports (seconds). They are
    only copied, so the type is left open. *)
Variable T : Type.

(** The events the component listens to, each with what its handler reads
    from the media element when it runs. *)
Inductive Event :=
| TimeUpdate (currentTime : T)
| DurationChange (duration : T)
| Play
| Pause
| Waiting
| CanPlay
| Progress (buffered : list (T * T)).

(** The cells [currentTime], [duration] and [buffered], beside the cells
    of [MobilePlayer]. *)
Record Cells := {
  player : MobilePlayer.Cells;
  currentTime : T;
  duration : T;
  buffered : T;
}.

Definition onPlayer (m : MobilePlayer.M unit) (c : Cells) : Cells :=
  {| player := snd (m (player c));
     currentTime := currentTime c;
     duration := duration c;
     buffered := buffered c |}.

(** The handler registered for each event. [Progress] reads the end of the
    last buffered range, if there is any range. *)
Definition handle (e : Event) (c : Cells) : Cells :=
  match e with
  | TimeUpdate t =>
      {| player := player c; currentTime := t;
         duration := duration c; buffered := buffered c |}
  | DurationChange d =>
      {| player := player c; currentTime := currentTime c;
         duration := d; buffered := buffered c |}
  | Play => onPlayer (MobilePlayer.setIsPlaying true) c
  | Pause => onPlayer (MobilePlayer.setIsPlaying false) c
  | Waiting => onPlayer (MobilePlayer.setIsLoading true) c
  | CanPlay => onPlayer (MobilePlayer.setIsLoading false) c
  | Progress ranges =>
      match last ranges with
      | Some (_, e) =>
          {| player := player c; currentTime := currentTime c;
             duration := duration c; buffered := e |}
      | None => c
      end
  end.

(** The events of a run, handled in order. *)
Definition dispatch (es : list Event) (c : Cells) : Cells :=
  foldl (fun c e => handle e c) c es.

(** What an event says about playing, about loading and about the buffer. *)
Definition playFlag (e : Event) : option bool :=
  match e with
  | Play => Some true
  | Pause => Some false
  | _ => None
  end.

Definition loadFlag (e : Event) : option bool :=
  match e with
  | Waiting => Some true
  | CanPlay => Some false
  | _ => None
  end.

Definition bufferEnd (e : Event) : option T :=
  match e with
  | Progress ranges => snd <$> last ranges
  | _ => None
  end.

End Numbers.

Arguments TimeUpdate {T} currentTime.
Arguments DurationChange {T} duration.
Arguments Play {T}.
Arguments Pause {T}.
Arguments Waiting {T}.
Arguments CanPlay {T}.
Arguments Progress {T} buffered.
Arguments player {T} c.
Arguments currentTime {T} c.
Arguments duration {T} c.
Arguments buffered {T} c.
Arguments handle {T} e c.
Arguments dispatch {T} es c.
Arguments playFlag {T} e.
Arguments loadFlag {T} e.
Arguments bufferEnd {T} e.

(** The effect "Add body class when fullscreen": the class follows the cell
    [isFullscreen]; its cleanup removes the class. *)
Definition setBodyClass (v : bool) : MobilePlayer.M unit :=
  MobilePlayer.update (fun c =>
    {| MobilePlayer.isPlaying := MobilePlayer.isPlaying c;
       MobilePlayer.isFullscreen := MobilePlayer.isFullscreen c;
       MobilePlayer.isLoading := MobilePlayer.isLoading c;
       MobilePlayer.showEpisodesPanel := MobilePlayer.showEpisodesPanel c;
       MobilePlayer.shakaPlayerRef := MobilePlayer.shakaPlayerRef c;
       MobilePlayer.videoSrc := MobilePlayer.videoSrc c;
       MobilePlayer.containerFullscreenClass := MobilePlayer.containerFullscreenClass c;
       MobilePlayer.bodyFullscreenClass := v;
       MobilePlayer.timers := MobilePlayer.timers c;
       MobilePlayer.calls := MobilePlayer.calls c |}).

Definition bodyClassEffect : MobilePlayer.M unit :=
  MobilePlayer.bind (MobilePlayer.get MobilePlayer.isFullscreen) (fun full =>
    if full then setBodyClass true else setBodyClass false).

Definition bodyClassCleanup : MobilePlayer.M unit := setBodyClass false.

End Playback.

(** ** Further notions used to state properties *)

Module MoreSpec.

(** A call into the screen-orientation plugin. *)
Definition isOrientationCall (k : MobilePlayer.Call) : bool :=
  match k with
  | MobilePlayer.OrientationLock _ | MobilePlayer.OrientationUnlock => true
  | _ => false
  end.

(** What a media event says about the current time and about the
    duration. *)
Definition timeOf {T} (e : Playback.Event T) : option T :=
  match e with
  | Playback.TimeUpdate t => Some t
  | _ => None
  end.

Definition durationOf {T} (e : Playback.Event T) : option T :=
  match e with
  | Playback.DurationChange d => Some d
  | _ => None
  end.

(** A call into the streaming library. *)
Definition isStreamingCall (k : MobilePlayer.Call) : bool :=
  match k with
  | MobilePlayer.PlayerDestroy | MobilePlayer.PolyfillInstallAll
  | MobilePlayer.NewPlayer | MobilePlayer.PlayerAttach
  | MobilePlayer.PlayerConfigure | MobilePlayer.PlayerLoad _ => true
  | _ => false
  end.

End MoreSpec.

(** ** Further concrete inputs *)

Module MoreExamples.
Import Model.

(** The HLS source of [Examples] after the catalogue moved its stream: the
    same id, another URL and another type. *)
Definition hlsSourceMoved : VideoSource :=
  {| vs_id := "s1";
     url := Some "https://cdn2.example/ep1/index.mpd";
     quality_urls := None;
     source_type := Some "dash";
     is_default := Some true |}.

(** The HLS source of [Examples] re-typed as an embedded page: the same id
    and the same URL. *)
Definition hlsSourceFramed : VideoSource :=
  {| vs_id := "s1";
     url := Some "https://cdn.example/ep1/master.m3u8";
     quality_urls := None;
     source_type := Some "iframe";
     is_default := Some true |}.

(** The embedded page of [Examples] re-typed as an HLS stream: the same id
    and the same URL. *)
Definition iframeSourceRetyped : VideoSource :=
  {| vs_id := "s2";
     url := Some "https://embed.example/v/42";
     quality_urls := None;
     source_type := Some "hls";
     is_default := Some true |}.

Definition episode2 : Episode :=
  {| ep_id := "e2";
     episode_number := None;
     ep_title := Some "Second";
     ep_name := None;
     still_path := None;
     thumbnail_url := Some "/thumbs/e2.jpg";
     access := Some Vip |}.

(** The properties of [Examples.propsWith] for episode [e2] of a series with
    two episodes. *)
Definition propsEpisode2 (vs : list VideoSource) : Props :=
  {| videoSources := vs;
     onEpisodeSelect := true;
     episodes := Some [Examples.episode1; episode2];
     currentEpisodeId := Some "e2";
     contentBackdrop := None;
     accessType := None;
     excludeFromPlan := None;
     rentalPrice := None;
     rentalPeriodDays := None;
     mediaId := None;
     mediaType := Some Series;
     title := Some "Show";
     movieId := None;
     onMinimize := false;
     trailerUrl := None;
     contentId := None;
     onEnded := false;
     poster := None |}.

(** An environment in which only [ScreenOrientation.unlock] is rejected. *)
Definition unlockFailsEnv : MobilePlayer.Env :=
  {| MobilePlayer.videoPresent := true;
     MobilePlayer.containerPresent := true;
     MobilePlayer.isNativePlatform := true;
     MobilePlayer.isBrowserSupported := true;
     MobilePlayer.hasRequestFullscreen := true;
     MobilePlayer.hasWebkitRequestFullscreen := false;
     MobilePlayer.fullscreenElement := true;
     MobilePlayer.hasWebkitExitFullscreen := false;
     MobilePlayer.destroyRejects := false;
     MobilePlayer.installAllThrows := false;
     MobilePlayer.newPlayerThrows := false;
     MobilePlayer.attachRejects := false;
     MobilePlayer.configureThrows := false;
     MobilePlayer.loadRejects := false;
     MobilePlayer.playRejects := false;
     MobilePlayer.lockLandscapeRejects := false;
     MobilePlayer.lockPortraitRejects := false;
     MobilePlayer.unlockRejects := true;
     MobilePlayer.requestFullscreenRejects := false;
     MobilePlayer.exitFullscreenRejects := false |}.

(** The mobile player in fullscreen, holding a streaming player. *)
Definition inFullscreen : MobilePlayer.Cells :=
  {| MobilePlayer.isPlaying := true;
     MobilePlayer.isFullscreen := true;
     MobilePlayer.isLoading := false;
     MobilePlayer.showEpisodesPanel := true;
     MobilePlayer.shakaPlayerRef := true;
     MobilePlayer.videoSrc := None;
     MobilePlayer.containerFullscreenClass := true;
     MobilePlayer.bodyFullscreenClass := true;
     MobilePlayer.timers := [];
     MobilePlayer.calls := [] |}.

End MoreExamples.

(** * Properties *)

Import Capacitor NativeMobile Model.

Local Open Scope list_scope.

(** ** Platform detection *)

Lemma eqb_android_ios s :
  String.eqb s "android" && String.eqb s "ios" = false.
Proof.
  destruct (String.eqb_spec s "android") as [-> | _]; [reflexivity | ].
  reflexivity.
Qed.

Lemma static_helpers_agree cap :
  isAndroidNative cap = isAndroid (useNativeMobile cap) /\
  isIOSNative cap = isIOS (useNativeMobile cap).
Proof. split; reflexivity. Qed.

(** C9: for every state of the platform bridge, [isAndroid] and [isIOS]
    each imply [isNative]; they are never both true; [isWeb] holds exactly
    when the runtime is not native or the platform string is 'web'; and
    [getNativePlatform] returns one of 'android', 'ios', 'web', and 'web'
    whenever the runtime is not native. *)
Theorem C9_platform_predicates (cap : Bridge) :
  (isAndroid (useNativeMobile cap) = true -> isNative (useNativeMobile cap) = true) /\
  (isIOS (useNativeMobile cap) = true -> isNative (useNativeMobile cap) = true) /\
  ~ (isAndroid (useNativeMobile cap) = true /\ isIOS (useNativeMobile cap) = true) /\
  (isWeb (useNativeMobile cap) = true <->
     isNativePlatform cap = false \/ getPlatform cap = "web") /\
  (getNativePlatform cap = "android" \/ getNativePlatform cap = "ios"
     \/ getNativePlatform cap = "web") /\
  (isNativePlatform cap = false -> getNativePlatform cap = "web").
Proof.
  destruct cap as [native plat]; cbn.
  repeat split.
  - intros H. apply andb_prop in H. tauto.
  - intros H. apply andb_prop in H. tauto.
  - intros [Ha Hi].
    apply andb_prop in Ha as [_ Ha]. apply andb_prop in Hi as [_ Hi].
    pose proof (eqb_android_ios plat) as E.
    rewrite Ha, Hi in E. discriminate.
  - intros H. apply orb_prop in H as [H | H].
    + left. now destruct native.
    + right. now apply String.eqb_eq.
  - intros [-> | ->]; [reflexivity | ].
    now rewrite String.eqb_refl, orb_true_r.
  - unfold getNativePlatform; cbn.
    destruct native; cbn; [ | tauto].
    destruct (String.eqb plat "android"); [tauto | ].
    destruct (String.eqb plat "ios"); tauto.
  - intros ->. reflexivity.
Qed.

(** ** The router's choice of player *)

Lemma android_flags cap :
  isNative (useNativeMobile cap) && isAndroid (useNativeMobile cap) = true <->
  isNativePlatform cap = true /\ getPlatform cap = "android".
Proof.
  destruct cap as [native plat]; cbn. split.
  - intros H. apply andb_prop in H as [Hn H].
    apply andb_prop in H as [_ H]. split; [assumption | now apply String.eqb_eq].
  - intros [-> ->]. reflexivity.
Qed.

Lemma render_off_android f p c :
  isNative f && isAndroid f = false ->
  Router.render f p c = Router.shakaElement p.
Proof. intros H. unfold Router.render. now rewrite H. Qed.

Lemma renderV0_off_android f p c :
  isNative f && isAndroid f = false ->
  RouterV0.render f p c = RouterV0.shakaElement p.
Proof. intros H. unfold RouterV0.render. now rewrite H. Qed.

(** C1: the router returns the mobile player only when the bridge reports a
    native platform whose platform string is 'android'; on web and on
    native iOS it returns the web player, whatever its cells hold. *)
Theorem C1_mobile_player_only_on_android (cap : Bridge) (p : Props) (c : Router.Cells) :
  (outcome (Router.render (useNativeMobile cap) p c) = OMobile ->
     isNativePlatform cap = true /\ getPlatform cap = "android") /\
  (isWeb (useNativeMobile cap) = true \/ isIOS (useNativeMobile cap) = true ->
     Router.render (useNativeMobile cap) p c = Router.shakaElement p).
Proof.
  split.
  - intros H. apply android_flags.
    destruct (isNative (useNativeMobile cap) && isAndroid (useNativeMobile cap)) eqn:E;
      [reflexivity | ].
    rewrite (render_off_android _ _ _ E) in H. discriminate.
  - intros H. apply render_off_android.
    destruct cap as [native plat]; cbn in *.
    destruct native; cbn in *; [ | reflexivity].
    destruct H as [H | H].
    + apply String.eqb_eq in H. now subst.
    + apply String.eqb_eq in H. now subst.
Qed.

Lemma C1_witness :
  Router.render (useNativeMobile Examples.iosBridge)
    (Examples.propsWith [Examples.hlsSource]) Examples.loadingWithUrl
  = Router.shakaElement (Examples.propsWith [Examples.hlsSource]).
Proof.
  apply (proj2 (C1_mobile_player_only_on_android Examples.iosBridge
                  (Examples.propsWith [Examples.hlsSource]) Examples.loadingWithUrl)).
  right. reflexivity.
Defined.

(** The unnamed variant tests the URL before the loading flag, so it shows
    the spinner only when no URL is held. *)
Lemma spinner_V0 f p c :
  isNative f && isAndroid f = true ->
  RouterV0.isLoadingMobileUrl c = true ->
  JS.truthy (RouterV0.mobileVideoUrl c) = false ->
  RouterV0.render f p c = LoadingSpinner.
Proof.
  intros Ha Hl Hu. unfold RouterV0.render. now rewrite Ha, Hl, Hu.
Qed.

Lemma resolveV0_clears_loading f p r c :
  isNative f && isAndroid f = true ->
  RouterV0.isLoadingMobileUrl (RouterV0.resolveEffect f p r c) = false.
Proof.
  intros Ha. apply andb_prop in Ha as [Hn Ha].
  unfold RouterV0.resolveEffect, RouterV0.resolveUrl, RouterV0.seq.
  rewrite Hn, Ha; cbn.
  repeat case_match; reflexivity.
Qed.

(** In the unnamed variant a set loading flag means that no URL is held, in
    every state the component can reach. *)
Lemma reachableV0_loading_no_url f c :
  Spec.reachableV0 f c ->
  RouterV0.isLoadingMobileUrl c = true ->
  JS.truthy (RouterV0.mobileVideoUrl c) = false.
Proof.
  induction 1 as [p | p episodeId c _ IH | p c _ IH | p r c _ _ _ IH]; intros Hl.
  - discriminate Hl.
  - unfold RouterV0.handleEpisodeSelect in *.
    destruct (onEpisodeSelect p); cbn in *; [reflexivity | now apply IH].
  - unfold RouterV0.resetEffect in *.
    destruct (JS.strict_neq _ _); cbn in *; [reflexivity | now apply IH].
  - destruct (isNative f && isAndroid f) eqn:Ha.
    + now rewrite resolveV0_clears_loading in Hl.
    + unfold RouterV0.resolveEffect in *.
      destruct (isNative f), (isAndroid f); try discriminate Ha; cbn in *;
        now apply IH.
Qed.

Lemma spinner_while_resolving_V0 f p c :
  Spec.reachableV0 f c ->
  isNative f && isAndroid f = true ->
  RouterV0.isLoadingMobileUrl c = true ->
  RouterV0.render f p c = LoadingSpinner.
Proof.
  intros Hr Ha Hl. apply spinner_V0; [assumption .. | ].
  now apply (reachableV0_loading_no_url f).
Qed.

(** C8: on native Android, while the loading flag is set and the fallback to
    the web player has not been selected, the router renders the loading
    spinner, hence neither player. The unnamed variant, which has no
    fallback flag and tests the URL first, does the same in every state it
    can reach. *)
Theorem C8_spinner_while_resolving (cap : Bridge) (p : Props) :
  isNativePlatform cap = true ->
  getPlatform cap = "android" ->
  (forall c,
     Router.isLoadingMobileUrl c = true ->
     Router.useShakafallback c = false ->
     Router.render (useNativeMobile cap) p c = LoadingSpinner) /\
  (forall c0,
     Spec.reachableV0 (useNativeMobile cap) c0 ->
     RouterV0.isLoadingMobileUrl c0 = true ->
     RouterV0.render (useNativeMobile cap) p c0 = LoadingSpinner).
Proof.
  intros Hn Hp.
  pose proof (proj2 (android_flags cap) (conj Hn Hp)) as Ha.
  split.
  - intros c Hl Hf. unfold Router.render. now rewrite Ha, Hf, Hl.
  - intros c0 Hr Hl. now apply spinner_while_resolving_V0.
Qed.

Lemma C8_witness :
  Router.render (useNativeMobile Examples.androidBridge)
    (Examples.propsWith [Examples.hlsSource]) Examples.pending = LoadingSpinner.
Proof.
  exact (proj1 (C8_spinner_while_resolving Examples.androidBridge
                  (Examples.propsWith [Examples.hlsSource]) eq_refl eq_refl)
           Examples.pending eq_refl eq_refl).
Defined.

(** In the unnamed variant, too, the mobile player needs native Android. *)
Lemma mobile_player_only_on_android_V0 cap p c :
  outcome (RouterV0.render (useNativeMobile cap) p c) = OMobile ->
  isNativePlatform cap = true /\ getPlatform cap = "android".
Proof.
  intros H. apply android_flags.
  destruct (isNative (useNativeMobile cap) && isAndroid (useNativeMobile cap)) eqn:E;
    [reflexivity | ].
  rewrite (renderV0_off_android _ _ _ E) in H. discriminate.
Qed.

(** ** The two variants of the router *)

(** What holds of the named router's cells in every state it can reach:
    a set loading flag means no URL and no fallback, and a selected
    fallback means no URL. *)
Lemma reachable_invariant f c :
  Spec.reachable f c ->
  (Router.isLoadingMobileUrl c = true ->
     JS.truthy (Router.mobileVideoUrl c) = false /\ Router.useShakafallback c = false) /\
  (Router.useShakafallback c = true -> JS.truthy (Router.mobileVideoUrl c) = false).
Proof.
  induction 1 as [p | p episodeId c _ IH | p c _ IH | p r c _ _ _ IH].
  - cbn. split; [discriminate | discriminate].
  - unfold Router.handleEpisodeSelect.
    destruct (onEpisodeSelect p); cbn; [ | exact IH].
    split; [tauto | discriminate].
  - unfold Router.resetEffect.
    destruct (JS.strict_neq _ _); cbn; [ | exact IH].
    split; [tauto | discriminate].
  - destruct IH as [IH1 IH2].
    unfold Router.resolveEffect, Router.resolveUrl, Router.seq.
    repeat case_match; cbn; (split; [ try discriminate | try discriminate ]);
      try tauto; try (intros _; assumption).
Qed.

(** The outcome of each variant as a function of the flags it tests. *)
Lemma outcome_render f p c :
  outcome (Router.render f p c) =
  if isNative f && isAndroid f && negb (Router.useShakafallback c) then
    if Router.isLoadingMobileUrl c then OSpinner
    else if JS.truthy (Router.mobileVideoUrl c) then OMobile else OShaka
  else OShaka.
Proof. unfold Router.render. repeat case_match; reflexivity. Qed.

Lemma outcome_renderV0 f p c :
  outcome (RouterV0.render f p c) =
  if isNative f && isAndroid f && JS.truthy (RouterV0.mobileVideoUrl c) then OMobile
  else if isNative f && isAndroid f && RouterV0.isLoadingMobileUrl c then OSpinner
  else OShaka.
Proof. unfold RouterV0.render. repeat case_match; reflexivity. Qed.

(** On the cells the named router can reach, the two orders of the tests
    cannot be told apart. *)
Lemma variants_agree_on_reachable f p c0 c :
  Spec.reachable f c ->
  RouterV0.mobileVideoUrl c0 = Router.mobileVideoUrl c ->
  RouterV0.isLoadingMobileUrl c0 = Router.isLoadingMobileUrl c ->
  outcome (RouterV0.render f p c0) = outcome (Router.render f p c).
Proof.
  intros Hr Hu Hl.
  rewrite outcome_render, outcome_renderV0, Hu, Hl.
  destruct (reachable_invariant f c Hr) as [I1 I2].
  destruct (isNative f && isAndroid f); [cbn | reflexivity].
  destruct (Router.isLoadingMobileUrl c).
  - destruct I1 as [-> ->]; reflexivity.
  - destruct (Router.useShakafallback c); [ | reflexivity].
    now rewrite I2.
Qed.

Lemma strict_neq_refl o : JS.strict_neq o o = false.
Proof. destruct o; cbn; [now rewrite String.eqb_refl | reflexivity]. Qed.

Lemma reset_idle p c :
  Router.prevEpisodeIdRef c = currentEpisodeId p -> Router.resetEffect p c = c.
Proof. intros H. unfold Router.resetEffect. now rewrite H, strict_neq_refl. Qed.

Lemma resetV0_idle p c :
  RouterV0.prevEpisodeIdRef c = currentEpisodeId p -> RouterV0.resetEffect p c = c.
Proof. intros H. unfold RouterV0.resetEffect. now rewrite H, strict_neq_refl. Qed.

Lemma resolve_keeps_prev f p r c :
  Router.prevEpisodeIdRef (Router.resolveEffect f p r c) = Router.prevEpisodeIdRef c.
Proof.
  unfold Router.resolveEffect, Router.resolveUrl, Router.seq.
  repeat case_match; reflexivity.
Qed.

Lemma resolveV0_keeps_prev f p r c :
  RouterV0.prevEpisodeIdRef (RouterV0.resolveEffect f p r c) = RouterV0.prevEpisodeIdRef c.
Proof.
  unfold RouterV0.resolveEffect, RouterV0.resolveUrl, RouterV0.seq.
  repeat case_match; reflexivity.
Qed.

(** Mount and the following re-render, without the idle reset effect. *)
Lemma settle_eq f p :
  Router.settle f p =
  Router.resolveEffect f p (Router.resolveEffect f p (Router.mount p) (Router.mount p))
    (Router.resolveEffect f p (Router.mount p) (Router.mount p)).
Proof.
  unfold Router.settle, Router.commit, Router.seq.
  rewrite (reset_idle p (Router.mount p)) by reflexivity.
  rewrite reset_idle; [reflexivity | now rewrite resolve_keeps_prev].
Qed.

Lemma settleV0_eq f p :
  RouterV0.settle f p =
  RouterV0.resolveEffect f p
    (RouterV0.resolveEffect f p (RouterV0.mount p) (RouterV0.mount p))
    (RouterV0.resolveEffect f p (RouterV0.mount p) (RouterV0.mount p)).
Proof.
  unfold RouterV0.settle, RouterV0.commit, RouterV0.seq.
  rewrite (resetV0_idle p (RouterV0.mount p)) by reflexivity.
  rewrite resetV0_idle; [reflexivity | now rewrite resolveV0_keeps_prev].
Qed.

(** After mount and the re-render its state changes cause, both variants
    render the same outcome, whatever the properties are. *)
Lemma variants_agree_when_settled f p :
  outcome (RouterV0.render f p (RouterV0.settle f p))
  = outcome (Router.render f p (Router.settle f p)).
Proof.
  rewrite outcome_render, outcome_renderV0, settle_eq, settleV0_eq.
  destruct (isNative f && isAndroid f) eqn:Ha; [ | reflexivity].
  apply andb_prop in Ha as [Hn Ha].
  unfold RouterV0.resolveEffect, Router.resolveEffect,
    RouterV0.alreadyFetched, Router.alreadyFetched,
    RouterV0.resolveUrl, Router.resolveUrl, RouterV0.seq, Router.seq.
  rewrite Hn, Ha; cbn.
  destruct (defaultSource (videoSources p)) as [src | ]; cbn; [ | reflexivity].
  destruct (Router.isFrameSource (sourceTypeOf src)); cbn;
    rewrite ?String.eqb_refl; cbn; [reflexivity | ].
  destruct (JS.truthy (url src)) eqn:Hu; cbn; rewrite ?String.eqb_refl, ?Hu; cbn;
    rewrite ?Hu; [reflexivity | ].
  destruct (quality_urls src) as [q | ]; cbn; [ | rewrite ?String.eqb_refl; reflexivity].
  unfold JS.or_else.
  destruct (JS.truthy (firstQualityUrl q)) eqn:Hq; cbn;
    rewrite ?String.eqb_refl, ?Hq; cbn; rewrite ?Hq; reflexivity.
Qed.

(** Every state a commit or the settled mount leaves is one the router can
    reach. *)
Lemma commit_reachable f p r :
  Spec.reachable f r -> Spec.reachable f (Router.commit f p r).
Proof.
  intros Hr. unfold Router.commit, Router.seq.
  apply Spec.reach_resolve; [assumption | now apply Spec.reach_reset].
Qed.

Lemma settle_reachable f p : Spec.reachable f (Router.settle f p).
Proof. unfold Router.settle. do 2 apply commit_reachable. apply Spec.reach_mount. Qed.

Lemma commitV0_reachable f p r :
  Spec.reachableV0 f r -> Spec.reachableV0 f (RouterV0.commit f p r).
Proof.
  intros Hr. unfold RouterV0.commit, RouterV0.seq.
  apply Spec.reachV0_resolve; [assumption | now apply Spec.reachV0_reset].
Qed.

Lemma settleV0_reachable f p : Spec.reachableV0 f (RouterV0.settle f p).
Proof. unfold RouterV0.settle. do 2 apply commitV0_reachable. apply Spec.reachV0_mount. Qed.

(** When neither variant's guard skips the run, the two resolve effects
    leave cells that render the same outcome, whatever the cells were. *)
Lemma fresh_resolutions_agree f p r0 c0 r c :
  (forall src, defaultSource (videoSources p) = Some src ->
     RouterV0.alreadyFetched r0 c0 (fetchKey p src) = false /\
     Router.alreadyFetched r c (fetchKey p src) = false) ->
  outcome (RouterV0.render f p (RouterV0.resolveEffect f p r0 c0))
  = outcome (Router.render f p (Router.resolveEffect f p r c)).
Proof.
  intros Hg. rewrite outcome_render, outcome_renderV0.
  destruct (isNative f && isAndroid f) eqn:Hna; [ | reflexivity].
  apply andb_prop in Hna as [Hn Ha].
  unfold RouterV0.resolveEffect, Router.resolveEffect. rewrite Hn, Ha. cbn [negb orb andb].
  destruct (defaultSource (videoSources p)) as [src | ]; [ | reflexivity].
  destruct (Hg src eq_refl) as [-> ->].
  unfold RouterV0.resolveUrl, Router.resolveUrl, RouterV0.seq, Router.seq.
  destruct (Router.isFrameSource (sourceTypeOf src)); cbn; [reflexivity | ].
  destruct (JS.truthy (url src)) eqn:Hu; cbn; rewrite ?Hu; [reflexivity | ].
  destruct (quality_urls src) as [q | ]; cbn; [ | reflexivity].
  unfold JS.or_else.
  destruct (JS.truthy (firstQualityUrl q)) eqn:Hq; cbn; rewrite ?Hq; reflexivity.
Qed.

(** A commit in which the episode id changed resolves afresh in both
    variants. *)
Lemma commits_agree_on_episode_change f p r0 r :
  JS.strict_neq (RouterV0.prevEpisodeIdRef r0) (currentEpisodeId p) = true ->
  JS.strict_neq (Router.prevEpisodeIdRef r) (currentEpisodeId p) = true ->
  outcome (RouterV0.render f p (RouterV0.commit f p r0))
  = outcome (Router.render f p (Router.commit f p r)).
Proof.
  intros H0 H. unfold RouterV0.commit, Router.commit, RouterV0.seq, Router.seq.
  apply fresh_resolutions_agree. intros src _.
  unfold RouterV0.resetEffect, Router.resetEffect. rewrite H0, H.
  split; reflexivity.
Qed.

(** ** URL resolution and dispatch on the source type *)

Lemma find_first {A} (P : A -> bool) (l : list A) (x : A) :
  List.find P l = Some x ->
  exists i, l !! i = Some x /\ P x = true /\
    forall j y, (j < i)%nat -> l !! j = Some y -> P y = false.
Proof.
  induction l as [ | a l IH]; cbn; [discriminate | ].
  destruct (P a) eqn:Pa.
  - intros [= ->]. exists 0%nat. repeat split; [assumption | ]. intros j y Hj. lia.
  - intros H. destruct (IH H) as (i & Hi & Px & Hlt).
    exists (S i). repeat split; [assumption .. | ].
    intros [ | j] y Hj; cbn.
    + now intros [= <-].
    + apply Hlt. lia.
Qed.

Lemma defaultSource_chosen vs src :
  defaultSource vs = Some src -> Spec.isChosenSource vs src.
Proof.
  unfold defaultSource, Spec.isChosenSource.
  destruct (List.find _ vs) as [s | ] eqn:Hf.
  - intros [= <-]. left. now apply find_first in Hf.
  - intros Hh. right. split; [ | assumption].
    intros s Hs. now apply (List.find_none _ _ Hf).
Qed.

Lemma defaultSource_nonempty vs :
  vs <> [] -> exists src, defaultSource vs = Some src.
Proof.
  destruct vs as [ | s vs]; [congruence | intros _].
  unfold defaultSource. destruct (List.find _ (s :: vs)) as [s' | ]; eauto.
Qed.

(** The effect on native Android when the guard lets it run. *)
Lemma resolve_fresh f p r c src :
  isNative f = true -> isAndroid f = true ->
  defaultSource (videoSources p) = Some src ->
  Router.alreadyFetched r c (fetchKey p src) = false ->
  Router.resolveEffect f p r c =
  if Router.isFrameSource (sourceTypeOf src) then
    Router.setLastFetched (Some (fetchKey p src))
      (Router.setIsLoadingMobileUrl false
         (Router.setUseShakaFallback true
            (Router.setMobileVideoUrl None (Router.setIsLoadingMobileUrl true c))))
  else
    Router.setIsLoadingMobileUrl false
      (Router.resolveUrl src (fetchKey p src)
         (Router.setMobileSourceType (Router.selectMode (sourceTypeOf src))
            (Router.setIsLoadingMobileUrl true c))).
Proof.
  intros Hn Ha Hs Hg. unfold Router.resolveEffect.
  now rewrite Hn, Ha, Hs, Hg.
Qed.

Lemma resolve_skipped f p r c src :
  isNative f = true -> isAndroid f = true ->
  defaultSource (videoSources p) = Some src ->
  Router.alreadyFetched r c (fetchKey p src) = true ->
  Router.resolveEffect f p r c = Router.setIsLoadingMobileUrl false c.
Proof.
  intros Hn Ha Hs Hg. unfold Router.resolveEffect.
  now rewrite Hn, Ha, Hs, Hg.
Qed.

Lemma resolve_empty f p r c :
  isNative f = true -> isAndroid f = true ->
  defaultSource (videoSources p) = None ->
  Router.resolveEffect f p r c =
  Router.setUseShakaFallback false
    (Router.setIsLoadingMobileUrl false (Router.setMobileVideoUrl None c)).
Proof.
  intros Hn Ha Hs. unfold Router.resolveEffect.
  now rewrite Hn, Ha, Hs.
Qed.

(** What [resolveUrl] leaves in the URL cell and in the fallback flag. *)
Lemma resolveUrl_cells src key c :
  Router.mobileVideoUrl (Router.resolveUrl src key c) = Spec.usableUrl src /\
  Router.useShakafallback (Router.resolveUrl src key c)
    = negb (JS.truthy (Spec.usableUrl src)) /\
  Router.mobileSourceType (Router.resolveUrl src key c) = Router.mobileSourceType c /\
  Router.lastFetchedRef (Router.resolveUrl src key c) = Some key.
Proof.
  unfold Router.resolveUrl, Spec.usableUrl, Router.seq.
  destruct (JS.truthy (url src)) eqn:Hu; cbn; [now rewrite Hu | ].
  destruct (quality_urls src) as [q | ]; cbn; [ | tauto].
  destruct (JS.truthy (firstQualityUrl q)) eqn:Hq; cbn; [now rewrite Hq | tauto].
Qed.

Lemma selectMode_cases t :
  (t = "dash" -> Router.selectMode t = Dash) /\
  (t = "mp4" -> Router.selectMode t = Mp4) /\
  (t <> "dash" -> t <> "mp4" -> Router.selectMode t = Hls).
Proof.
  unfold Router.selectMode. repeat split.
  - intros ->. reflexivity.
  - intros ->. reflexivity.
  - intros Hd Hm.
    destruct (String.eqb t "hls" || String.eqb t "m3u8"); [reflexivity | ].
    destruct (String.eqb_spec t "dash"); [contradiction | ].
    destruct (String.eqb_spec t "mp4"); [contradiction | reflexivity].
Qed.

Lemma isFrameSource_iff t :
  Router.isFrameSource t = true <-> t = "iframe" \/ t = "embed".
Proof.
  unfold Router.isFrameSource. rewrite orb_true_iff, !String.eqb_eq. tauto.
Qed.

Lemma missing_source_type src :
  source_type src = None -> sourceTypeOf src = "".
Proof. unfold sourceTypeOf. now intros ->. Qed.

(** The mode the effect stores when it runs on a source that is not
    rendered by the web player. *)
Lemma resolve_mode f p r c src :
  isNative f = true -> isAndroid f = true ->
  defaultSource (videoSources p) = Some src ->
  Router.alreadyFetched r c (fetchKey p src) = false ->
  Router.isFrameSource (sourceTypeOf src) = false ->
  Router.mobileSourceType (Router.resolveEffect f p r c)
    = Router.selectMode (sourceTypeOf src).
Proof.
  intros Hn Ha Hs Hg Hfr. rewrite (resolve_fresh f p r c src Hn Ha Hs Hg), Hfr.
  cbn. now destruct (resolveUrl_cells src (fetchKey p src)
    (Router.setMobileSourceType (Router.selectMode (sourceTypeOf src))
       (Router.setIsLoadingMobileUrl true c))) as (_ & _ & -> & _).
Qed.

Lemma render_mobile_props f p c mp :
  Router.render f p c = MobileVideoPlayer mp ->
  m_sourceType mp = Router.mobileSourceType c /\
  Router.mobileVideoUrl c = Some (m_videoUrl mp) /\
  Router.useShakafallback c = false /\
  m_videoUrl mp <> "".
Proof.
  unfold Router.render.
  destruct (isNative f && isAndroid f); cbn; [ | discriminate].
  destruct (Router.useShakafallback c); cbn; [discriminate | ].
  destruct (Router.isLoadingMobileUrl c); [discriminate | ].
  destruct (Router.mobileVideoUrl c) as [u | ]; cbn; [ | discriminate].
  destruct (String.eqb_spec u ""); cbn; [discriminate | ].
  intros [= <-]. cbn. tauto.
Qed.

Lemma selectMode_claimed t : Router.selectMode t = Spec.claimedMode t.
Proof.
  unfold Router.selectMode, Spec.claimedMode.
  destruct (String.eqb_spec t "hls") as [-> | _]; [reflexivity | ].
  destruct (String.eqb_spec t "m3u8") as [-> | _]; [reflexivity | ].
  reflexivity.
Qed.

Lemma usableUrl_truthy src u :
  Spec.usableUrl src = Some u -> JS.truthy (Some u) = true.
Proof.
  unfold Spec.usableUrl.
  destruct (JS.truthy (url src)) eqn:Hu; [now intros <- | ].
  destruct (JS.truthy (quality_urls src ≫= firstQualityUrl)) eqn:Hq;
    [now intros <- | discriminate].
Qed.

Lemma resolvedUrl_truthy src u :
  Spec.resolvedUrl src = Some u -> JS.truthy (Some u) = true.
Proof.
  unfold Spec.resolvedUrl.
  destruct (Router.isFrameSource (sourceTypeOf src)); [discriminate | ].
  apply usableUrl_truthy.
Qed.

(** What a run of the effect that passes the guard leaves in the cells. *)
Lemma resolve_fresh_cells f p r c src :
  isNative f = true -> isAndroid f = true ->
  defaultSource (videoSources p) = Some src ->
  Router.alreadyFetched r c (fetchKey p src) = false ->
  Router.mobileVideoUrl (Router.resolveEffect f p r c) = Spec.resolvedUrl src /\
  Router.useShakafallback (Router.resolveEffect f p r c)
    = negb (JS.truthy (Spec.resolvedUrl src)) /\
  Router.isLoadingMobileUrl (Router.resolveEffect f p r c) = false /\
  Router.lastFetchedRef (Router.resolveEffect f p r c) = Some (fetchKey p src) /\
  (Router.isFrameSource (sourceTypeOf src) = false ->
     Router.mobileSourceType (Router.resolveEffect f p r c)
       = Router.selectMode (sourceTypeOf src)).
Proof.
  intros Hn Ha Hs Hg. rewrite (resolve_fresh f p r c src Hn Ha Hs Hg).
  unfold Spec.resolvedUrl.
  destruct (Router.isFrameSource (sourceTypeOf src)); cbn.
  - repeat split; discriminate.
  - destruct (resolveUrl_cells src (fetchKey p src)
      (Router.setMobileSourceType (Router.selectMode (sourceTypeOf src))
         (Router.setIsLoadingMobileUrl true c))) as (-> & -> & -> & ->).
    repeat split.
Qed.

(** The cells once mount and the following re-render are through. *)
Lemma settled_cells f p src :
  isNative f = true -> isAndroid f = true ->
  defaultSource (videoSources p) = Some src ->
  Router.mobileVideoUrl (Router.settle f p) = Spec.resolvedUrl src /\
  Router.useShakafallback (Router.settle f p)
    = negb (JS.truthy (Spec.resolvedUrl src)) /\
  Router.isLoadingMobileUrl (Router.settle f p) = false /\
  (Router.isFrameSource (sourceTypeOf src) = false ->
     Router.mobileSourceType (Router.settle f p) = Router.selectMode (sourceTypeOf src)).
Proof.
  intros Hn Ha Hs. rewrite settle_eq.
  assert (Router.alreadyFetched (Router.mount p) (Router.mount p) (fetchKey p src) = false)
    as Hg by reflexivity.
  destruct (resolve_fresh_cells f p _ _ src Hn Ha Hs Hg) as (Hu & Hf & Hl & Hk & Hm).
  set (c1 := Router.resolveEffect f p (Router.mount p) (Router.mount p)) in *.
  assert (Router.alreadyFetched c1 c1 (fetchKey p src) = true) as Hg1.
  { unfold Router.alreadyFetched. rewrite Hk, Hu, Hf; cbn.
    rewrite String.eqb_refl. now destruct (JS.truthy (Spec.resolvedUrl src)). }
  rewrite (resolve_skipped f p c1 c1 src Hn Ha Hs Hg1). cbn.
  repeat split; assumption.
Qed.

Lemma settled_key f p src :
  isNative f = true -> isAndroid f = true ->
  defaultSource (videoSources p) = Some src ->
  Router.lastFetchedRef (Router.settle f p) = Some (fetchKey p src).
Proof.
  intros Hn Ha Hs. rewrite settle_eq.
  assert (Router.alreadyFetched (Router.mount p) (Router.mount p) (fetchKey p src) = false)
    as Hg by reflexivity.
  destruct (resolve_fresh_cells f p _ _ src Hn Ha Hs Hg) as (Hu & Hf & Hl & Hk & Hm).
  set (c1 := Router.resolveEffect f p (Router.mount p) (Router.mount p)) in *.
  assert (Router.alreadyFetched c1 c1 (fetchKey p src) = true) as Hg1.
  { unfold Router.alreadyFetched. rewrite Hk, Hu, Hf; cbn.
    rewrite String.eqb_refl. now destruct (JS.truthy (Spec.resolvedUrl src)). }
  now rewrite (resolve_skipped f p c1 c1 src Hn Ha Hs Hg1).
Qed.

Lemma setIsLoading_same c :
  Router.isLoadingMobileUrl c = false -> Router.setIsLoadingMobileUrl false c = c.
Proof. destruct c; cbn. now intros ->. Qed.

(** Nothing changes any more after that: a further commit with the same
    properties leaves the settled cells as they are. *)
Lemma settled_is_stable f p :
  Router.commit f p (Router.settle f p) = Router.settle f p.
Proof.
  unfold Router.commit, Router.seq.
  rewrite reset_idle
    by (rewrite settle_eq, !resolve_keeps_prev; reflexivity).
  destruct (isNative f) eqn:Hn;
    [ | unfold Router.resolveEffect at 1; now rewrite Hn].
  destruct (isAndroid f) eqn:Ha;
    [ | unfold Router.resolveEffect at 1; now rewrite Hn, Ha].
  destruct (defaultSource (videoSources p)) as [src | ] eqn:Hs.
  - destruct (settled_cells f p src Hn Ha Hs) as (Hu & Hf & Hl & _).
    pose proof (settled_key f p src Hn Ha Hs) as Hk.
    rewrite (resolve_skipped f p _ _ src Hn Ha Hs).
    + now apply setIsLoading_same.
    + unfold Router.alreadyFetched. rewrite Hk, Hu, Hf; cbn.
      rewrite String.eqb_refl. now destruct (JS.truthy (Spec.resolvedUrl src)).
  - rewrite settle_eq, !(resolve_empty f p _ _ Hn Ha Hs). reflexivity.
Qed.

Lemma render_resolved f p c src :
  isNative f = true -> isAndroid f = true ->
  Router.mobileVideoUrl c = Spec.resolvedUrl src ->
  Router.useShakafallback c = negb (JS.truthy (Spec.resolvedUrl src)) ->
  Router.isLoadingMobileUrl c = false ->
  Router.render f p c =
  match Spec.resolvedUrl src with
  | Some u => mobileElement p u (Router.mobileSourceType c)
  | None => Router.shakaElement p
  end.
Proof.
  intros Hn Ha Hu Hf Hl. unfold Router.render. rewrite Hn, Ha, Hu, Hf, Hl; cbn.
  destruct (Spec.resolvedUrl src) as [u | ] eqn:E; [ | reflexivity].
  now rewrite (resolvedUrl_truthy src u E).
Qed.

(** C3, as the code has it: on native Android a non-empty list is resolved
    from the first source marked default, or else from the first element.
    Unless that source is of type iframe or embed, its non-empty direct url
    is taken, otherwise the non-empty first value of its quality_urls; for
    an iframe or embed source, and when the source offers neither URL, no
    URL is set and the web player is selected. This holds of every run of
    the effect that passes its already-fetched guard, and of the router once
    mount has settled, where it decides which player is rendered. For an
    empty list no URL is set and the web player is rendered. *)
Theorem C3_url_resolution (f : Flags) (p : Props) :
  isNative f = true ->
  isAndroid f = true ->
  (videoSources p = [] ->
     forall r c,
       Router.mobileVideoUrl (Router.resolveEffect f p r c) = None /\
       Router.render f p (Router.resolveEffect f p r c) = Router.shakaElement p) /\
  (videoSources p <> [] ->
     exists src, defaultSource (videoSources p) = Some src /\
       Spec.isChosenSource (videoSources p) src) /\
  (forall src,
     defaultSource (videoSources p) = Some src ->
     (forall r c,
        Router.alreadyFetched r c (fetchKey p src) = false ->
        Router.mobileVideoUrl (Router.resolveEffect f p r c) = Spec.resolvedUrl src /\
        Router.useShakafallback (Router.resolveEffect f p r c)
          = negb (JS.truthy (Spec.resolvedUrl src))) /\
     Router.mobileVideoUrl (Router.settle f p) = Spec.resolvedUrl src /\
     Router.render f p (Router.settle f p) =
       match Spec.resolvedUrl src with
       | Some u => mobileElement p u (Router.mobileSourceType (Router.settle f p))
       | None => Router.shakaElement p
       end).
Proof.
  intros Hn Ha. split; [ | split].
  - intros He r c.
    rewrite (resolve_empty f p r c Hn Ha) by now rewrite He.
    split; [reflexivity | ].
    unfold Router.render; cbn. now rewrite Hn, Ha.
  - intros Hne. destruct (defaultSource_nonempty _ Hne) as [src Hs].
    exists src. split; [assumption | now apply defaultSource_chosen].
  - intros src Hs. split; [ | split].
    + intros r c Hg.
      destruct (resolve_fresh_cells f p r c src Hn Ha Hs Hg) as (Hu & Hf & _).
      now split.
    + now destruct (settled_cells f p src Hn Ha Hs) as (Hu & _).
    + destruct (settled_cells f p src Hn Ha Hs) as (Hu & Hf & Hl & _).
      now apply render_resolved.
Qed.

Lemma C3_witness :
  Router.mobileVideoUrl
    (Router.settle Examples.android
       (Examples.propsWith [Examples.dashSource; Examples.hlsSource]))
  = Some "https://cdn.example/ep1/master.m3u8".
Proof.
  exact (proj1 (proj2
    (proj2 (proj2
       (C3_url_resolution Examples.android
          (Examples.propsWith [Examples.dashSource; Examples.hlsSource])
          eq_refl eq_refl))
       Examples.hlsSource eq_refl))).
Defined.

(** C3 as stated fails: the default source below has a direct url, yet the
    router sets no URL for it, because its type is iframe. *)
Lemma C3_counterexample :
  defaultSource (videoSources (Examples.propsWith [Examples.iframeSource]))
    = Some Examples.iframeSource /\
  Spec.usableUrl Examples.iframeSource = url Examples.iframeSource /\
  JS.truthy (url Examples.iframeSource) = true /\
  Router.mobileVideoUrl
    (Router.resolveEffect Examples.android (Examples.propsWith [Examples.iframeSource])
       (Router.mount (Examples.propsWith [Examples.iframeSource]))
       (Router.mount (Examples.propsWith [Examples.iframeSource])))
    <> url Examples.iframeSource /\
  Router.mobileVideoUrl
    (Router.settle Examples.android (Examples.propsWith [Examples.iframeSource]))
    <> url Examples.iframeSource.
Proof. repeat split; discriminate. Qed.

(** C4, as the code has it: on native Android the router dispatches on the
    lowercased source type of the default source: 'iframe' and 'embed'
    select the web player; otherwise the mode of the mobile player is DASH
    for 'dash', MP4 for 'mp4', and HLS for 'hls', 'm3u8' and every other or
    missing value. This holds of every run of the effect that its
    already-fetched guard does not skip, and of the router once mount has
    settled. A run the guard skips only clears the loading flag: the stored
    mode, URL and fallback flag stay what they were. *)
Theorem C4_source_type_dispatch (f : Flags) (p : Props) (src : VideoSource) :
  isNative f = true ->
  isAndroid f = true ->
  defaultSource (videoSources p) = Some src ->
  (forall r c,
     Router.alreadyFetched r c (fetchKey p src) = false ->
     (sourceTypeOf src = "iframe" \/ sourceTypeOf src = "embed" ->
        Router.render f p (Router.resolveEffect f p r c) = Router.shakaElement p) /\
     (sourceTypeOf src <> "iframe" -> sourceTypeOf src <> "embed" ->
        Router.mobileSourceType (Router.resolveEffect f p r c)
          = Spec.claimedMode (sourceTypeOf src)) /\
     (forall mp,
        Router.render f p (Router.resolveEffect f p r c) = MobileVideoPlayer mp ->
        m_sourceType mp = Spec.claimedMode (sourceTypeOf src))) /\
  (forall r c,
     Router.alreadyFetched r c (fetchKey p src) = true ->
     Router.resolveEffect f p r c = Router.setIsLoadingMobileUrl false c) /\
  (sourceTypeOf src = "iframe" \/ sourceTypeOf src = "embed" ->
     Router.render f p (Router.settle f p) = Router.shakaElement p) /\
  (forall mp,
     Router.render f p (Router.settle f p) = MobileVideoPlayer mp ->
     m_sourceType mp = Spec.claimedMode (sourceTypeOf src)) /\
  (source_type src = None -> Spec.claimedMode (sourceTypeOf src) = Hls) /\
  (forall t, t <> "dash" -> t <> "mp4" -> Spec.claimedMode t = Hls) /\
  Spec.claimedMode "hls" = Hls /\ Spec.claimedMode "m3u8" = Hls /\
  Spec.claimedMode "dash" = Dash /\ Spec.claimedMode "mp4" = Mp4.
Proof.
  intros Hn Ha Hs.
  assert (forall c,
            Router.mobileVideoUrl c = Spec.resolvedUrl src ->
            Router.useShakafallback c = negb (JS.truthy (Spec.resolvedUrl src)) ->
            Router.isLoadingMobileUrl c = false ->
            (Router.isFrameSource (sourceTypeOf src) = false ->
               Router.mobileSourceType c = Router.selectMode (sourceTypeOf src)) ->
            (sourceTypeOf src = "iframe" \/ sourceTypeOf src = "embed" ->
               Router.render f p c = Router.shakaElement p) /\
            (forall mp, Router.render f p c = MobileVideoPlayer mp ->
               m_sourceType mp = Spec.claimedMode (sourceTypeOf src))) as Hcells.
  { intros c Hu Hf Hl Hm. rewrite (render_resolved f p c src Hn Ha Hu Hf Hl).
    unfold Spec.resolvedUrl in *.
    destruct (Router.isFrameSource (sourceTypeOf src)) eqn:Hfr.
    - split; [reflexivity | discriminate].
    - split.
      + intros E. apply isFrameSource_iff in E. congruence.
      + destruct (Spec.usableUrl src); [ | discriminate].
        intros mp [= <-]. cbn. rewrite Hm by reflexivity. apply selectMode_claimed. }
  split; [ | split; [ | split; [ | split; [ | split; [ | split]]]]].
  - intros r c Hg.
    destruct (resolve_fresh_cells f p r c src Hn Ha Hs Hg) as (Hu & Hf & Hl & _ & Hm).
    destruct (Hcells _ Hu Hf Hl Hm) as [Hframe Hmobile].
    split; [assumption | split; [ | assumption]].
    intros N1 N2. rewrite Hm; [apply selectMode_claimed | ].
    destruct (Router.isFrameSource (sourceTypeOf src)) eqn:Hfr; [ | reflexivity].
    apply isFrameSource_iff in Hfr. tauto.
  - intros r c Hg. now apply (resolve_skipped f p r c src).
  - destruct (settled_cells f p src Hn Ha Hs) as (Hu & Hf & Hl & Hm).
    now destruct (Hcells _ Hu Hf Hl Hm).
  - destruct (settled_cells f p src Hn Ha Hs) as (Hu & Hf & Hl & Hm).
    now destruct (Hcells _ Hu Hf Hl Hm).
  - intros E. now rewrite (missing_source_type src E).
  - intros t Hd Hm. rewrite <- selectMode_claimed.
    now apply (selectMode_cases t).
  - repeat split.
Qed.

Lemma C4_witness :
  Router.mobileSourceType
    (Router.resolveEffect Examples.android (Examples.propsWith [Examples.dashSource])
       (Router.mount (Examples.propsWith [Examples.dashSource]))
       (Router.mount (Examples.propsWith [Examples.dashSource])))
  = Dash.
Proof.
  refine (proj1 (proj2 (proj1
    (C4_source_type_dispatch Examples.android (Examples.propsWith [Examples.dashSource])
       Examples.dashSource eq_refl eq_refl eq_refl)
    (Router.mount (Examples.propsWith [Examples.dashSource]))
    (Router.mount (Examples.propsWith [Examples.dashSource])) eq_refl)) _ _);
    discriminate.
Defined.

(** C4 as stated fails. The router settled on the HLS source of [Examples],
    a state it reaches at mount; the catalogue then re-types that source
    under the same id, as 'dash' or as 'iframe'. The already-fetched guard
    skips the dispatch: the mobile player is still rendered in both cases, in
    HLS mode, where the claim has DASH mode and the web player. *)
Lemma C4_counterexample :
  Spec.reachable Examples.android
    (Router.settle Examples.android (Examples.propsWith [Examples.hlsSource])) /\
  defaultSource (videoSources (Examples.propsWith [MoreExamples.hlsSourceMoved]))
    = Some MoreExamples.hlsSourceMoved /\
  sourceTypeOf MoreExamples.hlsSourceMoved = "dash" /\
  Spec.claimedMode (sourceTypeOf MoreExamples.hlsSourceMoved) = Dash /\
  outcome (Router.render Examples.android (Examples.propsWith [MoreExamples.hlsSourceMoved])
             (Router.commit Examples.android
                (Examples.propsWith [MoreExamples.hlsSourceMoved])
                (Router.settle Examples.android (Examples.propsWith [Examples.hlsSource]))))
    = OMobile /\
  m_sourceType
    (Examples.mobileElementOf
       (Router.render Examples.android (Examples.propsWith [MoreExamples.hlsSourceMoved])
          (Router.commit Examples.android
             (Examples.propsWith [MoreExamples.hlsSourceMoved])
             (Router.settle Examples.android (Examples.propsWith [Examples.hlsSource])))))
    = Hls /\
  defaultSource (videoSources (Examples.propsWith [MoreExamples.hlsSourceFramed]))
    = Some MoreExamples.hlsSourceFramed /\
  sourceTypeOf MoreExamples.hlsSourceFramed = "iframe" /\
  outcome (Router.render Examples.android (Examples.propsWith [MoreExamples.hlsSourceFramed])
             (Router.commit Examples.android
                (Examples.propsWith [MoreExamples.hlsSourceFramed])
                (Router.settle Examples.android (Examples.propsWith [Examples.hlsSource]))))
    = OMobile.
Proof. split; [apply settle_reachable | repeat split]. Qed.

(** The unnamed variant resolves the same URL and mode. *)

Lemma resolveV0_cells f p r c src :
  isNative f = true -> isAndroid f = true ->
  defaultSource (videoSources p) = Some src ->
  RouterV0.alreadyFetched r c (fetchKey p src) = false ->
  RouterV0.mobileSourceType (RouterV0.resolveEffect f p r c)
    = Router.selectMode (sourceTypeOf src) /\
  RouterV0.mobileVideoUrl (RouterV0.resolveEffect f p r c)
    = Spec.resolvedUrl src /\
  (Router.isFrameSource (sourceTypeOf src) = true ->
     RouterV0.render f p (RouterV0.resolveEffect f p r c) = RouterV0.shakaElement p).
Proof.
  intros Hn Ha Hs Hg.
  unfold RouterV0.resolveEffect, RouterV0.render, Spec.resolvedUrl.
  rewrite Hn, Ha, Hs, Hg; cbn.
  destruct (Router.isFrameSource (sourceTypeOf src)); cbn.
  - repeat split; reflexivity.
  - unfold RouterV0.resolveUrl, RouterV0.seq, Spec.usableUrl, JS.or_else.
    destruct (JS.truthy (url src)); cbn; [repeat split; discriminate | ].
    destruct (quality_urls src) as [q | ]; cbn; [ | repeat split; discriminate].
    destruct (JS.truthy (firstQualityUrl q)); cbn; repeat split; discriminate.
Qed.

(** ** The two variants side by side *)

Lemma resolvedUrl_none src :
  JS.truthy (Spec.resolvedUrl src) = false -> Spec.resolvedUrl src = None.
Proof.
  destruct (Spec.resolvedUrl src) as [u | ] eqn:E; [ | reflexivity].
  rewrite (resolvedUrl_truthy src u E). discriminate.
Qed.

(** What a run of the unnamed variant's effect leaves in the cells when
    its guard does not skip it. *)
Lemma resolveV0_fresh_cells f p r c src :
  isNative f = true -> isAndroid f = true ->
  defaultSource (videoSources p) = Some src ->
  RouterV0.alreadyFetched r c (fetchKey p src) = false ->
  RouterV0.mobileVideoUrl (RouterV0.resolveEffect f p r c) = Spec.resolvedUrl src /\
  RouterV0.isLoadingMobileUrl (RouterV0.resolveEffect f p r c) = false /\
  (JS.truthy (Spec.resolvedUrl src) = true ->
     RouterV0.lastFetchedRef (RouterV0.resolveEffect f p r c) = Some (fetchKey p src)).
Proof.
  intros Hn Ha Hs Hg.
  unfold RouterV0.resolveEffect, Spec.resolvedUrl.
  rewrite Hn, Ha, Hs, Hg; cbn.
  destruct (Router.isFrameSource (sourceTypeOf src)); cbn.
  - repeat split; discriminate.
  - unfold RouterV0.resolveUrl, RouterV0.seq, Spec.usableUrl, JS.or_else.
    destruct (JS.truthy (url src)); cbn; [repeat split | ].
    destruct (quality_urls src) as [q | ]; cbn; [ | repeat split; discriminate].
    destruct (JS.truthy (firstQualityUrl q)); cbn; repeat split; discriminate.
Qed.

Lemma resolveV0_skipped f p r c src :
  isNative f = true -> isAndroid f = true ->
  defaultSource (videoSources p) = Some src ->
  RouterV0.alreadyFetched r c (fetchKey p src) = true ->
  RouterV0.resolveEffect f p r c = RouterV0.setIsLoadingMobileUrl false c.
Proof.
  intros Hn Ha Hs Hg. unfold RouterV0.resolveEffect.
  now rewrite Hn, Ha, Hs, Hg.
Qed.

Lemma resolve_off_android f p r c :
  isNative f && isAndroid f = false -> Router.resolveEffect f p r c = c.
Proof.
  intros H. unfold Router.resolveEffect.
  now destruct (isNative f), (isAndroid f).
Qed.

Lemma resolveV0_off_android f p r c :
  isNative f && isAndroid f = false -> RouterV0.resolveEffect f p r c = c.
Proof.
  intros H. unfold RouterV0.resolveEffect.
  now destruct (isNative f), (isAndroid f).
Qed.

(** What the two variants have in common while they run side by side: the
    URL, the loading flag and the previous episode id; and the last fetched
    key whenever a URL is held. The named router holds no URL while it is
    loading or has selected the fallback. *)
Lemma together_invariant f c0 c :
  Spec.together f c0 c ->
  RouterV0.mobileVideoUrl c0 = Router.mobileVideoUrl c /\
  RouterV0.isLoadingMobileUrl c0 = Router.isLoadingMobileUrl c /\
  RouterV0.prevEpisodeIdRef c0 = Router.prevEpisodeIdRef c /\
  (Router.isLoadingMobileUrl c = true ->
     Router.mobileVideoUrl c = None /\ Router.useShakafallback c = false) /\
  (Router.useShakafallback c = true -> Router.mobileVideoUrl c = None) /\
  (JS.truthy (Router.mobileVideoUrl c) = true ->
     RouterV0.lastFetchedRef c0 = Router.lastFetchedRef c).
Proof.
  induction 1 as [p | p episodeId c0 c _ IH | p c0 c _ IH Hstale].
  - cbn. repeat split; discriminate.
  - unfold RouterV0.handleEpisodeSelect, Router.handleEpisodeSelect.
    destruct (onEpisodeSelect p); cbn; [ | exact IH].
    destruct IH as (_ & _ & Hp & _). repeat split; try discriminate. exact Hp.
  - destruct IH as (Hu & Hl & Hp & Hload & Hfb & Hlf).
    unfold RouterV0.commit, Router.commit, RouterV0.seq, Router.seq.
    (* the reset effect: the same test in both variants *)
    assert (exists d0 d,
              RouterV0.resetEffect p c0 = d0 /\ Router.resetEffect p c = d /\
              RouterV0.mobileVideoUrl d0 = Router.mobileVideoUrl d /\
              RouterV0.isLoadingMobileUrl d0 = Router.isLoadingMobileUrl d /\
              RouterV0.prevEpisodeIdRef d0 = Router.prevEpisodeIdRef d /\
              (Router.isLoadingMobileUrl d = true ->
                 Router.mobileVideoUrl d = None /\ Router.useShakafallback d = false) /\
              (Router.useShakafallback d = true -> Router.mobileVideoUrl d = None) /\
              (JS.truthy (Router.mobileVideoUrl d) = true ->
                 RouterV0.lastFetchedRef d0 = Router.lastFetchedRef d) /\
              (d = c /\ d0 = c0 \/
               Router.lastFetchedRef d = None /\ RouterV0.lastFetchedRef d0 = None))
      as (d0 & d & E0 & E & Du & Dl & Dp & Dload & Dfb & Dlf & Dcase).
    { unfold RouterV0.resetEffect, Router.resetEffect. rewrite Hp.
      destruct (JS.strict_neq (Router.prevEpisodeIdRef c) (currentEpisodeId p)).
      - eexists _, _. split; [reflexivity | ]. split; [reflexivity | ].
        cbn. repeat split; try discriminate. now right.
      - exists c0, c. repeat split; try assumption; try (now apply Hload); now left. }
    unfold Spec.staleFallback in Hstale. rewrite E in Hstale. rewrite E0, E.
    destruct (isNative f && isAndroid f) eqn:Hna.
    2:{ rewrite (resolve_off_android _ _ _ _ Hna), (resolveV0_off_android _ _ _ _ Hna).
        repeat split; assumption || (now apply Dload). }
    apply andb_prop in Hna as [Hn Ha]. cbn [andb] in Hstale.
    destruct (defaultSource (videoSources p)) as [src | ] eqn:Hs.
    2:{ rewrite (resolve_empty f p c d Hn Ha Hs).
        unfold RouterV0.resolveEffect. rewrite Hn, Ha, Hs. cbn.
        repeat split; try discriminate. exact Dp. }
    destruct (Router.alreadyFetched c d (fetchKey p src)) eqn:Hg;
      destruct (RouterV0.alreadyFetched c0 d0 (fetchKey p src)) eqn:Hg0.
    + (* both guards skip *)
      rewrite (resolve_skipped f p c d src Hn Ha Hs Hg),
        (resolveV0_skipped f p c0 d0 src Hn Ha Hs Hg0). cbn.
      repeat split; intros; try assumption; try discriminate; auto.
    + (* only the named guard skips: the fallback is held, and it is not stale *)
      destruct (resolveV0_fresh_cells f p c0 d0 src Hn Ha Hs Hg0) as (Vu & Vl & Vk).
      rewrite (resolve_skipped f p c d src Hn Ha Hs Hg). cbn.
      unfold Router.alreadyFetched in Hg. unfold RouterV0.alreadyFetched in Hg0.
      apply andb_prop in Hg as [Hk Hor].
      destruct Dcase as [[-> ->] | [Dn _]];
        [ | rewrite Dn in Hk; discriminate Hk].
      destruct (JS.truthy (Router.mobileVideoUrl c)) eqn:Ht.
      { rewrite Hu, Ht, (Hlf eq_refl), Hk in Hg0. discriminate Hg0. }
      cbn in Hor. rewrite Hor in Hstale. cbn in Hstale.
      rewrite (resolveV0_keeps_prev f p c0 c0).
      rewrite Vu, (resolvedUrl_none src Hstale), (Hfb Hor).
      repeat split; intros; try assumption; try discriminate; auto.
    + (* only the unnamed guard skips: impossible *)
      exfalso.
      unfold Router.alreadyFetched in Hg. unfold RouterV0.alreadyFetched in Hg0.
      apply andb_prop in Hg0 as [Hk0 Ht0].
      destruct Dcase as [[-> ->] | [_ Dn0]];
        [ | rewrite Dn0 in Hk0; discriminate Hk0].
      rewrite Hu in Ht0. rewrite <- (Hlf Ht0), Hk0, Ht0 in Hg. discriminate Hg.
    + (* both resolve afresh *)
      destruct (resolve_fresh_cells f p c d src Hn Ha Hs Hg) as (Nu & Nf & Nl & Nk & _).
      destruct (resolveV0_fresh_cells f p c0 d0 src Hn Ha Hs Hg0) as (Vu & Vl & Vk).
      rewrite (resolve_keeps_prev f p c d), (resolveV0_keeps_prev f p c0 d0).
      rewrite Nu, Nf, Nl, Nk, Vu, Vl.
      repeat split; intros; try assumption; try discriminate; auto.
      apply resolvedUrl_none. now apply negb_true_iff.
Qed.

(** Side by side, the two variants render the same outcome. *)
Lemma together_same_outcome f p c0 c :
  Spec.together f c0 c ->
  outcome (RouterV0.render f p c0) = outcome (Router.render f p c).
Proof.
  intros H. destruct (together_invariant f c0 c H) as (Hu & Hl & _ & Hload & Hfb & _).
  rewrite outcome_render, outcome_renderV0, Hu, Hl.
  destruct (isNative f && isAndroid f); [cbn | reflexivity].
  destruct (Router.isLoadingMobileUrl c).
  - destruct (Hload eq_refl) as [-> ->]. reflexivity.
  - destruct (Router.useShakafallback c); [ | reflexivity].
    now rewrite (Hfb eq_refl).
Qed.

(** At a stale fallback the variants part: the named router keeps the web
    player, the unnamed variant resolves the URL and renders the mobile
    player. *)
Lemma stale_fallback_parts f p c0 c :
  Spec.together f c0 c ->
  Spec.staleFallback f p c = true ->
  outcome (RouterV0.render f p (RouterV0.commit f p c0)) = OMobile /\
  outcome (Router.render f p (Router.commit f p c)) = OShaka.
Proof.
  intros H Hstale.
  destruct (together_invariant f c0 c H) as (Hu & Hl & Hp & Hload & Hfb & _).
  unfold Spec.staleFallback in Hstale.
  apply andb_prop in Hstale as [Hna Hstale].
  destruct (defaultSource (videoSources p)) as [src | ] eqn:Hs; [ | discriminate].
  apply andb_prop in Hstale as [Hstale Ht].
  apply andb_prop in Hstale as [Hf Hg].
  assert (Router.resetEffect p c = c /\ RouterV0.resetEffect p c0 = c0) as [Er Er0].
  { unfold Router.alreadyFetched, Router.resetEffect in Hg.
    unfold Router.resetEffect, RouterV0.resetEffect. rewrite Hp.
    destruct (JS.strict_neq (Router.prevEpisodeIdRef c) (currentEpisodeId p));
      [discriminate Hg | split; reflexivity]. }
  rewrite Er in Hg.
  unfold RouterV0.commit, Router.commit, RouterV0.seq, Router.seq. rewrite Er, Er0.
  rewrite outcome_render, outcome_renderV0, Hna.
  apply andb_prop in Hna as [Hn Ha].
  rewrite (resolve_skipped f p c c src Hn Ha Hs Hg). cbn. rewrite Hf. cbn.
  assert (RouterV0.alreadyFetched c0 c0 (fetchKey p src) = false) as Hg0.
  { unfold RouterV0.alreadyFetched. rewrite Hu, (Hfb Hf). cbn. apply andb_false_r. }
  destruct (resolveV0_fresh_cells f p c0 c0 src Hn Ha Hs Hg0) as (Vu & _).
  rewrite Vu, Ht. split; reflexivity.
Qed.

(** A commit with the properties of the commit before it never meets a
    stale fallback: the fallback is only selected for a source that offers
    no usable URL. *)
Lemma no_stale_fallback_at_mount f p :
  Spec.staleFallback f p (Router.mount p) = false /\
  Spec.staleFallback f p (Router.commit f p (Router.mount p)) = false.
Proof.
  unfold Spec.staleFallback.
  destruct (isNative f && isAndroid f) eqn:Hna; [ | split; reflexivity].
  apply andb_prop in Hna as [Hn Ha]. cbn [andb].
  destruct (defaultSource (videoSources p)) as [src | ] eqn:Hs; [ | split; reflexivity].
  split; [reflexivity | ].
  unfold Router.commit, Router.seq.
  rewrite (reset_idle p (Router.mount p)) by reflexivity.
  assert (Router.alreadyFetched (Router.mount p) (Router.mount p) (fetchKey p src) = false)
    as Hg by reflexivity.
  destruct (resolve_fresh_cells f p _ _ src Hn Ha Hs Hg) as (_ & Hf & _).
  rewrite Hf. destruct (JS.truthy (Spec.resolvedUrl src)); cbn;
    [reflexivity | now rewrite andb_false_r].
Qed.

Lemma settled_together f p :
  Spec.together f (RouterV0.settle f p) (Router.settle f p).
Proof.
  destruct (no_stale_fallback_at_mount f p) as [H1 H2].
  unfold RouterV0.settle, Router.settle.
  apply Spec.together_commit; [ | exact H2].
  apply Spec.together_commit; [ | exact H1].
  apply Spec.together_mount.
Qed.

(** C10, as the code has it: off native Android both variants render the
    web player in every state. On native Android, the two variants, mounted
    with the same properties and taken through the same episode selections
    and the same commits, render the same outcome (mobile player, spinner
    or web player) as long as no commit meets a stale fallback: the named
    router holding its web-player fallback for the fetch key of a default
    source that offers a URL the mobile player can use. In particular they
    render the same outcome once mount has settled, for every list of video
    sources. At a commit that does meet a stale fallback they part: the
    named router keeps the web player and the unnamed variant renders the
    mobile player. *)
Theorem C10_variants_agree_in_step (f : Flags) (p : Props) :
  (isNative f && isAndroid f = false ->
     forall c0 c,
       outcome (RouterV0.render f p c0) = OShaka /\
       outcome (Router.render f p c) = OShaka) /\
  (forall c0 c,
     Spec.together f c0 c ->
     outcome (RouterV0.render f p c0) = outcome (Router.render f p c)) /\
  Spec.together f (RouterV0.settle f p) (Router.settle f p) /\
  outcome (RouterV0.render f p (RouterV0.settle f p))
    = outcome (Router.render f p (Router.settle f p)) /\
  (forall c0 c,
     Spec.together f c0 c ->
     Spec.staleFallback f p c = true ->
     outcome (RouterV0.render f p (RouterV0.commit f p c0)) = OMobile /\
     outcome (Router.render f p (Router.commit f p c)) = OShaka).
Proof.
  split; [ | split; [ | split; [ | split]]].
  - intros Hna c0 c. rewrite outcome_render, outcome_renderV0, Hna. split; reflexivity.
  - intros c0 c. apply together_same_outcome.
  - apply settled_together.
  - apply together_same_outcome, settled_together.
  - intros c0 c. apply stale_fallback_parts.
Qed.

(** The router settles on an HLS source; the episode then changes to one
    with a DASH source. *)
Lemma C10_witness :
  outcome (RouterV0.render Examples.android
             (MoreExamples.propsEpisode2 [Examples.dashSource])
             (RouterV0.commit Examples.android
                (MoreExamples.propsEpisode2 [Examples.dashSource])
                (RouterV0.settle Examples.android (Examples.propsWith [Examples.hlsSource]))))
  = outcome (Router.render Examples.android
               (MoreExamples.propsEpisode2 [Examples.dashSource])
               (Router.commit Examples.android
                  (MoreExamples.propsEpisode2 [Examples.dashSource])
                  (Router.settle Examples.android (Examples.propsWith [Examples.hlsSource])))).
Proof.
  apply (proj1 (proj2
    (C10_variants_agree_in_step Examples.android
       (MoreExamples.propsEpisode2 [Examples.dashSource])))).
  apply Spec.together_commit; [ | reflexivity].
  exact (proj1 (proj2 (proj2
    (C10_variants_agree_in_step Examples.android
       (Examples.propsWith [Examples.hlsSource]))))).
Defined.

(** C10 as stated fails. Both variants mount on native Android with a
    default source of type iframe and settle: both render the web player.
    The catalogue then re-types the source as 'hls' under the same id. The
    named router had recorded the fetch key together with its fallback flag,
    so its guard skips the run and it keeps the web player; the unnamed
    variant had recorded nothing for the iframe source, resolves the URL and
    renders the mobile player. Both states are reached by the same history
    of properties, and the commit meets a stale fallback. *)
Lemma C10_counterexample :
  Spec.together Examples.android
    (RouterV0.settle Examples.android (Examples.propsWith [Examples.iframeSource]))
    (Router.settle Examples.android (Examples.propsWith [Examples.iframeSource])) /\
  Spec.staleFallback Examples.android (Examples.propsWith [MoreExamples.iframeSourceRetyped])
    (Router.settle Examples.android (Examples.propsWith [Examples.iframeSource])) = true /\
  Spec.reachableV0 Examples.android
    (RouterV0.commit Examples.android (Examples.propsWith [MoreExamples.iframeSourceRetyped])
       (RouterV0.settle Examples.android (Examples.propsWith [Examples.iframeSource]))) /\
  Spec.reachable Examples.android
    (Router.commit Examples.android (Examples.propsWith [MoreExamples.iframeSourceRetyped])
       (Router.settle Examples.android (Examples.propsWith [Examples.iframeSource]))) /\
  outcome (RouterV0.render Examples.android
             (Examples.propsWith [MoreExamples.iframeSourceRetyped])
             (RouterV0.commit Examples.android
                (Examples.propsWith [MoreExamples.iframeSourceRetyped])
                (RouterV0.settle Examples.android (Examples.propsWith [Examples.iframeSource]))))
    = OMobile /\
  outcome (Router.render Examples.android
             (Examples.propsWith [MoreExamples.iframeSourceRetyped])
             (Router.commit Examples.android
                (Examples.propsWith [MoreExamples.iframeSourceRetyped])
                (Router.settle Examples.android (Examples.propsWith [Examples.iframeSource]))))
    = OShaka.
Proof.
  split; [apply settled_together | ]. split; [reflexivity | ].
  split; [apply commitV0_reachable, settleV0_reachable | ].
  split; [apply commit_reachable, settle_reachable | ].
  split; reflexivity.
Qed.

(** ** The mobile player: initialisation *)

(** Rules to run a handler step by step. *)
Lemma post_ret {A} (a : A) c Q :
  Q (MobilePlayer.Normal a) c -> Spec.post (MobilePlayer.ret a) c Q.
Proof. exact (fun H => H). Qed.

Lemma post_update f c Q :
  Q (MobilePlayer.Normal tt) (f c) -> Spec.post (MobilePlayer.update f) c Q.
Proof. exact (fun H => H). Qed.

Lemma post_get {A} (f : MobilePlayer.Cells -> A) c Q :
  Q (MobilePlayer.Normal (f c)) c -> Spec.post (MobilePlayer.get f) c Q.
Proof. exact (fun H => H). Qed.

Lemma post_call env k c Q :
  (if MobilePlayer.rejects env k
   then Q (MobilePlayer.Thrown k) (MobilePlayer.record k c)
   else Q (MobilePlayer.Normal tt) (MobilePlayer.record k c)) ->
  Spec.post (MobilePlayer.call env k) c Q.
Proof.
  unfold Spec.post, MobilePlayer.call; cbn.
  now destruct (MobilePlayer.rejects env k).
Qed.

Lemma post_bind {A B} (m : MobilePlayer.M A) (k : A -> MobilePlayer.M B) c Q :
  Spec.post m c (fun r c' =>
    match r with
    | MobilePlayer.Normal a => Spec.post (k a) c' Q
    | MobilePlayer.Thrown e => Q (MobilePlayer.Thrown e) c'
    end) ->
  Spec.post (MobilePlayer.bind m k) c Q.
Proof.
  unfold Spec.post, MobilePlayer.bind.
  now destruct (m c) as [[a | e] c'].
Qed.

Lemma post_tryCatch {A} (m : MobilePlayer.M A) (h : MobilePlayer.Call -> MobilePlayer.M A)
    c Q :
  Spec.post m c (fun r c' =>
    match r with
    | MobilePlayer.Normal a => Q (MobilePlayer.Normal a) c'
    | MobilePlayer.Thrown e => Spec.post (h e) c' Q
    end) ->
  Spec.post (MobilePlayer.tryCatch m h) c Q.
Proof.
  unfold Spec.post, MobilePlayer.tryCatch.
  now destruct (m c) as [[a | e] c'].
Qed.

Ltac cells_norm :=
  cbn [MobilePlayer.isPlaying MobilePlayer.isFullscreen MobilePlayer.isLoading
       MobilePlayer.showEpisodesPanel MobilePlayer.shakaPlayerRef MobilePlayer.videoSrc
       MobilePlayer.containerFullscreenClass MobilePlayer.bodyFullscreenClass
       MobilePlayer.timers MobilePlayer.calls MobilePlayer.record
       MobilePlayer.rejects negb
       MobilePlayer.videoPresent MobilePlayer.containerPresent
       MobilePlayer.isNativePlatform MobilePlayer.isBrowserSupported
       MobilePlayer.hasRequestFullscreen MobilePlayer.hasWebkitRequestFullscreen
       MobilePlayer.fullscreenElement MobilePlayer.hasWebkitExitFullscreen
       MobilePlayer.destroyRejects MobilePlayer.installAllThrows
       MobilePlayer.newPlayerThrows MobilePlayer.attachRejects
       MobilePlayer.configureThrows MobilePlayer.loadRejects MobilePlayer.playRejects
       MobilePlayer.lockLandscapeRejects MobilePlayer.lockPortraitRejects
       MobilePlayer.unlockRejects MobilePlayer.requestFullscreenRejects
       MobilePlayer.exitFullscreenRejects].

(** One step of a handler; a test on a flag splits the goal. *)
Ltac run_step :=
  lazymatch goal with
  | |- Spec.post (MobilePlayer.bind _ _) _ _ => apply post_bind
  | |- Spec.post (MobilePlayer.tryCatch _ _) _ _ => apply post_tryCatch
  | |- Spec.post (MobilePlayer.call _ _) _ _ => apply post_call
  | |- Spec.post (MobilePlayer.ret _) _ _ => apply post_ret
  | |- Spec.post (MobilePlayer.get _) _ _ => apply post_get
  | |- Spec.post (MobilePlayer.cleanupPlayer _) _ _ => unfold MobilePlayer.cleanupPlayer
  | |- Spec.post (MobilePlayer.nativeFallback _) _ _ => unfold MobilePlayer.nativeFallback
  | |- Spec.post (MobilePlayer.act _) _ _ => unfold MobilePlayer.act; apply post_update
  | |- Spec.post (if negb ?b then _ else _) _ _ => destruct b
  | |- Spec.post (if ?b then _ else _) _ _ => destruct b
  | |- Spec.post (match ?b with _ => _ end) _ _ => destruct b
  | |- (if ?b then _ else _) => destruct b
  | |- Spec.post _ _ _ => apply post_update
  end; cells_norm.

Ltac run := repeat run_step.

Lemma suffix_two {A} (l : list A) (x y : A) : [x; y] `suffix_of` (l ++ [x]) ++ [y].
Proof. exists l. now rewrite <- app_assoc. Qed.

Lemma nativeFallback_spec videoUrl c :
  fst (MobilePlayer.nativeFallback videoUrl c) = MobilePlayer.Normal tt /\
  MobilePlayer.videoSrc (snd (MobilePlayer.nativeFallback videoUrl c)) = Some videoUrl /\
  MobilePlayer.calls (snd (MobilePlayer.nativeFallback videoUrl c))
    = (MobilePlayer.calls c
         ++ [MobilePlayer.VideoSetSrc videoUrl; MobilePlayer.VideoLoad])%list.
Proof.
  cbn. repeat split. now rewrite <- app_assoc.
Qed.

(** The effect runs [initPlayer] when the media element is mounted and the
    URL is not empty. *)
Lemma initEffect_runs env videoUrl mode autoplay c :
  MobilePlayer.videoPresent env = true ->
  videoUrl <> "" ->
  MobilePlayer.initEffect env videoUrl mode autoplay c
    = MobilePlayer.initPlayer env videoUrl mode autoplay c.
Proof.
  intros Hv Hu. apply String.eqb_neq in Hu.
  unfold MobilePlayer.initEffect. now rewrite Hv, Hu.
Qed.

(** Every failing path of [initPlayer] ends in the plain media element. *)
Lemma initPlayer_failure env videoUrl mode autoplay c :
  mode <> Mp4 ->
  MobilePlayer.isBrowserSupported env = false \/
  MobilePlayer.attachRejects env = true \/
  MobilePlayer.loadRejects env = true ->
  Spec.post (MobilePlayer.initPlayer env videoUrl mode autoplay) c (fun r c' =>
    r = MobilePlayer.Normal tt /\
    MobilePlayer.videoSrc c' = Some videoUrl /\
    [MobilePlayer.VideoSetSrc videoUrl; MobilePlayer.VideoLoad]
      `suffix_of` MobilePlayer.calls c' /\
    MobilePlayer.isPlaying c' = MobilePlayer.isPlaying c).
Proof.
  intros Hm Hfail.
  destruct env as [vp cp nat sup rf wrf fe wef dr it nt ar ct lr pr ll lp ur rr er].
  cbn in Hfail.
  unfold MobilePlayer.initPlayer.
  destruct mode; [congruence | | ]; run;
    try (repeat split; apply suffix_two);
    destruct Hfail as [H | [H | H]]; discriminate H.
Qed.

(** C5: when the streaming player cannot be initialised (the browser is
    reported unsupported, or attach or load throws), the mobile player
    assigns the video URL to the media element's src and calls load; the
    handler completes normally, so no error reaches the user. *)
Theorem C5_init_failure_falls_back (env : MobilePlayer.Env) (videoUrl : string)
    (mode : SourceMode) (autoplay : bool) (c : MobilePlayer.Cells) :
  MobilePlayer.videoPresent env = true ->
  videoUrl <> "" ->
  mode <> Mp4 ->
  MobilePlayer.isBrowserSupported env = false \/
  MobilePlayer.attachRejects env = true \/
  MobilePlayer.loadRejects env = true ->
  fst (MobilePlayer.initEffect env videoUrl mode autoplay c) = MobilePlayer.Normal tt /\
  MobilePlayer.videoSrc (snd (MobilePlayer.initEffect env videoUrl mode autoplay c))
    = Some videoUrl /\
  [MobilePlayer.VideoSetSrc videoUrl; MobilePlayer.VideoLoad]
    `suffix_of` MobilePlayer.calls (snd (MobilePlayer.initEffect env videoUrl mode autoplay c)) /\
  MobilePlayer.isPlaying (snd (MobilePlayer.initEffect env videoUrl mode autoplay c))
    = MobilePlayer.isPlaying c.
Proof.
  intros Hv Hu Hm Hfail.
  rewrite (initEffect_runs env videoUrl mode autoplay c Hv Hu).
  exact (initPlayer_failure env videoUrl mode autoplay c Hm Hfail).
Qed.

Lemma C5_witness :
  MobilePlayer.videoSrc
    (snd (MobilePlayer.initEffect Examples.hostileEnv "https://cdn.example/ep1/master.m3u8"
            Hls false MobilePlayer.mount))
  = Some "https://cdn.example/ep1/master.m3u8".
Proof.
  refine (proj1 (proj2
    (C5_init_failure_falls_back Examples.hostileEnv "https://cdn.example/ep1/master.m3u8"
       Hls false MobilePlayer.mount eq_refl _ _ _))).
  - discriminate.
  - discriminate.
  - right. right. reflexivity.
Defined.

(** When nothing fails, the media element's src is left alone and the
    stream is loaded by the streaming player. *)
Lemma init_success_uses_player videoUrl :
  videoUrl <> "" ->
  MobilePlayer.videoSrc
    (snd (MobilePlayer.initEffect Examples.calmEnv videoUrl Hls false MobilePlayer.mount))
    = None /\
  MobilePlayer.calls
    (snd (MobilePlayer.initEffect Examples.calmEnv videoUrl Hls false MobilePlayer.mount))
    = [MobilePlayer.PolyfillInstallAll; MobilePlayer.NewPlayer; MobilePlayer.PlayerAttach;
       MobilePlayer.PlayerConfigure; MobilePlayer.PlayerLoad videoUrl].
Proof.
  intros Hu. apply String.eqb_neq in Hu.
  unfold MobilePlayer.initEffect. rewrite Hu. cbn. split; reflexivity.
Qed.

(** ** The mobile player: fullscreen *)

(** Closes a leaf of a run: the trace is brought to the form
    [calls c ++ new] and the checks on [new] are computed. *)
Ltac trace_norm :=
  unfold Spec.newCalls; cells_norm;
  rewrite <- ?app_assoc; cbn [app];
  rewrite ?drop_app_length, ?drop_all.

Lemma prefix_self_app {A} (l k : list A) : l `prefix_of` l ++ k.
Proof. now exists k. Qed.

Lemma post_takeTimers n c Q :
  Q (MobilePlayer.Normal (drop n (MobilePlayer.timers c)))
    {| MobilePlayer.isPlaying := MobilePlayer.isPlaying c;
       MobilePlayer.isFullscreen := MobilePlayer.isFullscreen c;
       MobilePlayer.isLoading := MobilePlayer.isLoading c;
       MobilePlayer.showEpisodesPanel := MobilePlayer.showEpisodesPanel c;
       MobilePlayer.shakaPlayerRef := MobilePlayer.shakaPlayerRef c;
       MobilePlayer.videoSrc := MobilePlayer.videoSrc c;
       MobilePlayer.containerFullscreenClass := MobilePlayer.containerFullscreenClass c;
       MobilePlayer.bodyFullscreenClass := MobilePlayer.bodyFullscreenClass c;
       MobilePlayer.timers := take n (MobilePlayer.timers c);
       MobilePlayer.calls := MobilePlayer.calls c |} ->
  Spec.post (Timers.takeTimers n) c Q.
Proof. exact (fun H => H). Qed.

(** One step of the timers that follow a handler. *)
Ltac timers_step :=
  lazymatch goal with
  | |- Spec.post (Timers.takeTimers _) _ _ =>
      apply post_takeTimers; cells_norm;
      rewrite ?drop_app_length, ?drop_all, ?take_app_length, ?firstn_all
  | |- Spec.post (Timers.runTasks _ _) _ _ => progress cbn [Timers.runTasks]
  | |- Spec.post (MobilePlayer.runTask _ _) _ _ => unfold MobilePlayer.runTask
  end.

(** C6, as the code has it: with the container mounted, the fullscreen
    toggle and the unlock it defers complete normally whatever is rejected,
    and the fullscreen flag takes its new value. Every rejected
    [ScreenOrientation.lock], [requestFullscreen] or [exitFullscreen] call
    is directly followed by console output. The deferred
    [ScreenOrientation.unlock] is made exactly when fullscreen is left in a
    native runtime and the portrait lock was accepted; it is then the last
    call made, so its rejection is caught but nothing is logged for it: the
    rejections of all the screen calls are logged exactly when no unlock was
    rejected. No timer is left pending. *)
Theorem C6_fullscreen_rejections_caught (env : MobilePlayer.Env) (c : MobilePlayer.Cells) :
  MobilePlayer.containerPresent env = true ->
  Spec.post (Timers.toggleThenTimers env) c (fun r c' =>
    r = MobilePlayer.Normal tt /\
    MobilePlayer.isFullscreen c' = negb (MobilePlayer.isFullscreen c) /\
    MobilePlayer.calls c `prefix_of` MobilePlayer.calls c' /\
    MobilePlayer.timers c' = MobilePlayer.timers c /\
    Spec.rejectionsLogged env Spec.isImmediateScreenCall (Spec.newCalls c c') = true /\
    existsb Spec.isUnlock (Spec.newCalls c c')
      = MobilePlayer.isFullscreen c && MobilePlayer.isNativePlatform env
        && negb (MobilePlayer.lockPortraitRejects env) /\
    (existsb Spec.isUnlock (Spec.newCalls c c') = true ->
       last (Spec.newCalls c c') = Some MobilePlayer.OrientationUnlock) /\
    Spec.rejectionsLogged env Spec.isScreenCall (Spec.newCalls c c')
      = negb (existsb Spec.isUnlock (Spec.newCalls c c')
              && MobilePlayer.unlockRejects env)).
Proof.
  intros Hc.
  destruct env as [vp cp nat sup rf wrf fe wef dr it nt ar ct lr pr ll lp ur rr er].
  cbn in Hc. subst cp.
  unfold Timers.toggleThenTimers.
  apply post_bind, post_get. cbn beta iota.
  apply post_bind. unfold MobilePlayer.toggleFullscreen. cells_norm.
  repeat first [run_step | timers_step]; trace_norm;
    (split; [reflexivity | split; [reflexivity | split; [apply prefix_self_app | ]]]);
    repeat split; try reflexivity; try discriminate.
Qed.

Lemma C6_witness :
  MobilePlayer.isFullscreen
    (snd (Timers.toggleThenTimers Examples.hostileEnv MobilePlayer.mount)) = true.
Proof.
  exact (proj1 (proj2
    (C6_fullscreen_rejections_caught Examples.hostileEnv MobilePlayer.mount eq_refl))).
Defined.

(** C6 as stated fails: fullscreen is left in a native runtime in which
    only [ScreenOrientation.unlock] is rejected. The rejected unlock is the
    last call made: it is caught, and nothing is logged. *)
Lemma C6_counterexample :
  fst (Timers.toggleThenTimers MoreExamples.unlockFailsEnv MoreExamples.inFullscreen)
    = MobilePlayer.Normal tt /\
  MobilePlayer.calls
    (snd (Timers.toggleThenTimers MoreExamples.unlockFailsEnv MoreExamples.inFullscreen))
    = [MobilePlayer.ConsoleLog "[MobilePlayer] Exiting fullscreen";
       MobilePlayer.ExitFullscreen;
       MobilePlayer.OrientationLock MobilePlayer.Portrait;
       MobilePlayer.SetTimeout 500;
       MobilePlayer.OrientationUnlock] /\
  MobilePlayer.rejects MoreExamples.unlockFailsEnv MobilePlayer.OrientationUnlock = true /\
  Spec.rejectionsLogged MoreExamples.unlockFailsEnv Spec.isScreenCall
    (Spec.newCalls MoreExamples.inFullscreen
       (snd (Timers.toggleThenTimers MoreExamples.unlockFailsEnv MoreExamples.inFullscreen)))
    = false.
Proof. repeat split. Qed.

(** With every screen call rejected, entering fullscreen records both
    rejections and their console output. *)
Lemma hostile_enter_trace :
  MobilePlayer.calls
    (snd (MobilePlayer.toggleFullscreen Examples.hostileEnv MobilePlayer.mount))
  = [MobilePlayer.ConsoleLog "[MobilePlayer] Entering fullscreen";
     MobilePlayer.OrientationLock MobilePlayer.Landscape;
     MobilePlayer.ConsoleWarn "[MobilePlayer] Orientation lock failed:";
     MobilePlayer.RequestFullscreen;
     MobilePlayer.ConsoleLog "[MobilePlayer] Web fullscreen not available"].
Proof. reflexivity. Qed.

(** The unlock that leaving fullscreen defers is caught as well, but
    silently: a rejected unlock leaves no console output. *)
Lemma deferred_unlock_is_silent env c :
  fst (MobilePlayer.runTask env MobilePlayer.UnlockLater c) = MobilePlayer.Normal tt /\
  MobilePlayer.calls (snd (MobilePlayer.runTask env MobilePlayer.UnlockLater c))
    = MobilePlayer.calls c ++ [MobilePlayer.OrientationUnlock].
Proof.
  unfold MobilePlayer.runTask, MobilePlayer.tryCatch, MobilePlayer.call; cbn.
  destruct (MobilePlayer.unlockRejects env); cbn; split; reflexivity.
Qed.

(** ** The mobile player inside the router *)

Lemma deliver_no_parent_call p c tr :
  forallb (fun k => negb (Spec.isParentCall k)) tr = true ->
  foldl (System.deliver p) c tr = c.
Proof.
  revert c. induction tr as [ | k tr IH]; intros c; cbn; [reflexivity | ].
  intros H. apply andb_prop in H as [Hk H].
  rewrite IH by assumption. now destruct k.
Qed.

(** What one run of the "Initialize video" effect adds to the trace: no call
    into the parent, at most one load by the streaming player and at most
    one load of the media element. *)
Lemma init_new_calls env videoUrl mode autoplay c :
  Spec.post (MobilePlayer.initEffect env videoUrl mode autoplay) c (fun _ c' =>
    forallb (fun k => negb (Spec.isParentCall k)) (Spec.newCalls c c') = true /\
    (length (List.filter Spec.isPlayerLoad (Spec.newCalls c c')) <= 1)%nat /\
    (length (List.filter Spec.isVideoLoad (Spec.newCalls c c')) <= 1)%nat).
Proof.
  destruct env as [vp cp nat sup rf wrf fe wef dr it nt ar ct lr pr ll lp ur rr er].
  unfold MobilePlayer.initEffect, MobilePlayer.initPlayer. cells_norm.
  destruct (negb vp || String.eqb videoUrl "");
    [ | destruct mode ]; run; trace_norm; cbn; repeat split; lia.
Qed.

(** C2, as the code has it: a failure while the mobile player initialises
    its stream never reaches the router. The mobile player makes no call
    into the router, so the router's cells and what it renders stay as they
    were (the mobile path, if it was selected); the recovery is the mobile
    player's own, single fallback to the plain media element; and one run
    of the initialisation attempts at most one stream load and at most one
    load of the media element, so nothing is retried. *)
Theorem C2_init_failure_stays_on_mobile_path (env : MobilePlayer.Env) (f : Flags)
    (p : Props) (s : System.State) :
  System.router (System.initMobile env f p s) = System.router s /\
  Router.render f p (System.router (System.initMobile env f p s))
    = Router.render f p (System.router s) /\
  (length (List.filter Spec.isPlayerLoad
             (Spec.newCalls (System.player s)
                (System.player (System.initMobile env f p s)))) <= 1)%nat /\
  (length (List.filter Spec.isVideoLoad
             (Spec.newCalls (System.player s)
                (System.player (System.initMobile env f p s)))) <= 1)%nat /\
  (forall mp,
     Router.render f p (System.router s) = MobileVideoPlayer mp ->
     MobilePlayer.videoPresent env = true ->
     m_sourceType mp <> Mp4 ->
     MobilePlayer.isBrowserSupported env = false \/
     MobilePlayer.attachRejects env = true \/
     MobilePlayer.loadRejects env = true ->
     MobilePlayer.videoSrc (System.player (System.initMobile env f p s))
       = Some (m_videoUrl mp)).
Proof.
  assert (System.router (System.initMobile env f p s) = System.router s /\
          (length (List.filter Spec.isPlayerLoad
             (Spec.newCalls (System.player s)
                (System.player (System.initMobile env f p s)))) <= 1)%nat /\
          (length (List.filter Spec.isVideoLoad
             (Spec.newCalls (System.player s)
                (System.player (System.initMobile env f p s)))) <= 1)%nat)
    as (Hrouter & Hone & Hone').
  { unfold System.initMobile.
    destruct (Router.render f p (System.router s)) as [ | mp | sp];
      try (unfold Spec.newCalls; rewrite drop_all; cbn; repeat split; lia).
    unfold System.runPlayer; cbn.
    destruct (init_new_calls env (m_videoUrl mp) (m_sourceType mp) (m_autoplay mp)
                (System.player s)) as (Hnp & H1 & H2).
    repeat split; [now apply deliver_no_parent_call | assumption | assumption]. }
  repeat split; [assumption | now rewrite Hrouter | assumption | assumption | ].
  intros mp Hr Hv Hm Hfail.
  unfold System.initMobile. rewrite Hr. unfold System.runPlayer; cbn.
  apply render_mobile_props in Hr as (_ & _ & _ & Hu).
  rewrite (initEffect_runs env _ _ _ _ Hv Hu).
  now destruct (initPlayer_failure env (m_videoUrl mp) (m_sourceType mp) (m_autoplay mp)
                  (System.player s) Hm Hfail) as (_ & Hsrc & _).
Qed.

Lemma C2_witness :
  MobilePlayer.videoSrc
    (System.player
       (System.initMobile Examples.hostileEnv Examples.android
          (Examples.propsWith [Examples.hlsSource]) Examples.mobilePath))
  = Some "https://cdn.example/ep1/master.m3u8".
Proof.
  refine (proj2 (proj2 (proj2 (proj2
    (C2_init_failure_stays_on_mobile_path Examples.hostileEnv Examples.android
       (Examples.propsWith [Examples.hlsSource]) Examples.mobilePath))))
    (Examples.mobileElementOf
       (Router.render Examples.android (Examples.propsWith [Examples.hlsSource])
          (System.router Examples.mobilePath))) eq_refl eq_refl _ _).
  - discriminate.
  - right. right. reflexivity.
Defined.

(** C2 as stated fails: the router has selected the mobile player, the
    stream fails to load, and the router still renders the mobile player,
    not the web player. *)
Lemma C2_counterexample :
  outcome (Router.render Examples.android (Examples.propsWith [Examples.hlsSource])
             (System.router Examples.mobilePath)) = OMobile /\
  MobilePlayer.loadRejects Examples.hostileEnv = true /\
  outcome (Router.render Examples.android (Examples.propsWith [Examples.hlsSource])
             (System.router
                (System.initMobile Examples.hostileEnv Examples.android
                   (Examples.propsWith [Examples.hlsSource]) Examples.mobilePath)))
    <> OShaka.
Proof. repeat split. discriminate. Qed.

(** ** The router's inputs are read, never written *)

Lemma bind_run {A B} (m : Store.W A) (k : A -> Store.W B) w a w1 :
  m w = (a, w1) -> Store.bind m k w = k a w1.
Proof. intros H. unfold Store.bind. now rewrite H. Qed.

Lemma world_eta w : {| Store.heap := Store.heap w; Store.cells := Store.cells w |} = w.
Proof. now destruct w. Qed.

(** Reading leaves the world as it is and returns what the heap holds. *)
Lemma elements_run a w :
  Store.elements a w = (Store.elementsAt (Store.heap w) a, w).
Proof. reflexivity. Qed.

Lemma readEach_run {A} (as_ : Store.Obj -> option A) ls w :
  Store.readEach as_ ls w = (omap (fun l => Store.heap w !! l ≫= as_) ls, w).
Proof.
  induction ls as [ | l ls IH]; [reflexivity | ].
  cbn [Store.readEach].
  rewrite (bind_run (Store.load l) _ w (Store.heap w !! l) w eq_refl).
  rewrite (bind_run _ _ w _ w IH).
  cbn. now destruct (Store.heap w !! l ≫= as_).
Qed.

Lemma readSources_run a w :
  Store.readSources a w = (Store.sourcesAt (Store.heap w) a, w).
Proof.
  unfold Store.readSources.
  rewrite (bind_run _ _ w _ w (elements_run a w)).
  apply readEach_run.
Qed.

Lemma readEpisodes_run a w :
  Store.readEpisodes a w = (Store.episodesAt (Store.heap w) <$> a, w).
Proof.
  destruct a as [a | ]; [ | reflexivity].
  unfold Store.readEpisodes.
  rewrite (bind_run _ _ w _ w (elements_run a w)).
  now rewrite (bind_run _ _ w _ w (readEach_run Store.asEpisode _ w)).
Qed.

(** Over the heap, a render returns what the router renders for the values
    the inputs hold, and changes nothing. *)
Lemma render_run f i w :
  Store.render f i w
  = (Router.render f (Store.view (Store.heap w) i) (Store.cells w), w).
Proof.
  unfold Store.render.
  rewrite (bind_run _ _ w _ w (readSources_run _ w)).
  now rewrite (bind_run _ _ w _ w (readEpisodes_run _ w)).
Qed.

(** The handler and the two effects leave the heap as it is and change the
    cells as they do on the values the inputs hold. *)
Lemma handleEpisodeSelect_run i episodeId w :
  Store.handleEpisodeSelect i episodeId w
  = (snd (Router.handleEpisodeSelect (Store.view (Store.heap w) i) episodeId),
     {| Store.heap := Store.heap w;
        Store.cells :=
          fst (Router.handleEpisodeSelect (Store.view (Store.heap w) i) episodeId)
            (Store.cells w) |}).
Proof.
  unfold Store.handleEpisodeSelect, Router.handleEpisodeSelect. cbn.
  destruct (onEpisodeSelect (Store.scalars i)); [reflexivity | ].
  cbn. now rewrite world_eta.
Qed.

Lemma resetEffect_run i w :
  Store.resetEffect i w
  = (tt, {| Store.heap := Store.heap w;
            Store.cells :=
              Router.resetEffect (Store.view (Store.heap w) i) (Store.cells w) |}).
Proof.
  unfold Store.resetEffect, Router.resetEffect. cbn.
  destruct (JS.strict_neq _ _); [reflexivity | ].
  cbn. now rewrite world_eta.
Qed.

Lemma resolveEffect_run f i r w :
  Store.resolveEffect f i r w
  = (tt, {| Store.heap := Store.heap w;
            Store.cells :=
              Router.resolveEffect f (Store.view (Store.heap w) i) r (Store.cells w) |}).
Proof.
  unfold Store.resolveEffect, Router.resolveEffect.
  destruct (negb (isNative f) || negb (isAndroid f));
    [cbn; now rewrite world_eta | ].
  rewrite (bind_run _ _ w _ w (readSources_run _ w)).
  change (videoSources (Store.view (Store.heap w) i))
    with (Store.sourcesAt (Store.heap w) (Store.sourcesRef i)).
  destruct (defaultSource (Store.sourcesAt (Store.heap w) (Store.sourcesRef i)))
    as [src | ]; [ | reflexivity].
  change (fetchKey (Store.view (Store.heap w) i) src)
    with (fetchKey (Store.scalars i) src).
  rewrite (bind_run Store.getCells _ w (Store.cells w) w eq_refl).
  destruct (Router.alreadyFetched r (Store.cells w) (fetchKey (Store.scalars i) src));
    [reflexivity | ].
  unfold Router.resolveUrl.
  destruct (Router.isFrameSource (sourceTypeOf src)); [reflexivity | ].
  destruct (JS.truthy (url src)); [reflexivity | ].
  destruct (quality_urls src) as [q | ]; [ | reflexivity].
  destruct (JS.truthy (firstQualityUrl q)); reflexivity.
Qed.

(** An assignment to an object is seen by whoever reads the object
    afterwards: it is the one operation of the store that does not keep
    what the heap held, and no operation of the router makes it. *)
Lemma assign_is_seen l o o' w :
  Store.heap w !! l = Some o -> o' <> o ->
  Store.heap (snd (Store.assign l o' w)) !! l = Some o' /\
  Store.heap (snd (Store.assign l o' w)) !! l <> Some o.
Proof.
  intros _ Hne. cbn. rewrite lookup_insert_eq. split; [reflexivity | congruence].
Qed.

Lemma mapEpisodes_cons e eps w :
  Store.mapEpisodes (e :: eps) w =
  (fresh (dom (Store.heap w))
     :: fst (Store.mapEpisodes eps
               {| Store.heap :=
                    <[fresh (dom (Store.heap w))
                        := Store.PlayerEpisodeObj (toPlayerEpisode e)]> (Store.heap w);
                  Store.cells := Store.cells w |}),
   snd (Store.mapEpisodes eps
          {| Store.heap :=
               <[fresh (dom (Store.heap w))
                   := Store.PlayerEpisodeObj (toPlayerEpisode e)]> (Store.heap w);
             Store.cells := Store.cells w |})).
Proof.
  cbn [Store.mapEpisodes]. unfold Store.bind, Store.new, Store.ret.
  now destruct (Store.mapEpisodes eps _).
Qed.

(** [episodes.map] only adds objects: what was in the heap stays, the cells
    stay, the new addresses were unused and are pairwise distinct, and they
    hold the converted episodes in order. *)
Lemma mapEpisodes_spec eps : forall w,
  Store.heap w ⊆ Store.heap (snd (Store.mapEpisodes eps w)) /\
  Store.cells (snd (Store.mapEpisodes eps w)) = Store.cells w /\
  (forall l, l ∈ fst (Store.mapEpisodes eps w) -> Store.heap w !! l = None) /\
  NoDup (fst (Store.mapEpisodes eps w)) /\
  (forall l, l ∈ fst (Store.mapEpisodes eps w) ->
     is_Some (Store.heap (snd (Store.mapEpisodes eps w)) !! l)) /\
  omap (Store.playerEpisodeAt (Store.heap (snd (Store.mapEpisodes eps w))))
    (fst (Store.mapEpisodes eps w))
    = map toPlayerEpisode eps.
Proof.
  induction eps as [ | e eps IH]; intros w.
  - cbn. split; [reflexivity | ]. split; [reflexivity | ].
    split; [intros l Hl; inversion Hl | ].
    split; [constructor | ].
    split; [intros l Hl; inversion Hl | reflexivity].
  - rewrite mapEpisodes_cons. cbn [fst snd].
    assert (Store.heap w !! fresh (dom (Store.heap w)) = None) as Hfresh
      by apply not_elem_of_dom, is_fresh.
    set (l := fresh (dom (Store.heap w))) in *.
    set (o := Store.PlayerEpisodeObj (toPlayerEpisode e)).
    set (w1 := {| Store.heap := <[l := o]> (Store.heap w); Store.cells := Store.cells w |}).
    destruct (IH w1) as (Hsub & Hcells & Hnew & Hnd & Hin & Hat).
    set (ls := fst (Store.mapEpisodes eps w1)) in *.
    set (w2 := snd (Store.mapEpisodes eps w1)) in *.
    cbn [Store.heap Store.cells w1] in Hsub, Hcells, Hnew.
    assert (Store.heap w ⊆ Store.heap w2) as Hsub'.
    { transitivity (<[l := o]> (Store.heap w)); [now apply insert_subseteq | assumption]. }
    assert (Store.heap w2 !! l = Some o) as Hl2.
    { apply (lookup_weaken (<[l := o]> (Store.heap w))); [apply lookup_insert_eq | assumption]. }
    assert (l ∉ ls) as Hl.
    { intros Hi. specialize (Hnew l Hi). now rewrite lookup_insert_eq in Hnew. }
    split; [assumption | ]. split; [assumption | ].
    split.
    { intros l' Hi. apply elem_of_cons in Hi as [-> | Hi]; [assumption | ].
      specialize (Hnew l' Hi). apply lookup_insert_None in Hnew. tauto. }
    split; [now constructor | ].
    split.
    { intros l' Hi. apply elem_of_cons in Hi as [-> | Hi]; [now rewrite Hl2 | now apply Hin]. }
    cbn [omap list_omap]. unfold Store.playerEpisodeAt at 1. rewrite Hl2. cbn.
    now f_equal.
Qed.

Lemma omap_weaken {A} (g g' : nat -> option A) (ls : list nat) :
  (forall l, l ∈ ls -> g' l = g l) -> omap g' ls = omap g ls.
Proof.
  induction ls as [ | l ls IH]; intros H; [reflexivity | ].
  cbn [omap list_omap]. rewrite (H l) by left.
  rewrite IH; [reflexivity | ]. intros l' Hl'. apply H. now right.
Qed.

(** The memoised conversion returns a new array of new objects. *)
Lemma memoEpisodes_spec i w :
  Store.heap w ⊆ Store.heap (snd (Store.memoEpisodes i w)) /\
  Store.cells (snd (Store.memoEpisodes i w)) = Store.cells w /\
  Store.heap w !! fst (Store.memoEpisodes i w) = None /\
  Store.heap (snd (Store.memoEpisodes i w)) !! fst (Store.memoEpisodes i w)
    = Some (Store.ArrayObj
              (Store.elementsAt (Store.heap (snd (Store.memoEpisodes i w)))
                 (fst (Store.memoEpisodes i w)))) /\
  NoDup (Store.elementsAt (Store.heap (snd (Store.memoEpisodes i w)))
           (fst (Store.memoEpisodes i w))) /\
  (forall l,
     l ∈ Store.elementsAt (Store.heap (snd (Store.memoEpisodes i w)))
           (fst (Store.memoEpisodes i w)) ->
     Store.heap w !! l = None) /\
  Store.playerEpisodesAt (Store.heap (snd (Store.memoEpisodes i w)))
    (fst (Store.memoEpisodes i w))
    = playerEpisodes (Store.view (Store.heap w) i).
Proof.
  unfold Store.memoEpisodes.
  rewrite (bind_run _ _ w _ w (readEpisodes_run _ w)).
  unfold playerEpisodes, Store.view, Store.playerEpisodesAt, Store.elementsAt.
  cbn [episodes Store.withLists].
  destruct (Store.episodesRef i) as [a | ]; cbn [fmap option_fmap option_map].
  - destruct (mapEpisodes_spec (Store.episodesAt (Store.heap w) a) w)
      as (Hsub & Hcells & Hnew & Hnd & Hin & Hat).
    unfold Store.bind.
    destruct (Store.mapEpisodes (Store.episodesAt (Store.heap w) a) w) as [ls w2].
    cbn [fst snd] in *. unfold Store.new. cbn [fst snd Store.heap Store.cells].
    assert (Store.heap w2 !! fresh (dom (Store.heap w2)) = None) as Hfresh
      by apply not_elem_of_dom, is_fresh.
    set (pe := fresh (dom (Store.heap w2))) in *.
    rewrite lookup_insert_eq. cbn.
    split; [transitivity (Store.heap w2); [assumption | now apply insert_subseteq] | ].
    split; [assumption | ].
    split.
    { destruct (Store.heap w !! pe) as [o | ] eqn:E; [ | reflexivity].
      now rewrite (lookup_weaken _ _ pe o E Hsub) in Hfresh. }
    split; [reflexivity | ]. split; [assumption | ]. split; [assumption | ].
    rewrite <- Hat. apply omap_weaken. intros l Hl.
    assert (l <> pe) as Hne.
    { intros ->. destruct (Hin pe Hl) as [o Ho]. congruence. }
    unfold Store.playerEpisodeAt. now rewrite lookup_insert_ne by congruence.
  - unfold Store.new. cbn [fst snd Store.heap Store.cells].
    assert (Store.heap w !! fresh (dom (Store.heap w)) = None) as Hfresh
      by apply not_elem_of_dom, is_fresh.
    rewrite lookup_insert_eq. cbn.
    split; [now apply insert_subseteq | ].
    split; [reflexivity | ]. split; [assumption | ].
    split; [reflexivity | ]. split; [constructor | ].
    split; [intros l Hl; inversion Hl | reflexivity].
Qed.

(** Reading well-formed inputs through a larger heap gives the same
    values. *)
Lemma view_weaken (h h' : gmap nat Store.Obj) i :
  h ⊆ h' -> Store.wellFormed h i ->
  Store.wellFormed h' i /\ Store.view h' i = Store.view h i.
Proof.
  intros Hsub [(vs & Hvs & Hs) He].
  assert (forall l o, h !! l = Some o -> h' !! l = Some o) as Hup
    by (intros l o Hl; exact (lookup_weaken h h' l o Hl Hsub)).
  assert (forall (A : Type) (as_ : Store.Obj -> option A) l,
            is_Some (h !! l ≫= as_) -> h' !! l ≫= as_ = h !! l ≫= as_) as Hkeep.
  { intros A as_ l [x Hx]. destruct (h !! l) as [o | ] eqn:E; [ | discriminate].
    now rewrite (Hup l o E). }
  split; [split | ].
  - exists vs. split; [now apply Hup | ].
    intros l Hl. unfold Store.sourceAt. rewrite Hkeep; now apply Hs.
  - intros a Ha. destruct (He a Ha) as (es & Hes & Hel).
    exists es. split; [now apply Hup | ].
    intros l Hl. unfold Store.episodeAt. rewrite Hkeep; now apply Hel.
  - unfold Store.view. f_equal.
    + unfold Store.sourcesAt, Store.elementsAt. rewrite Hvs, (Hup _ _ Hvs). cbn.
      apply omap_weaken. intros l Hl. apply Hkeep. now apply Hs.
    + destruct (Store.episodesRef i) as [a | ]; [ | reflexivity]. cbn. f_equal.
      destruct (He a eq_refl) as (es & Hes & Hel).
      unfold Store.episodesAt, Store.elementsAt. rewrite Hes, (Hup _ _ Hes). cbn.
      apply omap_weaken. intros l Hl. apply Hkeep. now apply Hel.
Qed.

(** What each operation does to the heap. *)
Lemma run_heap f i op w :
  Store.heap w ⊆ Store.heap (snd (Store.run f i op w)) /\
  (op <> Store.MemoEpisodes -> Store.heap (snd (Store.run f i op w)) = Store.heap w).
Proof.
  destruct op as [ | | episodeId | | r]; cbn [Store.run].
  - rewrite (bind_run _ _ w _ w (render_run f i w)). split; reflexivity.
  - split; [ | congruence].
    unfold Store.bind. destruct (memoEpisodes_spec i w) as (Hsub & _).
    now destruct (Store.memoEpisodes i w).
  - rewrite (bind_run _ _ w _ _ (handleEpisodeSelect_run i episodeId w)).
    split; reflexivity.
  - rewrite resetEffect_run. split; reflexivity.
  - rewrite resolveEffect_run. split; reflexivity.
Qed.

(** C7: no operation of the router (a render, the memoised episode
    conversion, the episode handler, the two effects) changes an object
    that was in the heap before it, so no element of videoSources or of
    episodes, and neither array, is mutated, and the inputs read the same
    afterwards. The episode list handed to the players is a new array,
    at an address not in use before, of new, pairwise distinct objects that
    hold the converted episodes in order; the conversion changes no cell.
    A render changes nothing at all. The handler and the two effects leave
    the heap as it is: all they change are the component's own cells, and
    they change them as the router does on the values the inputs hold. *)
Theorem C7_inputs_are_not_mutated (f : Flags) (i : Store.Inputs) (w : Store.World) :
  Store.wellFormed (Store.heap w) i ->
  (forall op,
     (forall l o, Store.heap w !! l = Some o ->
                  Store.heap (snd (Store.run f i op w)) !! l = Some o) /\
     Store.wellFormed (Store.heap (snd (Store.run f i op w))) i /\
     Store.view (Store.heap (snd (Store.run f i op w))) i = Store.view (Store.heap w) i /\
     (op <> Store.MemoEpisodes ->
        Store.heap (snd (Store.run f i op w)) = Store.heap w)) /\
  (Store.heap w !! fst (Store.memoEpisodes i w) = None /\
   Store.cells (snd (Store.memoEpisodes i w)) = Store.cells w /\
   Store.heap (snd (Store.memoEpisodes i w)) !! fst (Store.memoEpisodes i w)
     = Some (Store.ArrayObj
               (Store.elementsAt (Store.heap (snd (Store.memoEpisodes i w)))
                  (fst (Store.memoEpisodes i w)))) /\
   NoDup (Store.elementsAt (Store.heap (snd (Store.memoEpisodes i w)))
            (fst (Store.memoEpisodes i w))) /\
   (forall l,
      l ∈ Store.elementsAt (Store.heap (snd (Store.memoEpisodes i w)))
            (fst (Store.memoEpisodes i w)) ->
      Store.heap w !! l = None) /\
   Store.playerEpisodesAt (Store.heap (snd (Store.memoEpisodes i w)))
     (fst (Store.memoEpisodes i w))
     = playerEpisodes (Store.view (Store.heap w) i)) /\
  Store.render f i w
    = (Router.render f (Store.view (Store.heap w) i) (Store.cells w), w) /\
  (forall episodeId,
     Store.handleEpisodeSelect i episodeId w
     = (snd (Router.handleEpisodeSelect (Store.view (Store.heap w) i) episodeId),
        {| Store.heap := Store.heap w;
           Store.cells :=
             fst (Router.handleEpisodeSelect (Store.view (Store.heap w) i) episodeId)
               (Store.cells w) |})) /\
  Store.resetEffect i w
    = (tt, {| Store.heap := Store.heap w;
              Store.cells :=
                Router.resetEffect (Store.view (Store.heap w) i) (Store.cells w) |}) /\
  (forall r,
     Store.resolveEffect f i r w
     = (tt, {| Store.heap := Store.heap w;
               Store.cells :=
                 Router.resolveEffect f (Store.view (Store.heap w) i) r
                   (Store.cells w) |})).
Proof.
  intros Hwf.
  split; [ | split; [ | split; [ | split; [ | split]]]].
  - intros op. destruct (run_heap f i op w) as [Hsub Hsame].
    destruct (view_weaken _ _ i Hsub Hwf) as [Hwf' Hview].
    split; [ | split; [assumption | split; assumption]].
    intros l o Hl. exact (lookup_weaken _ _ l o Hl Hsub).
  - destruct (memoEpisodes_spec i w) as (_ & Hc & Hpe & Harr & Hnd & Hnew & Hat).
    repeat split; assumption.
  - apply render_run.
  - intros episodeId. apply handleEpisodeSelect_run.
  - apply resetEffect_run.
  - intros r. apply resolveEffect_run.
Qed.

Lemma C7_witness :
  Store.playerEpisodesAt
    (Store.heap (snd (Store.memoEpisodes Examples.inputs0 Examples.world0)))
    (fst (Store.memoEpisodes Examples.inputs0 Examples.world0))
  = playerEpisodes (Store.view (Store.heap Examples.world0) Examples.inputs0).
Proof.
  refine (proj2 (proj2 (proj2 (proj2 (proj2 (proj1 (proj2
    (C7_inputs_are_not_mutated Examples.android Examples.inputs0 Examples.world0 _)))))))).
  split.
  - exists [0%nat]. split; [vm_compute; reflexivity | ].
    intros l Hl. apply list_elem_of_singleton in Hl as ->. vm_compute. eauto.
  - intros a [= <-]. exists [1%nat]. split; [vm_compute; reflexivity | ].
    intros l Hl. apply list_elem_of_singleton in Hl as ->. vm_compute. eauto.
Defined.

(** The web player is selected on native Android by the URL resolution
    alone: the handler and the reset effect clear the fallback flag. *)
Lemma fallback_cleared_by_handlers p episodeId c :
  onEpisodeSelect p = true ->
  Router.useShakafallback (fst (Router.handleEpisodeSelect p episodeId) c) = false.
Proof. intros H. unfold Router.handleEpisodeSelect. now rewrite H. Qed.

Lemma C9_witness :
  isNative (useNativeMobile Examples.androidBridge) = true.
Proof.
  exact (proj1 (C9_platform_predicates Examples.androidBridge) eq_refl).
Defined.

(** * Further properties of the router *)

(** X1: on native Android, when the episode id differs from the one of the
    previous commit, the commit resolves the default source afresh whatever
    the cells held: the URL, the fallback flag and the last fetched key are
    those of the new source, the loading flag is clear and the previous
    episode id is updated, so no URL of the old episode survives. *)
Theorem X1_episode_change_reresolves (f : Flags) (p : Props) (r : Router.Cells)
    (src : VideoSource) :
  isNative f = true ->
  isAndroid f = true ->
  JS.strict_neq (Router.prevEpisodeIdRef r) (currentEpisodeId p) = true ->
  defaultSource (videoSources p) = Some src ->
  Router.mobileVideoUrl (Router.commit f p r) = Spec.resolvedUrl src /\
  Router.useShakafallback (Router.commit f p r)
    = negb (JS.truthy (Spec.resolvedUrl src)) /\
  Router.isLoadingMobileUrl (Router.commit f p r) = false /\
  Router.lastFetchedRef (Router.commit f p r) = Some (fetchKey p src) /\
  Router.prevEpisodeIdRef (Router.commit f p r) = currentEpisodeId p /\
  Router.render f p (Router.commit f p r) =
    match Spec.resolvedUrl src with
    | Some u => mobileElement p u (Router.mobileSourceType (Router.commit f p r))
    | None => Router.shakaElement p
    end.
Proof.
  intros Hn Ha Hne Hs.
  unfold Router.commit, Router.seq, Router.resetEffect. rewrite Hne.
  match goal with
  | |- context [Router.resolveEffect f p r ?x] => set (c1 := x)
  end.
  assert (Router.alreadyFetched r c1 (fetchKey p src) = false) as Hg by reflexivity.
  destruct (resolve_fresh_cells f p r c1 src Hn Ha Hs Hg) as (Hu & Hf & Hl & Hk & _).
  repeat split; try assumption.
  - now rewrite resolve_keeps_prev.
  - now apply render_resolved.
Qed.

Lemma X1_witness :
  Router.mobileVideoUrl
    (Router.commit Examples.android (MoreExamples.propsEpisode2 [Examples.dashSource])
       (Router.settle Examples.android (Examples.propsWith [Examples.hlsSource])))
  = Some "https://cdn.example/ep1/720.mpd".
Proof.
  exact (proj1
    (X1_episode_change_reresolves Examples.android
       (MoreExamples.propsEpisode2 [Examples.dashSource])
       (Router.settle Examples.android (Examples.propsWith [Examples.hlsSource]))
       Examples.dashSource eq_refl eq_refl eq_refl eq_refl)).
Defined.

(** X2: [handleEpisodeSelect] with the callback supplied calls it exactly
    once with the episode id, forgets the URL and the last fetched key and
    clears the fallback flag, so that on native Android the spinner is
    rendered whatever was shown before; the stored mode and the previous
    episode id are kept. Without the callback it changes nothing and calls
    nothing. *)
Theorem X2_episode_select_makes_pending (f : Flags) (p : Props) (episodeId : string)
    (c : Router.Cells) :
  (onEpisodeSelect p = true ->
     snd (Router.handleEpisodeSelect p episodeId) = [Router.CallOnEpisodeSelect episodeId] /\
     Router.mobileVideoUrl (fst (Router.handleEpisodeSelect p episodeId) c) = None /\
     Router.lastFetchedRef (fst (Router.handleEpisodeSelect p episodeId) c) = None /\
     Router.useShakafallback (fst (Router.handleEpisodeSelect p episodeId) c) = false /\
     Router.mobileSourceType (fst (Router.handleEpisodeSelect p episodeId) c)
       = Router.mobileSourceType c /\
     Router.prevEpisodeIdRef (fst (Router.handleEpisodeSelect p episodeId) c)
       = Router.prevEpisodeIdRef c /\
     (isNative f && isAndroid f = true ->
        Router.render f p (fst (Router.handleEpisodeSelect p episodeId) c)
          = LoadingSpinner)) /\
  (onEpisodeSelect p = false ->
     snd (Router.handleEpisodeSelect p episodeId) = [] /\
     fst (Router.handleEpisodeSelect p episodeId) c = c).
Proof.
  unfold Router.handleEpisodeSelect. split; intros ->; cbn.
  - repeat split. intros Ha. unfold Router.render; cbn. now rewrite Ha.
  - split; reflexivity.
Qed.

(** X3: the already-fetched guard keeps what was resolved. Once the router
    has settled on a default source, new properties with the same episode
    id and the same fetch key (the same episode or movie and the same
    source id) change nothing, even if the source now carries another URL
    or type: the commit leaves every cell as it was. *)
Theorem X3_same_key_is_not_resolved_again (f : Flags) (p p' : Props)
    (src src' : VideoSource) :
  isNative f = true ->
  isAndroid f = true ->
  defaultSource (videoSources p) = Some src ->
  defaultSource (videoSources p') = Some src' ->
  currentEpisodeId p' = currentEpisodeId p ->
  fetchKey p' src' = fetchKey p src ->
  Router.commit f p' (Router.settle f p) = Router.settle f p.
Proof.
  intros Hn Ha Hs Hs' He Hk.
  unfold Router.commit, Router.seq.
  rewrite reset_idle
    by (rewrite settle_eq, !resolve_keeps_prev, He; reflexivity).
  destruct (settled_cells f p src Hn Ha Hs) as (Hu & Hf & Hl & _).
  pose proof (settled_key f p src Hn Ha Hs) as Hkey.
  rewrite (resolve_skipped f p' _ _ src' Hn Ha Hs').
  - now apply setIsLoading_same.
  - unfold Router.alreadyFetched. rewrite Hk, Hkey, Hu, Hf; cbn.
    rewrite String.eqb_refl. now destruct (JS.truthy (Spec.resolvedUrl src)).
Qed.

Lemma X3_witness :
  Router.mobileVideoUrl
    (Router.commit Examples.android (Examples.propsWith [MoreExamples.hlsSourceMoved])
       (Router.settle Examples.android (Examples.propsWith [Examples.hlsSource])))
  = Some "https://cdn.example/ep1/master.m3u8".
Proof.
  rewrite (X3_same_key_is_not_resolved_again Examples.android
             (Examples.propsWith [Examples.hlsSource])
             (Examples.propsWith [MoreExamples.hlsSourceMoved])
             Examples.hlsSource MoreExamples.hlsSourceMoved
             eq_refl eq_refl eq_refl eq_refl eq_refl eq_refl).
  reflexivity.
Defined.

(** X4: in every state the router can reach, the fallback flag and a URL
    are never both set and a set loading flag means neither is; hence the
    mobile player is rendered exactly when the platform is native Android
    and a URL is held, and the spinner exactly when the platform is native
    Android and the loading flag is set. *)
Theorem X4_reachable_rendering (f : Flags) (p : Props) (c : Router.Cells) :
  Spec.reachable f c ->
  (Router.useShakafallback c = true -> JS.truthy (Router.mobileVideoUrl c) = false) /\
  (Router.isLoadingMobileUrl c = true ->
     JS.truthy (Router.mobileVideoUrl c) = false /\ Router.useShakafallback c = false) /\
  (outcome (Router.render f p c) = OMobile <->
     isNative f && isAndroid f = true /\ JS.truthy (Router.mobileVideoUrl c) = true) /\
  (outcome (Router.render f p c) = OSpinner <->
     isNative f && isAndroid f = true /\ Router.isLoadingMobileUrl c = true).
Proof.
  intros Hr. destruct (reachable_invariant f c Hr) as [I1 I2].
  split; [exact I2 | split; [exact I1 | ]].
  rewrite outcome_render.
  destruct (isNative f && isAndroid f), (Router.useShakafallback c),
    (JS.truthy (Router.mobileVideoUrl c)), (Router.isLoadingMobileUrl c); cbn;
    (split; split); try (intros [? ?]); try intros ?;
    try discriminate; try reflexivity; try (split; reflexivity);
    try (specialize (I2 eq_refl); discriminate);
    try (destruct (I1 eq_refl); discriminate).
Qed.

Lemma X4_witness :
  outcome (Router.render Examples.android (Examples.propsWith [Examples.hlsSource])
             (Router.resolveEffect Examples.android (Examples.propsWith [Examples.hlsSource])
                (Router.mount (Examples.propsWith [Examples.hlsSource]))
                (Router.mount (Examples.propsWith [Examples.hlsSource]))))
  = OMobile.
Proof.
  apply (proj1 (proj2 (proj2
    (X4_reachable_rendering Examples.android (Examples.propsWith [Examples.hlsSource]) _
       (Spec.reach_resolve Examples.android (Examples.propsWith [Examples.hlsSource]) _ _
          (Spec.reach_mount _ _) (Spec.reach_mount _ _)))))).
  split; reflexivity.
Defined.

(** X5: the episode list handed to the players has one entry per input
    episode, in the same order and with the same ids, each the conversion
    of the episode at the same position; with no [episodes] property the
    list is empty. *)
Theorem X5_player_episodes_keep_ids (p : Props) :
  length (playerEpisodes p) = length (default [] (episodes p)) /\
  map pe_id (playerEpisodes p) = map ep_id (default [] (episodes p)) /\
  (forall i ep,
     default [] (episodes p) !! i = Some ep ->
     playerEpisodes p !! i = Some (toPlayerEpisode ep)) /\
  (episodes p = None -> playerEpisodes p = []).
Proof.
  unfold playerEpisodes.
  destruct (episodes p) as [eps | ]; cbn.
  - split; [apply length_map | ].
    split; [now rewrite map_map | ].
    split; [ | discriminate].
    intros i ep Hi. rewrite list_lookup_fmap, Hi. reflexivity.
  - repeat split. intros i ep Hi. discriminate Hi.
Qed.

(** X6: the current episode, when there is one, is an element of the
    [episodes] property whose id is the current episode id, and it is found
    whenever such an element exists; without a current episode id or
    without episodes there is none, and then the access type handed to the
    web player is the [accessType] property, 'free' by default. *)
Theorem X6_current_episode (p : Props) :
  (forall ep,
     currentEpisode p = Some ep ->
     currentEpisodeId p = Some (ep_id ep) /\
     exists eps, episodes p = Some eps /\ In ep eps) /\
  (forall eps ep,
     episodes p = Some eps -> In ep eps -> currentEpisodeId p = Some (ep_id ep) ->
     exists ep', currentEpisode p = Some ep' /\ ep_id ep' = ep_id ep) /\
  (currentEpisodeId p = None \/ episodes p = None ->
     currentEpisode p = None /\
     effectiveAccessType p = default Free (accessType p)).
Proof.
  unfold effectiveAccessType, currentEpisode. split; [ | split].
  - intros ep H.
    destruct (episodes p) as [eps | ]; cbn in H; [ | discriminate].
    apply List.find_some in H as [Hin Hid].
    destruct (currentEpisodeId p) as [id | ]; cbn in Hid; [ | discriminate].
    apply String.eqb_eq in Hid. subst id. split; [reflexivity | eauto].
  - intros eps ep He Hin Hid. rewrite He, Hid; cbn.
    destruct (List.find (fun ep0 => String.eqb (ep_id ep) (ep_id ep0)) eps) as [ep' | ] eqn:Hf.
    + exists ep'. split; [reflexivity | ].
      apply List.find_some in Hf as [_ Hf]. apply String.eqb_eq in Hf. now symmetry.
    + pose proof (List.find_none _ _ Hf ep Hin) as Hn. cbn in Hn.
      now rewrite String.eqb_refl in Hn.
  - intros [H | H]; rewrite H; cbn.
    + destruct (episodes p) as [eps | ]; cbn; [ | split; reflexivity].
      assert (List.find (fun ep => false) eps = None) as ->
        by (induction eps; [reflexivity | assumption]).
      split; reflexivity.
    + split; reflexivity.
Qed.

(** X7: the static helper [getNativePlatform] agrees with the predicates:
    it answers 'android' exactly when [isAndroidNative] holds and 'ios'
    exactly when [isIOSNative] holds, and 'web' in every other case; so it
    answers 'web' whenever the hook's [isWeb] holds, and also for a native
    runtime whose platform is neither 'android' nor 'ios', where [isWeb] is
    false unless the platform string is 'web'. *)
Theorem X7_native_platform_agrees (cap : Bridge) :
  (getNativePlatform cap = "android" <-> isAndroidNative cap = true) /\
  (getNativePlatform cap = "ios" <-> isIOSNative cap = true) /\
  (getNativePlatform cap = "web" <->
     isAndroidNative cap = false /\ isIOSNative cap = false) /\
  (isWeb (useNativeMobile cap) = true -> getNativePlatform cap = "web") /\
  (isNativePlatform cap = true -> getPlatform cap <> "android" ->
   getPlatform cap <> "ios" -> getPlatform cap <> "web" ->
     getNativePlatform cap = "web" /\ isWeb (useNativeMobile cap) = false).
Proof.
  destruct cap as [native plat].
  unfold getNativePlatform, isAndroidNative, isIOSNative; cbn.
  destruct native; cbn;
    [ destruct (String.eqb_spec plat "android") as [-> | Na]; cbn;
      [ | destruct (String.eqb_spec plat "ios") as [-> | Ni]; cbn ] | ];
    intuition (try discriminate; try congruence;
               try (apply String.eqb_neq; assumption)).
Qed.

(** X8: on native Android the resolving effect always ends with the loading
    flag clear, in both variants and whatever the cells and the properties
    are; so the render that follows a commit never shows the spinner. *)
Theorem X8_commit_clears_spinner (f : Flags) (p : Props) :
  isNative f = true ->
  isAndroid f = true ->
  (forall r c, Router.isLoadingMobileUrl (Router.resolveEffect f p r c) = false) /\
  (forall r c, RouterV0.isLoadingMobileUrl (RouterV0.resolveEffect f p r c) = false) /\
  (forall r, outcome (Router.render f p (Router.commit f p r)) <> OSpinner) /\
  (forall r, outcome (RouterV0.render f p (RouterV0.commit f p r)) <> OSpinner).
Proof.
  intros Hn Ha.
  assert (forall r c, Router.isLoadingMobileUrl (Router.resolveEffect f p r c) = false)
    as Hclear.
  { intros r c. unfold Router.resolveEffect, Router.resolveUrl, Router.seq.
    rewrite Hn, Ha; cbn. repeat case_match; reflexivity. }
  assert (forall r c, RouterV0.isLoadingMobileUrl (RouterV0.resolveEffect f p r c) = false)
    as Hclear0.
  { intros r c. apply resolveV0_clears_loading. now rewrite Hn, Ha. }
  repeat split; try assumption.
  - intros r. rewrite outcome_render. unfold Router.commit, Router.seq.
    rewrite Hclear. repeat case_match; discriminate.
  - intros r. rewrite outcome_renderV0. unfold RouterV0.commit, RouterV0.seq.
    rewrite Hclear0, andb_false_r. repeat case_match; discriminate.
Qed.

Lemma X8_witness :
  Router.isLoadingMobileUrl
    (Router.resolveEffect Examples.android (Examples.propsWith [Examples.hlsSource])
       Examples.pending Examples.pending) = false.
Proof.
  exact (proj1 (X8_commit_clears_spinner Examples.android
                  (Examples.propsWith [Examples.hlsSource]) eq_refl eq_refl)
           Examples.pending Examples.pending).
Defined.

(** * Further properties of the mobile player *)

Ltac player_cells c :=
  destruct c as [playing full loading panel ref src cclass bclass tms cls].

Ltac player_eval :=
  unfold Spec.post, Spec.newCalls,
    MobilePlayer.initEffect, MobilePlayer.initPlayer, MobilePlayer.toggleFullscreen,
    MobilePlayer.runTask, MobilePlayer.cleanupPlayer, MobilePlayer.nativeFallback,
    MobilePlayer.panelEpisodeSelect,
    MobilePlayer.bind, MobilePlayer.tryCatch, MobilePlayer.call, MobilePlayer.act,
    MobilePlayer.get, MobilePlayer.ret, MobilePlayer.update,
    MobilePlayer.setIsLoading, MobilePlayer.setIsPlaying, MobilePlayer.setIsFullscreen,
    MobilePlayer.setShakaPlayerRef, MobilePlayer.setShowEpisodesPanel,
    MobilePlayer.assignVideoSrc, MobilePlayer.setFullscreenClasses,
    MobilePlayer.setTimeout, MobilePlayer.record, MobilePlayer.rejects;
  cbn; rewrite <- ?app_assoc; cbn [app]; rewrite ?drop_app_length, ?drop_all.

(** X9: an awaited run of [cleanupPlayer], as [initPlayer] makes it, never
    throws and leaves no streaming player referenced; it calls [destroy]
    exactly when a player was referenced and reports a rejected [destroy]
    with a console warning only; every other cell is left as it was. *)
Theorem X9_cleanup_always_releases (env : MobilePlayer.Env) (c : MobilePlayer.Cells) :
  MobilePlayer.cleanupPlayer env c =
  (MobilePlayer.Normal tt,
   {| MobilePlayer.isPlaying := MobilePlayer.isPlaying c;
      MobilePlayer.isFullscreen := MobilePlayer.isFullscreen c;
      MobilePlayer.isLoading := MobilePlayer.isLoading c;
      MobilePlayer.showEpisodesPanel := MobilePlayer.showEpisodesPanel c;
      MobilePlayer.shakaPlayerRef := false;
      MobilePlayer.videoSrc := MobilePlayer.videoSrc c;
      MobilePlayer.containerFullscreenClass := MobilePlayer.containerFullscreenClass c;
      MobilePlayer.bodyFullscreenClass := MobilePlayer.bodyFullscreenClass c;
      MobilePlayer.timers := MobilePlayer.timers c;
      MobilePlayer.calls :=
        MobilePlayer.calls c ++
        (if MobilePlayer.shakaPlayerRef c then
           MobilePlayer.PlayerDestroy ::
             (if MobilePlayer.destroyRejects env
              then [MobilePlayer.ConsoleWarn "[MobilePlayer] Cleanup error:"]
              else [])
         else []) |}).
Proof.
  player_cells c.
  destruct env as [vp cp nat sup rf wrf fe wef dr it nt ar ct lr pr ll lp ur rr er].
  destruct ref, dr; player_eval; rewrite ?app_nil_r; reflexivity.
Qed.

(** X10: the "Initialize video" effect does nothing at all without a media
    element or with an empty URL; for an mp4 source it never calls the
    streaming library and never plays, even with autoplay requested: it
    assigns the URL to the media element, calls load, and leaves the
    loading flag set and the player reference as it was. *)
Theorem X10_init_guard_and_mp4 (env : MobilePlayer.Env) (videoUrl : string)
    (mode : SourceMode) (autoplay : bool) (c : MobilePlayer.Cells) :
  (MobilePlayer.videoPresent env = false \/ videoUrl = "" ->
     MobilePlayer.initEffect env videoUrl mode autoplay c = (MobilePlayer.Normal tt, c)) /\
  (MobilePlayer.videoPresent env = true -> videoUrl <> "" ->
     Spec.post (MobilePlayer.initEffect env videoUrl Mp4 autoplay) c (fun r c' =>
       r = MobilePlayer.Normal tt /\
       Spec.newCalls c c' = [MobilePlayer.VideoSetSrc videoUrl; MobilePlayer.VideoLoad] /\
       MobilePlayer.videoSrc c' = Some videoUrl /\
       MobilePlayer.isLoading c' = true /\
       MobilePlayer.shakaPlayerRef c' = MobilePlayer.shakaPlayerRef c /\
       MobilePlayer.isPlaying c' = MobilePlayer.isPlaying c)).
Proof.
  split.
  - intros H. unfold MobilePlayer.initEffect.
    destruct H as [-> | ->]; [reflexivity | ].
    now rewrite orb_true_r.
  - intros Hv Hu. unfold Spec.post.
    rewrite (initEffect_runs env videoUrl Mp4 autoplay c Hv Hu).
    player_cells c. player_eval. repeat split.
Qed.

(** X11: when the browser is supported and none of the streaming calls
    fails, a non-mp4 source is loaded by the streaming player, once, and the
    media element's src is left alone: the loading flag is cleared and the
    player is referenced. Autoplay that the browser blocks is tolerated: the
    stream stays loaded and the playing flag is only set when [play]
    succeeded. *)
Theorem X11_init_success (env : MobilePlayer.Env) (videoUrl : string)
    (mode : SourceMode) (autoplay : bool) (c : MobilePlayer.Cells) :
  MobilePlayer.videoPresent env = true ->
  videoUrl <> "" ->
  mode <> Mp4 ->
  MobilePlayer.isBrowserSupported env = true ->
  MobilePlayer.installAllThrows env = false ->
  MobilePlayer.newPlayerThrows env = false ->
  MobilePlayer.attachRejects env = false ->
  MobilePlayer.configureThrows env = false ->
  MobilePlayer.loadRejects env = false ->
  Spec.post (MobilePlayer.initEffect env videoUrl mode autoplay) c (fun r c' =>
    r = MobilePlayer.Normal tt /\
    MobilePlayer.isLoading c' = false /\
    MobilePlayer.shakaPlayerRef c' = true /\
    MobilePlayer.videoSrc c' = MobilePlayer.videoSrc c /\
    List.filter Spec.isPlayerLoad (Spec.newCalls c c') = [MobilePlayer.PlayerLoad videoUrl] /\
    List.filter Spec.isVideoLoad (Spec.newCalls c c') = [] /\
    MobilePlayer.isPlaying c' =
      (if autoplay && negb (MobilePlayer.playRejects env) then true
       else MobilePlayer.isPlaying c)).
Proof.
  intros Hv Hu Hm Hsup Hit Hnt Har Hct Hlr. unfold Spec.post.
  rewrite (initEffect_runs env videoUrl mode autoplay c Hv Hu).
  player_cells c.
  destruct env as [vp cp nat sup rf wrf fe wef dr it nt ar ct lr pr ll lp ur rr er].
  cbn in *. subst.
  destruct mode; [congruence | | ];
    destruct ref, dr, autoplay, pr; player_eval; repeat split.
Qed.

Lemma X11_witness :
  MobilePlayer.isLoading
    (snd (MobilePlayer.initEffect Examples.calmEnv "https://cdn.example/ep1/master.m3u8"
            Hls true MobilePlayer.mount)) = false.
Proof.
  refine (proj1 (proj2
    (X11_init_success Examples.calmEnv "https://cdn.example/ep1/master.m3u8" Hls true
       MobilePlayer.mount eq_refl _ _ eq_refl eq_refl eq_refl eq_refl eq_refl eq_refl)));
    discriminate.
Defined.

(** X12: the fullscreen toggle does nothing at all while the container is
    not mounted. Otherwise both fullscreen classes end up set exactly when
    fullscreen is being entered, whatever is rejected; outside a native
    runtime no call into the screen-orientation plugin is made and no timer
    is set; and entering fullscreen never sets a timer. The playback cells
    are not touched. *)
Theorem X12_fullscreen_classes (env : MobilePlayer.Env) (c : MobilePlayer.Cells) :
  (MobilePlayer.containerPresent env = false ->
     MobilePlayer.toggleFullscreen env c = (MobilePlayer.Normal tt, c)) /\
  (MobilePlayer.containerPresent env = true ->
     Spec.post (MobilePlayer.toggleFullscreen env) c (fun r c' =>
       MobilePlayer.containerFullscreenClass c' = negb (MobilePlayer.isFullscreen c) /\
       MobilePlayer.bodyFullscreenClass c' = negb (MobilePlayer.isFullscreen c) /\
       (MobilePlayer.isNativePlatform env = false ->
          forallb (fun k => negb (MoreSpec.isOrientationCall k)) (Spec.newCalls c c') = true /\
          MobilePlayer.timers c' = MobilePlayer.timers c) /\
       (MobilePlayer.isFullscreen c = false ->
          MobilePlayer.timers c' = MobilePlayer.timers c) /\
       MobilePlayer.isPlaying c' = MobilePlayer.isPlaying c /\
       MobilePlayer.isLoading c' = MobilePlayer.isLoading c /\
       MobilePlayer.videoSrc c' = MobilePlayer.videoSrc c /\
       MobilePlayer.shakaPlayerRef c' = MobilePlayer.shakaPlayerRef c)).
Proof.
  split; intros Hc; unfold MobilePlayer.toggleFullscreen; rewrite Hc; [reflexivity | ].
  fold (MobilePlayer.toggleFullscreen env).
  player_cells c.
  destruct env as [vp cp nat sup rf wrf fe wef dr it nt ar ct lr pr ll lp ur rr er].
  cbn in Hc. subst cp.
  destruct full.
  - destruct fe, wef, er, nat, lp; player_eval; repeat split; discriminate.
  - destruct nat, ll, rf, wrf, rr; player_eval; repeat split; discriminate.
Qed.

(** X13: leaving fullscreen in a native runtime sets the unlock timer (500
    ms) exactly when the portrait lock was accepted, and sets no other
    timer; the deferred unlock itself never throws and does nothing but
    make the one unlock call, whether or not the unlock is rejected: every
    cell is left as it was. *)
Theorem X13_exit_schedules_unlock (env : MobilePlayer.Env) (c : MobilePlayer.Cells) :
  MobilePlayer.containerPresent env = true ->
  MobilePlayer.isFullscreen c = true ->
  MobilePlayer.isNativePlatform env = true ->
  Spec.post (MobilePlayer.toggleFullscreen env) c (fun r c' =>
    MobilePlayer.timers c' =
      MobilePlayer.timers c ++
        (if MobilePlayer.lockPortraitRejects env then []
         else [(500%nat, MobilePlayer.UnlockLater)])) /\
  (forall c1,
     MobilePlayer.runTask env MobilePlayer.UnlockLater c1
     = (MobilePlayer.Normal tt, MobilePlayer.record MobilePlayer.OrientationUnlock c1)).
Proof.
  intros Hc Hf Hn.
  destruct env as [vp cp nat sup rf wrf fe wef dr it nt ar ct lr pr ll lp ur rr er].
  cbn in Hc, Hn. subst.
  split.
  - player_cells c. cbn in Hf. subst.
    destruct fe, wef, er, lp; player_eval; rewrite ?app_nil_r; reflexivity.
  - intros c1.
    unfold MobilePlayer.runTask, MobilePlayer.tryCatch, MobilePlayer.call, MobilePlayer.ret.
    cbn. now destruct ur.
Qed.

Lemma X13_witness :
  MobilePlayer.timers
    (snd (MobilePlayer.toggleFullscreen Examples.calmEnv MoreExamples.inFullscreen))
  = [(500%nat, MobilePlayer.UnlockLater)].
Proof.
  exact (proj1 (X13_exit_schedules_unlock Examples.calmEnv MoreExamples.inFullscreen
                  eq_refl eq_refl eq_refl)).
Defined.

(** X14: choosing an episode in the mobile player's episode panel closes the
    panel, changes no other cell of the mobile player, and runs the router's
    [handleEpisodeSelect]. When the router was given an [onEpisodeSelect]
    callback, on native Android it then renders the spinner, and its next
    commit resolves the default source of whatever properties it is given
    afresh, also when the same episode was chosen again, since the last
    fetched key was forgotten. When the router was given no callback (the
    panel is offered all the same, as the router always passes its handler)
    the router's cells stay as they were, and so does what it renders. *)
Theorem X14_panel_selection_flow (f : Flags) (p p' : Props) (episodeId : string)
    (s : System.State) (src' : VideoSource) :
  isNative f = true ->
  isAndroid f = true ->
  defaultSource (videoSources p') = Some src' ->
  System.player (System.runPlayer p (MobilePlayer.panelEpisodeSelect episodeId) s)
    = {| MobilePlayer.isPlaying := MobilePlayer.isPlaying (System.player s);
         MobilePlayer.isFullscreen := MobilePlayer.isFullscreen (System.player s);
         MobilePlayer.isLoading := MobilePlayer.isLoading (System.player s);
         MobilePlayer.showEpisodesPanel := false;
         MobilePlayer.shakaPlayerRef := MobilePlayer.shakaPlayerRef (System.player s);
         MobilePlayer.videoSrc := MobilePlayer.videoSrc (System.player s);
         MobilePlayer.containerFullscreenClass :=
           MobilePlayer.containerFullscreenClass (System.player s);
         MobilePlayer.bodyFullscreenClass :=
           MobilePlayer.bodyFullscreenClass (System.player s);
         MobilePlayer.timers := MobilePlayer.timers (System.player s);
         MobilePlayer.calls :=
           MobilePlayer.calls (System.player s)
             ++ [MobilePlayer.ParentOnEpisodeSelect episodeId] |} /\
  System.router (System.runPlayer p (MobilePlayer.panelEpisodeSelect episodeId) s)
    = fst (Router.handleEpisodeSelect p episodeId) (System.router s) /\
  (onEpisodeSelect p = true ->
     Router.render f p
       (System.router (System.runPlayer p (MobilePlayer.panelEpisodeSelect episodeId) s))
       = LoadingSpinner /\
     Router.mobileVideoUrl
       (Router.commit f p'
          (System.router
             (System.runPlayer p (MobilePlayer.panelEpisodeSelect episodeId) s)))
       = Spec.resolvedUrl src' /\
     Router.isLoadingMobileUrl
       (Router.commit f p'
          (System.router
             (System.runPlayer p (MobilePlayer.panelEpisodeSelect episodeId) s)))
       = false) /\
  (onEpisodeSelect p = false ->
     System.router (System.runPlayer p (MobilePlayer.panelEpisodeSelect episodeId) s)
       = System.router s /\
     Router.render f p
       (System.router (System.runPlayer p (MobilePlayer.panelEpisodeSelect episodeId) s))
       = Router.render f p (System.router s)).
Proof.
  intros Hn Ha Hs.
  assert (System.router (System.runPlayer p (MobilePlayer.panelEpisodeSelect episodeId) s)
          = fst (Router.handleEpisodeSelect p episodeId) (System.router s)) as Hr.
  { unfold System.runPlayer. cbn [System.router].
    destruct s as [rt pl]. player_cells pl. player_eval. reflexivity. }
  split; [reflexivity | ]. split; [exact Hr | ]. rewrite Hr.
  unfold Router.handleEpisodeSelect.
  split; intros Hcb; rewrite Hcb; cbn [fst]; [ | split; reflexivity].
  split.
  - unfold Router.render; cbn. now rewrite Hn, Ha.
  - unfold Router.commit. unfold Router.seq at 1.
    match goal with
    | |- context [Router.resolveEffect f p' ?r ?x] => set (r1 := r); set (c1 := x)
    end.
    assert (Router.alreadyFetched r1 c1 (fetchKey p' src') = false) as Hg.
    { unfold c1, r1, Router.resetEffect, Router.alreadyFetched.
      destruct (JS.strict_neq _ _); reflexivity. }
    now destruct (resolve_fresh_cells f p' r1 c1 src' Hn Ha Hs Hg) as (Hu & _ & Hl & _).
Qed.

Lemma X14_witness :
  Router.mobileVideoUrl
    (Router.commit Examples.android (Examples.propsWith [Examples.hlsSource])
       (System.router
          (System.runPlayer (Examples.propsWith [Examples.hlsSource])
             (MobilePlayer.panelEpisodeSelect "e1") Examples.mobilePath)))
  = Some "https://cdn.example/ep1/master.m3u8".
Proof.
  exact (proj1 (proj2 (proj1 (proj2 (proj2
    (X14_panel_selection_flow Examples.android (Examples.propsWith [Examples.hlsSource])
       (Examples.propsWith [Examples.hlsSource]) "e1" Examples.mobilePath
       Examples.hlsSource eq_refl eq_refl eq_refl))) eq_refl))).
Defined.

(** ** The control overlay *)

Lemma controls_invariant c :
  Controls.reachable c ->
  (0 < Controls.nextTimerId c)%nat /\
  (forall id, Controls.controlsTimeoutRef c = Some id -> (0 < id)%nat) /\
  (Controls.pending c = [] \/
   exists t, Controls.pending c = [t] /\
             Controls.controlsTimeoutRef c = Some (Controls.timerId t) /\
             Controls.delay t = 3000%nat).
Proof.
  induction 1 as [n | b c _ IH | id c _ IH].
  - cbn. split; [lia | ]. split; [discriminate | now left].
  - destruct IH as (Hpos & Href & Hpend).
    assert (Controls.pending
              (match Controls.controlsTimeoutRef c with
               | Some id =>
                   if negb (id =? 0)%nat then Controls.clearTimeout id c else c
               | None => c
               end) = [] /\
            Controls.nextTimerId
              (match Controls.controlsTimeoutRef c with
               | Some id =>
                   if negb (id =? 0)%nat then Controls.clearTimeout id c else c
               | None => c
               end) = Controls.nextTimerId c) as [Hclr Hnext].
    { destruct Hpend as [Hp | (t & Hp & Hr & _)].
      - destruct (Controls.controlsTimeoutRef c) as [id | ]; [ | now split].
        destruct (negb (id =? 0)%nat); cbn; [ | now split].
        now rewrite Hp.
      - rewrite Hr. specialize (Href _ Hr).
        destruct (Nat.eqb_spec (Controls.timerId t) 0) as [E | _]; [lia | ]. cbn.
        rewrite Hp; cbn. now rewrite Nat.eqb_refl. }
    unfold Controls.resetControlsTimeout; cbn. rewrite Hclr, Hnext; cbn.
    split; [lia | ]. split; [now intros id [= <-] | ].
    right. eexists. repeat split.
  - destruct IH as (Hpos & Href & Hpend).
    unfold Controls.fire.
    destruct (List.find _ (Controls.pending c)) as [t | ] eqn:Hf;
      [ | now repeat split].
    assert (Controls.pending (Controls.clearTimeout id c) = []) as Hclr.
    { destruct Hpend as [Hp | (t' & Hp & _)]; [now rewrite Hp in Hf | ].
      cbn. rewrite Hp in *. cbn in *.
      destruct (Controls.timerId t' =? id)%nat; [reflexivity | discriminate]. }
    destruct (Controls.playingAtReset t); cbn [Controls.setShowControls
      Controls.nextTimerId Controls.controlsTimeoutRef Controls.pending
      Controls.clearTimeout]; cbn in Hclr; rewrite ?Hclr;
      (split; [assumption | split; [assumption | now left]]).
Qed.

(** X15: however the user interacts and whichever timers run, at most one
    auto-hide timer of the component is pending; it is the one the ref
    holds, and it was set for 3000 ms. Timers do not pile up. *)
Theorem X15_one_hide_timer (c : Controls.Cells) :
  Controls.reachable c ->
  (length (Controls.pending c) <= 1)%nat /\
  (forall t, In t (Controls.pending c) ->
     Controls.controlsTimeoutRef c = Some (Controls.timerId t) /\
     Controls.delay t = 3000%nat /\
     (0 < Controls.timerId t < Controls.nextTimerId c)%nat).
Proof.
  intros Hr.
  assert (forall t, In t (Controls.pending c) ->
            (Controls.timerId t < Controls.nextTimerId c)%nat) as Hlt.
  { induction Hr as [n | b c Hr IH | id c Hr IH]; cbn.
    - intros t [].
    - intros t Hin. apply in_app_or in Hin as [Hin | [<- | []]]; cbn; [ | lia].
      assert (In t (Controls.pending c)) as Hin'.
      { destruct (Controls.controlsTimeoutRef c) as [id | ]; [ | exact Hin].
        destruct (negb (id =? 0)%nat); [ | exact Hin].
        cbn in Hin. now apply List.filter_In in Hin. }
      specialize (IH t Hin').
      destruct (Controls.controlsTimeoutRef c) as [id | ];
        [destruct (negb (id =? 0)%nat) | ]; cbn; lia.
    - unfold Controls.fire.
      destruct (List.find _ (Controls.pending c)) as [t0 | ]; [ | exact IH].
      intros t Hin.
      assert (In t (Controls.pending c)) as Hin'.
      { destruct (Controls.playingAtReset t0); cbn in Hin;
          now apply List.filter_In in Hin. }
      specialize (IH t Hin').
      destruct (Controls.playingAtReset t0); cbn; lia. }
  destruct (controls_invariant c Hr) as (Hpos & Href & [Hp | (t & Hp & Hrf & Hd)]).
  - rewrite Hp. split; [cbn; lia | intros t []].
  - rewrite Hp in *. split; [cbn; lia | ].
    intros t' [<- | []]. repeat split; try assumption.
    + now apply Href.
    + apply Hlt. now left.
Qed.

Lemma X15_witness :
  (length
     (Controls.pending
        (Controls.resetControlsTimeout true
           (Controls.resetControlsTimeout false (Controls.mount 0)))) <= 1)%nat.
Proof.
  exact (proj1 (X15_one_hide_timer _
    (Controls.reach_reset true _
       (Controls.reach_reset false _ (Controls.reach_mount 0))))).
Defined.

(** What a reset leaves pending: the timer it set, alone. *)
Lemma reset_pending isPlaying c :
  Controls.reachable c ->
  Controls.pending (Controls.resetControlsTimeout isPlaying c)
    = [{| Controls.timerId := Controls.nextTimerId c;
          Controls.delay := 3000;
          Controls.playingAtReset := isPlaying |}].
Proof.
  intros Hr. destruct (controls_invariant c Hr) as (Hpos & Href & Hpend).
  unfold Controls.resetControlsTimeout.
  destruct Hpend as [Hp | (t & Hp & Hrf & _)].
  - destruct (Controls.controlsTimeoutRef c) as [id | ];
      [destruct (negb (id =? 0)%nat) | ]; cbn; now rewrite Hp.
  - rewrite Hrf. specialize (Href _ Hrf).
    destruct (Nat.eqb_spec (Controls.timerId t) 0) as [E | _]; [lia | ]. cbn.
    rewrite Hp; cbn. now rewrite Nat.eqb_refl.
Qed.

(** X16: every interaction shows the controls and leaves exactly the timer
    it has just set pending. When that timer runs, the controls are hidden
    if and only if the video was playing at the time of the interaction
    (not at the time the timer runs), and no timer is left; a timer
    replaced by a later interaction never runs. *)
Theorem X16_reset_then_fire (isPlaying : bool) (c : Controls.Cells) :
  Controls.reachable c ->
  Controls.showControls (Controls.resetControlsTimeout isPlaying c) = true /\
  Controls.pending (Controls.resetControlsTimeout isPlaying c)
    = [{| Controls.timerId := Controls.nextTimerId c;
          Controls.delay := 3000;
          Controls.playingAtReset := isPlaying |}] /\
  Controls.showControls
    (Controls.fire (Controls.nextTimerId c) (Controls.resetControlsTimeout isPlaying c))
    = negb isPlaying /\
  Controls.pending
    (Controls.fire (Controls.nextTimerId c) (Controls.resetControlsTimeout isPlaying c))
    = [] /\
  (forall id, id <> Controls.nextTimerId c ->
     Controls.fire id (Controls.resetControlsTimeout isPlaying c)
       = Controls.resetControlsTimeout isPlaying c).
Proof.
  intros Hr.
  pose proof (reset_pending isPlaying c Hr) as Hp.
  split; [reflexivity | ]. split; [exact Hp | ].
  unfold Controls.fire. rewrite Hp. cbn [List.find Controls.timerId].
  split; [ | split].
  - rewrite Nat.eqb_refl. cbn [Controls.playingAtReset].
    now destruct isPlaying.
  - rewrite Nat.eqb_refl. cbn [Controls.playingAtReset].
    destruct isPlaying; cbn [Controls.setShowControls Controls.pending
      Controls.clearTimeout]; rewrite Hp; cbn; now rewrite Nat.eqb_refl.
  - intros id Hid. destruct (Nat.eqb_spec (Controls.nextTimerId c) id); [congruence | ].
    reflexivity.
Qed.

Lemma X16_witness :
  Controls.showControls
    (Controls.fire (Controls.nextTimerId (Controls.mount 0))
       (Controls.resetControlsTimeout true (Controls.mount 0)))
  = false.
Proof.
  exact (proj1 (proj2 (proj2
    (X16_reset_then_fire true (Controls.mount 0) (Controls.reach_mount 0))))).
Defined.

(** ** The listeners on the media element *)

Lemma dispatch_snoc {T} (es : list (Playback.Event T)) e c :
  Playback.dispatch (es ++ [e]) c = Playback.handle e (Playback.dispatch es c).
Proof. unfold Playback.dispatch. now rewrite foldl_app. Qed.

Lemma last_omap_snoc {A B} (g : A -> option B) (l : list A) (x : A) :
  last (omap g (l ++ [x])) =
  match g x with
  | Some b => Some b
  | None => last (omap g l)
  end.
Proof.
  rewrite omap_app. cbn. destruct (g x) as [b | ]; cbn.
  - apply last_snoc.
  - now rewrite app_nil_r.
Qed.

(** X17: after any sequence of media events, the playing flag is what the
    last play or pause event said, the loading flag what the last waiting
    or canplay event said, the current time and the duration what the last
    timeupdate and durationchange events reported, and the buffered position
    the end of the last range of the last progress event that had a range;
    each keeps its old value when no such event occurred. Every other cell
    of the mobile player is left as it was. *)
Theorem X17_events_track_the_element {T : Type} (es : list (Playback.Event T))
    (c : Playback.Cells T) :
  Playback.dispatch es c =
  {| Playback.player :=
       {| MobilePlayer.isPlaying :=
            default (MobilePlayer.isPlaying (Playback.player c))
              (last (omap Playback.playFlag es));
          MobilePlayer.isFullscreen := MobilePlayer.isFullscreen (Playback.player c);
          MobilePlayer.isLoading :=
            default (MobilePlayer.isLoading (Playback.player c))
              (last (omap Playback.loadFlag es));
          MobilePlayer.showEpisodesPanel :=
            MobilePlayer.showEpisodesPanel (Playback.player c);
          MobilePlayer.shakaPlayerRef := MobilePlayer.shakaPlayerRef (Playback.player c);
          MobilePlayer.videoSrc := MobilePlayer.videoSrc (Playback.player c);
          MobilePlayer.containerFullscreenClass :=
            MobilePlayer.containerFullscreenClass (Playback.player c);
          MobilePlayer.bodyFullscreenClass :=
            MobilePlayer.bodyFullscreenClass (Playback.player c);
          MobilePlayer.timers := MobilePlayer.timers (Playback.player c);
          MobilePlayer.calls := MobilePlayer.calls (Playback.player c) |};
     Playback.currentTime :=
       default (Playback.currentTime c) (last (omap MoreSpec.timeOf es));
     Playback.duration :=
       default (Playback.duration c) (last (omap MoreSpec.durationOf es));
     Playback.buffered :=
       default (Playback.buffered c) (last (omap Playback.bufferEnd es)) |}.
Proof.
  induction es as [ | e es IH] using rev_ind.
  - destruct c as [pl t d b]. now destruct pl.
  - rewrite dispatch_snoc, IH, !last_omap_snoc.
    destruct e as [t | d | | | | | ranges]; cbn; try reflexivity.
    now destruct (last ranges) as [[s e] | ].
Qed.

(** X18: the body-class effect sets the class on the body exactly when the
    fullscreen flag is set, and its cleanup removes it; run after the
    fullscreen toggle (with the container mounted) it changes nothing, as
    the toggle has already brought the class in line with the new flag. *)
Theorem X18_body_class_follows_flag (env : MobilePlayer.Env) (c : MobilePlayer.Cells) :
  MobilePlayer.bodyFullscreenClass (snd (Playback.bodyClassEffect c))
    = MobilePlayer.isFullscreen c /\
  MobilePlayer.bodyFullscreenClass (snd (Playback.bodyClassCleanup c)) = false /\
  (MobilePlayer.containerPresent env = true ->
     snd (Playback.bodyClassEffect (snd (MobilePlayer.toggleFullscreen env c)))
       = snd (MobilePlayer.toggleFullscreen env c)).
Proof.
  player_cells c.
  split; [now destruct full | ]. split; [reflexivity | ].
  intros Hc.
  destruct env as [vp cp nat sup rf wrf fe wef dr it nt ar ct lr pr ll lp ur rr er].
  cbn in Hc. subst cp.
  unfold Playback.bodyClassEffect, Playback.setBodyClass.
  destruct full.
  - destruct fe, wef, er, nat, lp; player_eval; reflexivity.
  - destruct nat, ll, rf, wrf, rr; player_eval; reflexivity.
Qed.
